(** * NICU camera connectors: vitals extraction, smoothing and submission

    A shallow embedding of the four camera-connector scripts

    - [scripts/camera-connector-production.py]  (module [Production])
    - [scripts/camera-to-dashboard-ocr.py]      (module [OcrConnector])
    - [scripts/vlm-vitals-extractor.py]         (module [Vlm])
    - [scripts/camera-to-dashboard.py]          (module [Mock])

    and the properties of the sampling pipeline they share: range validation
    of extracted values, the median smoother with its rolling buffers, the
    quorum rule, the confidence score and the pruned submission payload.

    Conventions of the embedding.

    - A Python [float] is a rational ([Q]).  The scripts only compare floats,
      truncate them, round them to one decimal and add or scale them by
      decimal constants; non-finite floats can only enter through the JSON
      reply of the vision model and are a separate constructor there.
    - A [str] is a [string] whose characters are code points below 256.
    - A [dict] whose iteration order matters is an association list in
      insertion order ([dict]); the history of the smoother, which is only
      indexed by key, is a [gmap].
    - A library call whose result the scripts cannot control (Tesseract,
      the vision model, [json.loads], [requests.post], the random generator,
      the video stream) is an input of the function that makes the call. *)

From Stdlib Require Import QArith Qround Lqa ZArith Ascii String Sorted.
From stdpp Require Import gmap strings list fin_maps.

Local Open Scope Z_scope.
Local Open Scope Q_scope.
Local Open Scope nat_scope.

(** ** Python values *)

(** [int(x)] on a float: truncation towards zero. *)
Definition py_int (x : Q) : Z := Z.quot (Qnum x) (Zpos (Qden x)).

(** Round half to even of a rational, the tie rule of [round]. *)
Definition round_half_even (x : Q) : Z :=
  let f := Qfloor x in
  let r := (x - inject_Z f)%Q in
  match (r ?= 1 # 2)%Q with
  | Lt => f
  | Gt => (f + 1)%Z
  | Eq => if Z.even f then f else (f + 1)%Z
  end.

(** [round(x, 1)] on the rational the float stands for: a tie is a tie of that
    rational.  Python rounds the binary value of the float, which differs
    from a decimal such as 36.55 by less than one part in 10^15, so where the
    rational lies exactly between two tenths Python can return the other
    one; the two results are then 0.1 apart, and both are tenths next to
    [x]. *)
Definition py_round1 (x : Q) : Q := (round_half_even (x * 10) # 10)%Q.

(** [min(a, b)] on floats. *)
Definition py_min (a b : Q) : Q := if Qle_bool a b then a else b.

(** Truthiness of [d.get(k)] for a numeric entry: [None] and zero are falsy. *)
Definition truthy (o : option Q) : bool :=
  match o with
  | Some v => negb (Qeq_bool v 0)
  | None => false
  end.

(** ** Dictionaries in insertion order *)

Definition dict (V : Type) : Type := list (string * V).

Fixpoint dict_get {V} (d : dict V) (k : string) : option V :=
  match d with
  | [] => None
  | (k', v) :: d' => if String.eqb k k' then Some v else dict_get d' k
  end.

(** [d[k] = v]: overwrite in place, or append a new key. *)
Fixpoint dict_set {V} (d : dict V) (k : string) (v : V) : dict V :=
  match d with
  | [] => [(k, v)]
  | (k', v') :: d' =>
      if String.eqb k k' then (k', v) :: d' else (k', v') :: dict_set d' k v
  end.

Definition dict_keys {V} (d : dict V) : list string := map fst d.

(** ** Strings *)

Definition chars (s : string) : list ascii := list_ascii_of_string s.
Definition text (l : list ascii) : string := string_of_list_ascii l.

Definition code (c : ascii) : nat := nat_of_ascii c.

Definition is_lower (c : ascii) : bool := (97 <=? code c) && (code c <=? 122).
Definition is_upper (c : ascii) : bool := (65 <=? code c) && (code c <=? 90).

(** The small letters of Latin-1 that have their capital 32 code points
    below: a to z, and 224 to 254 but for the division sign 247. *)
Definition has_capital_below (c : ascii) : bool :=
  is_lower c || ((224 <=? code c) && (code c <=? 254) && negb (code c =? 247)).

(** [c.upper()]: the sharp s (223) becomes two letters.  The capitals of the
    micro sign (181) and of y with diaeresis (255) lie beyond the code points
    of this model; the two characters are kept, and neither they nor their
    capitals are matched by any pattern of the scripts. *)
Definition upper_char (c : ascii) : list ascii :=
  if has_capital_below c then [ascii_of_nat (code c - 32)]
  else if code c =? 223 then ["S"%char; "S"%char]
  else [c].
Definition lower_char (c : ascii) : ascii :=
  if is_upper c then ascii_of_nat (code c + 32) else c.

(** [s.upper()] *)
Definition upper (s : list ascii) : list ascii := flat_map upper_char s.

(** [s.replace('\n', ' ')]. *)
Definition newlines_to_spaces (s : list ascii) : list ascii :=
  map (fun c => if code c =? 10 then " "%char else c) s.

(** ** A backtracking matcher for the regular expressions of the scripts *)

Module Re.

Definition cls := ascii -> bool.

(** [\d] *)
Definition digit : cls := fun c => (48 <=? code c) && (code c <=? 57).
(** [\s] on code points below 256 *)
Definition space : cls := fun c =>
  let n := code c in
  ((9 <=? n) && (n <=? 13)) || ((28 <=? n) && (n <=? 32))
  || (n =? 133) || (n =? 160).
(** a literal character under [re.IGNORECASE] *)
Definition ci (a : ascii) : cls := fun c =>
  Ascii.eqb (lower_char c) (lower_char a).
Definition range (a b : ascii) : cls := fun c =>
  (code a <=? code c) && (code c <=? code b).
Definition either (p q : cls) : cls := fun c => p c || q c.
Definition neither (p q : cls) : cls := fun c => negb (p c || q c).

Inductive regex : Type :=
| Eps
| Chr (p : cls)
| Rep (p : cls) (lo : nat) (hi : option nat)   (* greedy [p{lo,hi}] *)
| Seq (r1 r2 : regex)
| Alt (r1 r2 : regex)
| Grp (r : regex)                              (* capture group 1 *)
| NotBehind (p : cls)                          (* [(?<!p)] *)
| NotAhead (p : cls).                          (* [(?!p)] *)

Definition star (p : cls) : regex := Rep p 0 None.
Definition opt (p : cls) : regex := Rep p 0 (Some 1).
Definition times (p : cls) (lo hi : nat) : regex := Rep p lo (Some hi).

Fixpoint seqs (rs : list regex) : regex :=
  match rs with
  | [] => Eps
  | [r] => r
  | r :: rs' => Seq r (seqs rs')
  end.

(** A literal word, matched case-insensitively. *)
Definition word (s : string) : regex := seqs (map (fun a => Chr (ci a)) (chars s)).

Section Matcher.
Context {R : Type}.

(** The continuation receives the character before the position reached,
    the rest of the input and the text of group 1 so far. *)
Definition cont : Type := option ascii -> list ascii -> option (list ascii) -> option R.

Definition more (hi : option nat) : bool :=
  match hi with Some 0 => false | _ => true end.
Definition dec (hi : option nat) : option nat :=
  match hi with Some n => Some (pred n) | None => None end.

(** Greedy repetition: take one more character when allowed, and give
    characters back one at a time when the rest fails. *)
Fixpoint rep (p : cls) (lo : nat) (hi : option nat)
    (prev : option ascii) (s : list ascii) (cap : option (list ascii))
    (k : cont) : option R :=
  let stop := if lo =? 0 then k prev s cap else None in
  match s with
  | c :: s' =>
      if p c && more hi then
        match rep p (pred lo) (dec hi) (Some c) s' cap k with
        | Some r => Some r
        | None => stop
        end
      else stop
  | [] => stop
  end.

Fixpoint run (r : regex) (prev : option ascii) (s : list ascii)
    (cap : option (list ascii)) (k : cont) : option R :=
  match r with
  | Eps => k prev s cap
  | Chr p =>
      match s with
      | c :: s' => if p c then k (Some c) s' cap else None
      | [] => None
      end
  | Rep p lo hi => rep p lo hi prev s cap k
  | Seq r1 r2 => run r1 prev s cap (fun prev' s' cap' => run r2 prev' s' cap' k)
  | Alt r1 r2 =>
      match run r1 prev s cap k with
      | Some x => Some x
      | None => run r2 prev s cap k
      end
  | Grp r1 =>
      run r1 prev s cap
        (fun prev' s' _ => k prev' s' (Some (take (length s - length s') s)))
  | NotBehind p =>
      match prev with
      | Some c => if p c then None else k prev s cap
      | None => k prev s cap
      end
  | NotAhead p =>
      match s with
      | c :: _ => if p c then None else k prev s cap
      | [] => k prev s cap
      end
  end.
End Matcher.

(** A match object: [group()] and [group(1)]. *)
Record match_obj : Type := { group0 : list ascii; group1 : option (list ascii) }.

Definition match_here (r : regex) (prev : option ascii) (s : list ascii) : option match_obj :=
  run r prev s None
    (fun _ s' cap => Some {| group0 := take (length s - length s') s; group1 := cap |}).

(** [re.search]: the leftmost position at which the pattern matches. *)
Fixpoint search_from (r : regex) (prev : option ascii) (s : list ascii) : option match_obj :=
  match match_here r prev s with
  | Some m => Some m
  | None =>
      match s with
      | c :: s' => search_from r (Some c) s'
      | [] => None
      end
  end.

Definition search (r : regex) (s : list ascii) : option match_obj := search_from r None s.

End Re.

(** ** [float(s)] on the decimal strings the patterns capture *)

Definition digit_val (c : ascii) : Z := Z.of_nat (code c - 48).

Fixpoint digits_val (acc : Z) (s : list ascii) : option Z :=
  match s with
  | [] => Some acc
  | c :: s' => if Re.digit c then digits_val (10 * acc + digit_val c)%Z s' else None
  end.

Fixpoint split_dot (s : list ascii) : list ascii * option (list ascii) :=
  match s with
  | [] => ([], None)
  | c :: s' =>
      if code c =? 46 then ([], Some s')
      else let '(a, b) := split_dot s' in (c :: a, b)
  end.

(** Digits, optionally followed by a point and more digits; at least one
    digit overall.  [None] is [ValueError]. *)
Definition py_float (s : list ascii) : option Q :=
  let '(ip, fp) := split_dot s in
  let fp' := default [] fp in
  match ip, fp' with
  | [], [] => None
  | _, _ =>
      match digits_val 0 (ip ++ fp') with
      | Some n => Some (n # Pos.of_nat (10 ^ length fp'))%Q
      | None => None
      end
  end.

(** ** Exceptions and results *)

Inductive exn : Type :=
| ValueError
| TypeError
| KeyError (k : string)
| IndexError
| OverflowError
| AttributeError (type_name : string)
| OtherError (msg : string).

(** [str(e)]; the messages of the errors raised while parsing are
    abbreviated. *)
Definition exn_str (e : exn) : string :=
  match e with
  | ValueError => "could not convert string to float"
  | TypeError => "float() argument must be a string or a real number"
  | KeyError k => "'" +:+ k +:+ "'"
  | IndexError => "list index out of range"
  | OverflowError => "int too large to convert to float"
  | AttributeError type_name => "'" +:+ type_name +:+ "' object has no attribute 'get'"
  | OtherError msg => msg
  end.

Inductive result (A : Type) : Type :=
| Ok (a : A)
| Raise (e : exn).
Arguments Ok {A} a.
Arguments Raise {A} e.

Definition bind {A B} (r : result A) (f : A -> result B) : result B :=
  match r with
  | Ok a => f a
  | Raise e => Raise e
  end.

Notation "'try' x := r 'in' k" := (bind r (fun x => k))
  (at level 10, x name, k at level 200).

Definition slice (n : nat) (s : string) : string := text (take n (chars s)).

(** ** JSON values *)

#[warnings="-register-all"] Inductive json : Type :=
| JNone
| JBoolean (b : bool)
| JInteger (z : Z)
| JNumber (q : Q)
| JText (s : string)
| JList (l : list json)
| JDict (d : list (string * json)).

Definition is_none (j : json) : bool :=
  match j with JNone => true | _ => false end.

(** ** The random generator

    Each call consumes one raw draw; [random()] is a 53-bit integer divided
    by 2^53, [randint(a, b)] is uniform on the integers from a to b. *)

Definition randint (a b : Z) (raw : Z) : Z := (a + raw mod (b - a + 1))%Z.
Definition random (raw : Z) : Q := (raw mod 2 ^ 53 # 2 ^ 53)%Q.
Definition uniform (a b : Q) (raw : Z) : Q := (a + (b - a) * random raw)%Q.

(** ** The HTTP endpoint

    [requests.post(...)] followed by [response.json()]: the n-th request of
    a run is answered by [reply_of n]; every request body is logged.  The
    request or the decoding of the answer raises, or the answer decodes to a
    JSON object, or it decodes to another JSON value: null, a boolean, a
    number, a string or a list. *)

Inductive http_reply : Type :=
| HttpRaises (msg : string)                 (* connection error, timeout, invalid body *)
| HttpJson (body : list (string * json))    (* the JSON object of the answer *)
| HttpOther (value : json).                 (* an answer that is not an object *)

Record network : Type := {
  reply_of : nat -> http_reply;
  posted : list json
}.

Definition requests_post (net : network) (payload : json) : network * http_reply :=
  ({| reply_of := reply_of net; posted := posted net ++ [payload] |},
   reply_of net (length (posted net))).

(** ** [collections.deque(maxlen=n)] *)

Record deque : Type := { maxlen : nat; items : list Q }.

Definition deque_new (n : nat) : deque := {| maxlen := n; items := [] |}.

(** [append]: when the deque is full the leftmost item is discarded. *)
Definition deque_append (d : deque) (x : Q) : deque :=
  let l := items d ++ [x] in
  {| maxlen := maxlen d; items := drop (length l - maxlen d) l |}.

(** ** [sorted] *)

Fixpoint sorted_insert (x : Q) (l : list Q) : list Q :=
  match l with
  | [] => [x]
  | y :: l' => if Qle_bool x y then x :: y :: l' else y :: sorted_insert x l'
  end.

Fixpoint sorted (l : list Q) : list Q :=
  match l with
  | [] => []
  | x :: l' => sorted_insert x (sorted l')
  end.

(** ** Median smoothing over a history of deques

    The body shared by [VitalSmoother.smooth] and [apply_smoothing]. *)

Definition smooth_item (h : gmap string deque) (smoothed : dict Q)
    (key : string) (value : Q) : result (gmap string deque * dict Q) :=
  match h !! key with
  | None => Raise (KeyError key)
  | Some d =>
      let d' := deque_append d value in
      let h' := <[key := d']> h in
      if 3 <=? length (items d') then
        let values := sorted (items d') in
        match values !! (length values / 2) with
        | Some m => Ok (h', dict_set smoothed key m)
        | None => Raise IndexError
        end
      else Ok (h', dict_set smoothed key value)
  end.

Fixpoint smooth_items (h : gmap string deque) (smoothed : dict Q)
    (vitals : dict Q) : result (gmap string deque * dict Q) :=
  match vitals with
  | [] => Ok (h, smoothed)
  | (key, value) :: rest =>
      try st := smooth_item h smoothed key value in
      smooth_items (fst st) (snd st) rest
  end.

(** ** Range validation shared by the extractors *)

Definition in_range (r : Q * Q) (v : Q) : bool :=
  Qle_bool (fst r) v && Qle_bool v (snd r).

(** The inner loop over the patterns of one vital kind: the first pattern
    whose capture parses and lies in range decides; a capture out of range
    or unparsable moves on to the next pattern. *)
Fixpoint scan_patterns (range : option (Q * Q)) (patterns : list Re.regex)
    (txt : list ascii) : result (option Q) :=
  match patterns with
  | [] => Ok None
  | p :: rest =>
      match Re.search p txt with
      | None => scan_patterns range rest txt
      | Some m =>
          match Re.group1 m with
          | None => Raise TypeError
          | Some g =>
              match py_float g with
              | None => scan_patterns range rest txt
              | Some value =>
                  match range with
                  | None => Raise (KeyError "")
                  | Some r =>
                      if in_range r value then Ok (Some value)
                      else scan_patterns range rest txt
                  end
              end
          end
      end
  end.

Fixpoint scan_kinds (ranges : dict (Q * Q)) (kinds : dict (list Re.regex))
    (txt : list ascii) (vitals : dict Q) : result (dict Q) :=
  match kinds with
  | [] => Ok vitals
  | (vital_type, patterns) :: rest =>
      try found := scan_patterns (dict_get ranges vital_type) patterns txt in
      scan_kinds ranges rest txt
        (match found with
         | Some value => dict_set vitals vital_type value
         | None => vitals
         end)
  end.

(** What Tesseract does with a frame. *)
Inductive ocr_reply : Type :=
| OcrRaises (msg : string)
| OcrText (t : string).


(** ** Pieces of the payload shared by the three pruning [send_vitals] *)

(** ["k": int(vitals.get(k)) if vitals.get(k) else None] *)
Definition int_entry (vitals : dict Q) (k : string) : json :=
  match dict_get vitals k with
  | Some v => if truthy (Some v) then JInteger (py_int v) else JNone
  | None => JNone
  end.

(** ["k": round(vitals.get(k), 1) if vitals.get(k) else None] *)
Definition round_entry (vitals : dict Q) (k : string) : json :=
  match dict_get vitals k with
  | Some v => if truthy (Some v) then JNumber (py_round1 v) else JNone
  | None => JNone
  end.

(** [{k: v for k, v in d.items() if v is not None}] *)
Definition prune (d : list (string * json)) : list (string * json) :=
  List.filter (fun kv => negb (is_none (snd kv))) d.

Inductive mode : Type := SIM | OCR.

Definition mode_str (m : mode) : string :=
  match m with SIM => "SIM" | OCR => "OCR" end.

(** What one read of the video stream yields: a frame (given by what
    Tesseract makes of it), or nothing. *)
Inductive frame_read : Type :=
| NoFrame
| Frame (ocr : ocr_reply).

(** * [camera-connector-production.py] *)

Module Production.
Import Re.

Definition PATIENT_ID : Z := 1.
Definition CAMERA_ID : string := "camera-001".

Definition colon_or_space : cls := either (ci ":") space.

Definition PATTERNS : dict (list regex) :=
  [ ("hr",
      [ seqs [word "HR"; star colon_or_space; Grp (times digit 2 3)];
        seqs [Grp (times digit 2 3); star space; word "bpm"];
        Grp (seqs [Chr (ci "1"); Chr (range "0" "8"); Chr digit]) ]);
    ("spo2",
      [ seqs [word "SpO2"; star colon_or_space; Grp (times digit 2 3)];
        seqs [Grp (times digit 2 3); star space; Chr (ci "%")];
        Grp (Alt (seqs [Chr (ci "9"); Chr (range "0" "9")]) (word "100")) ]);
    ("rr",
      [ seqs [word "RR"; star colon_or_space; Grp (times digit 1 3)];
        Grp (seqs [Chr (range "3" "7"); Chr digit]) ]);
    ("temp",
      [ seqs [word "Temp"; star colon_or_space;
              Grp (seqs [times digit 2 2; opt (ci "."); opt digit])];
        Grp (seqs [Chr (ci "3"); Chr (range "5" "8"); Chr (ci "."); Chr digit]) ]) ].

Definition VALID_RANGES : dict (Q * Q) :=
  [ ("hr", (80, 200)); ("spo2", (85, 100)); ("rr", (20, 80)); ("temp", (35.0, 39.0)) ]%Q.

(** [extract_vitals(frame)]: vitals, confidence and a snippet of the text. *)
Definition extract_vitals (frame : ocr_reply) : dict Q * Q * string :=
  match frame with
  | OcrRaises msg => ([], 0.0%Q, slice 50 msg)
  | OcrText t =>
      let txt := newlines_to_spaces (upper (chars t)) in
      match scan_kinds VALID_RANGES PATTERNS txt [] with
      | Ok vitals =>
          (vitals, if 2 <=? length vitals then 0.88%Q else 0.0%Q, text (take 50 txt))
      | Raise e => ([], 0.0%Q, slice 50 (exn_str e))
      end
  end.

(** The four raw draws of [generate_simulation_vitals]. *)
Record sim_draws : Type := { raw_hr : Z; raw_spo2 : Z; raw_rr : Z; raw_temp : Z }.

Definition generate_simulation_vitals (r : sim_draws) : dict Q :=
  [ ("hr", inject_Z (140 + randint (-15) 15 (raw_hr r)));
    ("spo2", inject_Z (Z.min 100 (Z.max 88 (96 + randint (-4) 3 (raw_spo2 r)))));
    ("rr", inject_Z (45 + randint (-8) 8 (raw_rr r)));
    ("temp", py_round1 (36.8 + uniform (-0.4) 0.4 (raw_temp r))%Q) ].

Record VitalSmoother : Type := {
  window_size : nat;
  history : gmap string deque
}.

(** [VitalSmoother.__init__(window_size)] *)
Definition VitalSmoother_init (window_size : nat) : VitalSmoother :=
  {| window_size := window_size;
     history := list_to_map (map (fun k => (k, deque_new window_size)) (dict_keys VALID_RANGES)) |}.

(** [VitalSmoother()] *)
Definition VitalSmoother_default : VitalSmoother := VitalSmoother_init 5.

(** [VitalSmoother.smooth(vitals)] *)
Definition smooth (self : VitalSmoother) (vitals : dict Q) : result (VitalSmoother * dict Q) :=
  try st := smooth_items (history self) [] vitals in
  Ok ({| window_size := window_size self; history := fst st |}, snd st).

Definition payload (vitals : dict Q) (confidence : Q) (metadata : list (string * json))
    (raw_inference : Z) (now : string) : json :=
  JDict
    [ ("patientId", JInteger PATIENT_ID);
      ("cameraId", JText CAMERA_ID);
      ("vitals", JDict (prune
         [ ("hr", int_entry vitals "hr");
           ("spo2", int_entry vitals "spo2");
           ("rr", int_entry vitals "rr");
           ("temp", round_entry vitals "temp") ]));
      ("confidence", JNumber confidence);
      ("inferenceTimeMs", JInteger (randint 50 150 raw_inference));
      ("timestamp", JText now);
      ("metadata", JDict metadata) ].

(** [send_vitals(vitals, confidence, metadata)] *)
Definition send_vitals (net : network) (vitals : dict Q) (confidence : Q)
    (metadata : list (string * json)) (raw_inference : Z) (now : string)
    : network * json :=
  let '(net', reply) := requests_post net (payload vitals confidence metadata raw_inference now) in
  match reply with
  | HttpJson body => (net', JDict body)
  | HttpOther value => (net', value)
  | HttpRaises msg => (net', JDict [("error", JText msg)])
  end.

(** The state the loop of [main] carries from one iteration to the next. *)
Record loop_state : Type := {
  connected : bool;
  smoother : VitalSmoother;
  total_sent : nat;
  ocr_success : nat;
  net : network
}.

(** What one iteration reads from outside; [drop_rate] is the rounded drop
    rate of [get_stats()]. *)
Record tick_input : Type := {
  read : frame_read;
  latency : Q;
  drop_rate : Q;
  sim : sim_draws;
  raw_confidence : Z;
  raw_inference : Z;
  now : string
}.

(** What one iteration displays. *)
Record tick_output : Type := {
  out_mode : mode;
  out_vitals : dict Q;
  out_confidence : Q;
  out_result : json
}.

(** The OCR attempt of one iteration. *)
Definition attempt_ocr (st : loop_state) (i : tick_input)
    : result (VitalSmoother * nat * dict Q * Q * mode) :=
  let skip := Ok (smoother st, ocr_success st, [], 0.0%Q, SIM) in
  if connected st then
    match read i with
    | Frame f =>
        let '(ocr_vitals, ocr_conf, _) := extract_vitals f in
        if 2 <=? length ocr_vitals then
          try s := smooth (smoother st) ocr_vitals in
          Ok (fst s, S (ocr_success st), snd s, ocr_conf, OCR)
        else skip
    | NoFrame => skip
    end
  else skip.

(** The metadata of the reading of one iteration. *)
Definition tick_metadata (st : loop_state) (i : tick_input) (md : mode) : list (string * json) :=
  [ ("source", JText "pi-zero-2w"); ("mode", JText (mode_str md)) ]
  ++ (if connected st
      then [ ("latency_ms", JNumber (py_round1 (latency i)));
             ("drop_rate", JNumber (drop_rate i)) ]
      else []).

(** The fallback to simulation of one iteration. *)
Definition fall_back (i : tick_input) (a : VitalSmoother * nat * dict Q * Q * mode)
    : result (VitalSmoother * nat * dict Q * Q * mode) :=
  let '(sm, ocr_n, vitals, confidence, md) := a in
  if length vitals <? 2 then
    try s := smooth sm (generate_simulation_vitals (sim i)) in
    Ok (fst s, ocr_n, snd s, (0.87 + uniform 0 0.10 (raw_confidence i))%Q, SIM)
  else Ok a.

(** One iteration of the [while True] loop of [main], up to the display of
    the result. *)
Definition tick (st : loop_state) (i : tick_input) : result (loop_state * tick_output) :=
  try a := attempt_ocr st i in
  try b := fall_back i a in
  let '(sm', ocr_n, vitals', confidence', md') := b in
  let '(net', res) :=
    send_vitals (net st) vitals' confidence' (tick_metadata st i md') (raw_inference i) (now i) in
  Ok ({| connected := connected st; smoother := sm';
         total_sent := S (total_sent st); ocr_success := ocr_n; net := net' |},
      {| out_mode := md'; out_vitals := vitals'; out_confidence := confidence';
         out_result := res |}).

(** The state at the first iteration. *)
Definition start (is_connected : bool) (n : network) : loop_state :=
  {| connected := is_connected; smoother := VitalSmoother_default;
     total_sent := 0; ocr_success := 0; net := n |}.

(** The iterations of the loop over a list of inputs, without the display
    of the results, with the reading of each iteration. *)
Fixpoint run_loop (st : loop_state) (inputs : list tick_input)
    : result (loop_state * list tick_output) :=
  match inputs with
  | [] => Ok (st, [])
  | i :: rest =>
      try a := tick st i in
      try b := run_loop (fst a) rest in
      Ok (fst b, snd a :: snd b)
  end.

End Production.


(** * [camera-to-dashboard-ocr.py] *)

Module OcrConnector.
Import Re.

Definition PATIENT_ID : Z := 1.
Definition CAMERA_ID : string := "camera-001".
Definition SMOOTHING_WINDOW : nat := 5.

Definition colon_or_space : cls := either (ci ":") space.
Definition degree_or_c : cls := either (fun c => code c =? 176) (ci "C").

Definition PATTERNS : dict (list regex) :=
  [ ("hr",
      [ seqs [word "HR"; star colon_or_space; Grp (times digit 2 3)];
        seqs [Alt (word "Heart") (word "Pulse"); star colon_or_space; Grp (times digit 2 3)];
        seqs [NotBehind digit; Grp (times digit 2 3); star space; word "bpm"];
        seqs [NotBehind digit;
              Grp (Alt (seqs [Chr (ci "1"); Chr (range "0" "2"); Chr digit])
                       (seqs [Chr (ci "1"); Chr (range "3" "8"); Chr digit]));
              NotAhead digit] ]);
    ("spo2",
      [ seqs [word "SpO2"; star colon_or_space; Grp (times digit 2 3)];
        seqs [Alt (word "SAT") (word "O2"); star colon_or_space; Grp (times digit 2 3)];
        seqs [Grp (times digit 2 3); star space; Chr (ci "%")];
        seqs [NotBehind digit;
              Grp (Alt (seqs [Chr (ci "9"); Chr (range "0" "9")]) (word "100"));
              NotAhead digit] ]);
    ("rr",
      [ seqs [word "RR"; star colon_or_space; Grp (times digit 1 3)];
        seqs [Alt (word "Resp") (word "RESP"); star colon_or_space; Grp (times digit 1 3)];
        seqs [NotBehind digit; Grp (seqs [Chr (range "3" "7"); Chr digit]); NotAhead digit] ]);
    ("temp",
      [ seqs [Alt (word "Temp") (word "TEMP"); star colon_or_space;
              Grp (seqs [times digit 2 2; opt (ci "."); opt digit])];
        seqs [Grp (seqs [times digit 2 2; Chr (ci "."); Chr digit]); star space; Chr degree_or_c];
        Grp (seqs [Chr (ci "3"); Chr (range "5" "8"); Chr (ci "."); Chr digit]) ]) ].

Definition VALID_RANGES : dict (Q * Q) :=
  [ ("hr", (80, 200)); ("spo2", (85, 100)); ("rr", (20, 80)); ("temp", (35.0, 39.0)) ]%Q.

(** The module-level [vital_history]. *)
Definition vital_history : gmap string deque :=
  <["hr" := deque_new SMOOTHING_WINDOW]>
    (<["spo2" := deque_new SMOOTHING_WINDOW]>
      (<["rr" := deque_new SMOOTHING_WINDOW]>
        (<["temp" := deque_new SMOOTHING_WINDOW]> ∅))).

(** The loop of [extract_vitals_from_text], which fills [vitals] and
    [confidence_scores] together. *)
Fixpoint scan_scores (kinds : dict (list regex)) (txt : list ascii)
    (vitals confidence_scores : dict Q) : result (dict Q * dict Q) :=
  match kinds with
  | [] => Ok (vitals, confidence_scores)
  | (vital_type, patterns) :: rest =>
      try found := scan_patterns (dict_get VALID_RANGES vital_type) patterns txt in
      match found with
      | Some value =>
          scan_scores rest txt (dict_set vitals vital_type value)
            (dict_set confidence_scores vital_type 0.85%Q)
      | None => scan_scores rest txt vitals confidence_scores
      end
  end.

(** [extract_vitals_from_text(text)] *)
Definition extract_vitals_from_text (t : list ascii) : result (dict Q * dict Q) :=
  scan_scores PATTERNS (newlines_to_spaces (upper t)) [] [].

(** [s.strip()] *)
Definition strip (s : list ascii) : list ascii :=
  let lstrip := fix go (l : list ascii) : list ascii :=
    match l with
    | c :: l' => if space c then go l' else l
    | [] => []
    end in
  reverse (lstrip (reverse (lstrip s))).

(** [extract_vitals_ocr(frame)]: the frame is given by what the two
    Tesseract passes make of it. *)
Definition extract_vitals_ocr (frame : ocr_reply * ocr_reply) : dict Q * dict Q * string :=
  match frame with
  | (OcrRaises msg, _) => ([], [], "OCR Error: " +:+ msg)
  | (OcrText _, OcrRaises msg) => ([], [], "OCR Error: " +:+ msg)
  | (OcrText t, OcrText text_inv) =>
      let combined_text := chars t ++ chars " " ++ chars text_inv in
      match extract_vitals_from_text combined_text with
      | Ok (vitals, confidence) => (vitals, confidence, text (take 100 (strip combined_text)))
      | Raise e => ([], [], "OCR Error: " +:+ exn_str e)
      end
  end.

(** [apply_smoothing(new_vitals)], on the global history. *)
Definition apply_smoothing (history : gmap string deque) (new_vitals : dict Q)
    : result (gmap string deque * dict Q) :=
  smooth_items history [] new_vitals.

Record sim_draws : Type := { raw_hr : Z; raw_spo2 : Z; raw_rr : Z; raw_temp : Z }.

Definition generate_simulation_vitals (r : sim_draws) : dict Q :=
  [ ("hr", inject_Z (140 + randint (-15) 15 (raw_hr r)));
    ("spo2", inject_Z (Z.min 100 (Z.max 88 (96 + randint (-4) 3 (raw_spo2 r)))));
    ("rr", inject_Z (45 + randint (-8) 8 (raw_rr r)));
    ("temp", py_round1 (36.8 + uniform (-0.4) 0.4 (raw_temp r))%Q) ].

Definition payload (vitals : dict Q) (confidence : Q) (ocr_text : string)
    (raw_inference : Z) (now : string) : json :=
  JDict
    [ ("patientId", JInteger PATIENT_ID);
      ("cameraId", JText CAMERA_ID);
      ("vitals", JDict (prune
         [ ("hr", int_entry vitals "hr");
           ("spo2", int_entry vitals "spo2");
           ("rr", int_entry vitals "rr");
           ("temp", round_entry vitals "temp") ]));
      ("confidence", JNumber confidence);
      ("inferenceTimeMs", JInteger (randint 80 250 raw_inference));
      ("timestamp", JText now);
      ("metadata", JDict [ ("ocrText", JText (slice 200 ocr_text));
                           ("source", JText "mac-ocr-processor") ]) ].

(** [send_vitals(vitals, confidence, ocr_text)] *)
Definition send_vitals (net : network) (vitals : dict Q) (confidence : Q)
    (ocr_text : string) (raw_inference : Z) (now : string) : network * json :=
  let '(net', reply) := requests_post net (payload vitals confidence ocr_text raw_inference now) in
  match reply with
  | HttpJson body => (net', JDict body)
  | HttpOther value => (net', value)
  | HttpRaises msg => (net', JDict [("error", JText msg)])
  end.

(** [sum(d.values()) / len(d)] *)
Definition mean (d : dict Q) : Q :=
  (fold_left Qplus (map snd d) 0 / inject_Z (Z.of_nat (length d)))%Q.

Record loop_state : Type := {
  stream_connected : bool;
  history : gmap string deque;
  ocr_success_count : nat;
  sim_count : nat;
  total_count : nat;
  net : network
}.

Record tick_input : Type := {
  read : option (ocr_reply * ocr_reply);
  sim : sim_draws;
  raw_confidence : Z;
  raw_inference : Z;
  now : string
}.

Record tick_output : Type := {
  out_mode : mode;
  out_vitals : dict Q;
  out_confidence : Q;
  out_result : json
}.

Definition attempt_ocr (st : loop_state) (i : tick_input)
    : result (gmap string deque * nat * dict Q * Q * mode * string) :=
  let skip := Ok (history st, ocr_success_count st, [], 0.0%Q, SIM, ""%string) in
  if stream_connected st then
    match read i with
    | Some frame =>
        let '(ocr_vitals, ocr_conf, ocr_text) := extract_vitals_ocr frame in
        if 2 <=? length ocr_vitals then
          try s := apply_smoothing (history st) ocr_vitals in
          Ok (fst s, S (ocr_success_count st), snd s,
              match ocr_conf with [] => 0.85%Q | _ => mean ocr_conf end, OCR, ocr_text)
        else Ok (history st, ocr_success_count st, [], 0.0%Q, SIM, ocr_text)
    | None => skip
    end
  else skip.

(** One iteration of the [while True] loop of [main], up to the display of
    the result. *)
Definition tick (st : loop_state) (i : tick_input) : result (loop_state * tick_output) :=
  try a := attempt_ocr st i in
  let '(h, ocr_n, vitals, confidence, md, ocr_text) := a in
  let '(vitals', confidence', md', sim_n) :=
    if length vitals <? 2
    then (generate_simulation_vitals (sim i),
          (0.86 + uniform 0 0.10 (raw_confidence i))%Q, SIM, S (sim_count st))
    else (vitals, confidence, md, sim_count st) in
  let '(net', res) :=
    send_vitals (net st) vitals' confidence' ocr_text (raw_inference i) (now i) in
  Ok ({| stream_connected := stream_connected st; history := h;
         ocr_success_count := ocr_n; sim_count := sim_n;
         total_count := S (total_count st); net := net' |},
      {| out_mode := md'; out_vitals := vitals'; out_confidence := confidence';
         out_result := res |}).

Definition start (is_connected : bool) (n : network) : loop_state :=
  {| stream_connected := is_connected; history := vital_history;
     ocr_success_count := 0; sim_count := 0; total_count := 0; net := n |}.

End OcrConnector.


(** * [vlm-vitals-extractor.py] *)

Module Vlm.
Import Re.

Definition PATIENT_ID : Z := 1.
Definition CAMERA_ID : string := "camera-vlm-001".

Definition VALID_RANGES : dict (Q * Q) :=
  [ ("hr", (60, 220)); ("spo2", (70, 100)); ("rr", (15, 100));
    ("temp", (34.0, 40.0)); ("bp_sys", (40, 120)); ("bp_dia", (20, 80)) ]%Q.

(** A float as [float(...)] can return it. *)
Inductive pyfloat : Type :=
| Finite (q : Q)
| NaN
| PosInf
| NegInf.

(** [min_val <= value <= max_val] *)
Definition float_in_range (r : Q * Q) (value : pyfloat) : option Q :=
  match value with
  | Finite q => if in_range r q then Some q else None
  | _ => None
  end.

(** One entry [data[key]] of the decoded object, by what [float(data[key])]
    makes of it: [float] returns a value for a JSON number, for a boolean
    and for a string it can parse, such as ["150"]. *)
Inductive jfield : Type :=
| FNull                       (* [data[key] is None] *)
| FFloat (value : pyfloat)    (* [float] returns [value] *)
| FBad                        (* [float] raises ValueError or TypeError *)
| FOverflow.                  (* [float] raises OverflowError *)

(** [json.loads] on the text between the braces. *)
Inductive json_reply : Type :=
| JSONDecodeError
| JsonRaises (msg : string)
| JsonObject (data : dict jfield).

Definition colon_or_space : cls := either (ci ":") space.

(** [r'\{[^{}]*\}'] *)
Definition braces : regex :=
  seqs [Chr (ci "{"); star (neither (ci "{") (ci "}")); Chr (ci "}")].

(** The patterns of the fallback. *)
Definition patterns : dict regex :=
  [ ("hr", seqs [Alt (word "hr") (seqs [word "heart"; star space; word "rate"]);
                 star colon_or_space; Grp (times digit 2 3)]);
    ("spo2", seqs [Alt (word "spo2") (Alt (word "oxygen") (word "sat"));
                   star colon_or_space; Grp (times digit 2 3)]);
    ("rr", seqs [Alt (word "rr") (word "resp"); star colon_or_space; Grp (times digit 1 3)]);
    ("temp", seqs [word "temp"; star colon_or_space;
                   Grp (seqs [times digit 2 2; opt (ci "."); opt digit])]) ].

Definition no_vitals : dict (option Q) :=
  [ ("hr", None); ("spo2", None); ("rr", None); ("temp", None);
    ("bp_sys", None); ("bp_dia", None) ].

(** The loop over the keys when the object decodes. *)
Fixpoint read_fields (data : dict jfield) (keys : list string)
    (vitals : dict (option Q)) : result (dict (option Q)) :=
  match keys with
  | [] => Ok vitals
  | key :: rest =>
      match dict_get data key with
      | None | Some FNull => read_fields data rest vitals
      | Some FBad => read_fields data rest vitals
      | Some FOverflow => Raise OverflowError
      | Some (FFloat value) =>
          match dict_get VALID_RANGES key with
          | Some r =>
              match float_in_range r value with
              | Some q => read_fields data rest (dict_set vitals key (Some q))
              | None => read_fields data rest vitals
              end
          | None => read_fields data rest vitals
          end
      end
  end.

(** The loop of the fallback, run when the object does not decode. *)
Fixpoint read_patterns (ps : dict regex) (response_text : list ascii)
    (vitals : dict (option Q)) : result (dict (option Q)) :=
  match ps with
  | [] => Ok vitals
  | (key, pattern) :: rest =>
      match search pattern response_text with
      | None => read_patterns rest response_text vitals
      | Some m =>
          match group1 m with
          | None => Raise TypeError
          | Some g =>
              match py_float g with
              | None => read_patterns rest response_text vitals
              | Some value =>
                  match dict_get VALID_RANGES key with
                  | None => Raise (KeyError key)
                  | Some r =>
                      read_patterns rest response_text
                        (if in_range r value then dict_set vitals key (Some value) else vitals)
                  end
              end
          end
      end
  end.

(** [parse_vitals_response(response_text)]; [loads] is what [json.loads]
    makes of the first brace-delimited part of the text, if there is one. *)
Definition parse_vitals_response (response_text : string) (loads : json_reply)
    : result (dict (option Q)) :=
  match search braces (chars response_text) with
  | None => Ok no_vitals
  | Some _ =>
      match loads with
      | JsonObject data => read_fields data (dict_keys no_vitals) no_vitals
      | JSONDecodeError => read_patterns patterns (chars response_text) no_vitals
      | JsonRaises msg => Raise (OtherError msg)
      end
  end.

(** What the model does with a frame. *)
Inductive vlm_reply : Type :=
| VlmRaises (msg : string)
| VlmAnswer (response_text : string) (loads : json_reply).

Definition valid_count (vitals : dict (option Q)) : nat :=
  length (List.filter (fun kv => match snd kv with Some _ => true | None => false end) vitals).

(** [extract_vitals_vlm(frame)]: vitals, confidence, inference time and
    the text of the answer. *)
Definition extract_vitals_vlm (frame : vlm_reply) (elapsed_ms : Q)
    : dict (option Q) * Q * Q * string :=
  match frame with
  | VlmRaises msg => ([], 0.0%Q, 0%Q, "VLM Error: " +:+ msg)
  | VlmAnswer response_text loads =>
      match parse_vitals_response response_text loads with
      | Ok vitals =>
          (vitals,
           py_min 0.95 (0.5 + inject_Z (Z.of_nat (valid_count vitals)) * 0.1)%Q,
           elapsed_ms, response_text)
      | Raise e => ([], 0.0%Q, 0%Q, "VLM Error: " +:+ exn_str e)
      end
  end.

(** [vitals.get(k)], where a stored [None] reads like a missing key. *)
Definition get (vitals : dict (option Q)) (k : string) : option Q :=
  match dict_get vitals k with
  | Some (Some v) => Some v
  | _ => None
  end.

Definition int_entry (vitals : dict (option Q)) (k : string) : json :=
  match get vitals k with
  | Some v => if truthy (Some v) then JInteger (py_int v) else JNone
  | None => JNone
  end.

Definition round_entry (vitals : dict (option Q)) (k : string) : json :=
  match get vitals k with
  | Some v => if truthy (Some v) then JNumber (py_round1 v) else JNone
  | None => JNone
  end.

Definition meta_entry (vitals : dict (option Q)) (k : string) : json :=
  match get vitals k with
  | Some v => JNumber v
  | None => JNone
  end.

Definition payload_vitals (vitals : dict (option Q)) : list (string * json) :=
  prune [ ("hr", int_entry vitals "hr");
          ("spo2", int_entry vitals "spo2");
          ("rr", int_entry vitals "rr");
          ("temp", round_entry vitals "temp") ].

Definition payload (vitals : dict (option Q)) (confidence inference_time : Q)
    (vlm_response : string) (now : string) : json :=
  JDict
    [ ("patientId", JInteger PATIENT_ID);
      ("cameraId", JText CAMERA_ID);
      ("vitals", JDict (payload_vitals vitals));
      ("confidence", JNumber confidence);
      ("inferenceTimeMs", JInteger (py_int inference_time));
      ("timestamp", JText now);
      ("metadata", JDict [ ("source", JText "moondream-vlm");
                           ("vlm_response", JText (slice 500 vlm_response));
                           ("bp_sys", meta_entry vitals "bp_sys");
                           ("bp_dia", meta_entry vitals "bp_dia") ]) ].

(** [send_vitals(vitals, confidence, inference_time, vlm_response)] *)
Definition send_vitals (net : network) (vitals : dict (option Q))
    (confidence inference_time : Q) (vlm_response : string) (now : string)
    : network * json :=
  match payload_vitals vitals with
  | [] => (net, JDict [("error", JText "No vitals extracted")])
  | _ =>
      let '(net', reply) :=
        requests_post net (payload vitals confidence inference_time vlm_response now) in
      match reply with
      | HttpJson body => (net', JDict body)
      | HttpOther value => (net', value)
      | HttpRaises msg => (net', JDict [("error", JText msg)])
      end
  end.

Record loop_state : Type := {
  stream_connected : bool;
  total_queries : nat;
  successful_extractions : nat;
  net : network
}.

Record tick_input : Type := {
  read : option vlm_reply;
  elapsed_ms : Q;
  now : string
}.

(** [any(v is not None for v in vitals.values())] *)
Definition any_vital (vitals : dict (option Q)) : bool :=
  existsb (fun kv => match snd kv with Some _ => true | None => false end) vitals.

(** One iteration of the [while True] loop of [main], up to the display of
    the result; the result is [None] when no frame is available. *)
Definition tick (st : loop_state) (i : tick_input)
    : loop_state * option (dict (option Q) * Q * json) :=
  match (if stream_connected st then read i else None) with
  | Some frame =>
      let '(vitals, confidence, inference_time, vlm_response) :=
        extract_vitals_vlm frame (elapsed_ms i) in
      if any_vital vitals then
        let '(net', res) :=
          send_vitals (net st) vitals confidence inference_time vlm_response (now i) in
        ({| stream_connected := stream_connected st;
            total_queries := S (total_queries st);
            successful_extractions := S (successful_extractions st);
            net := net' |},
         Some (vitals, confidence, res))
      else
        ({| stream_connected := stream_connected st;
            total_queries := S (total_queries st);
            successful_extractions := successful_extractions st;
            net := net st |},
         Some (vitals, confidence, JDict [("error", JText "No vitals detected in image")]))
  | None => (st, None)
  end.

End Vlm.

(** * [camera-to-dashboard.py] *)

Module Mock.

Definition PATIENT_ID : Z := 1.
Definition CAMERA_ID : string := "camera-001".

Record mock_draws : Type := { raw_hr : Z; raw_spo2 : Z; raw_rr : Z; raw_temp : Z }.

(** [generate_mock_vitals()], around [BASELINE]. *)
Definition generate_mock_vitals (r : mock_draws) : list (string * json) :=
  [ ("hr", JInteger (140 + randint (-10) 10 (raw_hr r)));
    ("spo2", JInteger (Z.min 100 (Z.max 88 (96 + randint (-3) 2 (raw_spo2 r)))));
    ("rr", JInteger (45 + randint (-5) 5 (raw_rr r)));
    ("temp", JNumber (py_round1 (36.8 + uniform (-0.3) 0.3 (raw_temp r))%Q)) ].

Definition payload (vitals : list (string * json)) (confidence : Q)
    (raw_inference : Z) (now : string) : json :=
  JDict
    [ ("patientId", JInteger PATIENT_ID);
      ("cameraId", JText CAMERA_ID);
      ("vitals", JDict vitals);
      ("confidence", JNumber confidence);
      ("inferenceTimeMs", JInteger (randint 100 200 raw_inference));
      ("timestamp", JText now) ].

(** [send_vitals(vitals, confidence)] *)
Definition send_vitals (net : network) (vitals : list (string * json)) (confidence : Q)
    (raw_inference : Z) (now : string) : network * json :=
  let '(net', reply) := requests_post net (payload vitals confidence raw_inference now) in
  match reply with
  | HttpJson body => (net', JDict body)
  | HttpOther value => (net', value)
  | HttpRaises msg => (net', JDict [("error", JText msg)])
  end.

Record tick_input : Type := {
  draws : mock_draws;
  raw_confidence : Z;
  raw_inference : Z;
  now : string
}.

(** The confidence of one iteration. *)
Definition confidence (i : tick_input) : Q := (0.85 + uniform 0 0.12 (raw_confidence i))%Q.

(** One iteration of the [while True] loop of [main], up to the display of
    the result: the network and the count of readings sent, and the result
    of the submission. *)
Definition tick (st : network * nat) (i : tick_input) : network * nat * json :=
  let '(net', res) :=
    send_vitals (fst st) (generate_mock_vitals (draws i)) (confidence i)
      (raw_inference i) (now i) in
  (net', S (snd st), res).

End Mock.


(** * [OptimizedStreamReader] and the start of [main] in
      [camera-connector-production.py] *)

Module OptimizedStreamReader.

Definition MAX_RECONNECT_ATTEMPTS : nat := 5.

(** The fields of the reader that its methods read and write; the capture
    handle is the library's and shows through the inputs of the methods. *)
Record reader : Type := {
  connected : bool;
  frame_count : nat;
  drop_count : nat;
  latencies : deque;
  last_frame_time : Q
}.

(** [OptimizedStreamReader(url)] *)
Definition init : reader :=
  {| connected := false; frame_count := 0; drop_count := 0;
     latencies := deque_new 100; last_frame_time := 0%Q |}.

(** [connect()]; [opened] is what [cap.isOpened()] answers. *)
Definition connect (self : reader) (opened : bool) : reader * bool :=
  if opened then
    ({| connected := true; frame_count := frame_count self;
        drop_count := drop_count self; latencies := latencies self;
        last_frame_time := last_frame_time self |}, true)
  else (self, false).

(** What the clock and the capture handle give during one [get_frame]:
    [time.time()] before the grab, whether [grab()] succeeds, what
    [retrieve()] returns, [time.time()] after them, and [time.time()] once
    more when the frame is kept. *)
Record capture : Type := {
  t_start : Q;
  grabbed : bool;
  retrieved : bool * option ocr_reply;
  t_end : Q;
  t_kept : Q
}.

(** [get_frame()]: the frame, if any, and the latency in milliseconds. *)
Definition get_frame (self : reader) (c : capture) : reader * (option ocr_reply * Q) :=
  if connected self then
    let latency_ms := ((t_end c - t_start c) * 1000)%Q in
    match (if grabbed c then retrieved c else (false, None)) with
    | (true, Some frame) =>
        ({| connected := connected self;
            frame_count := S (frame_count self);
            drop_count := drop_count self;
            latencies := deque_append (latencies self) latency_ms;
            last_frame_time := t_kept c |},
         (Some frame, latency_ms))
    | _ =>
        ({| connected := connected self;
            frame_count := frame_count self;
            drop_count := S (drop_count self);
            latencies := latencies self;
            last_frame_time := last_frame_time self |},
         (None, latency_ms))
    end
  else (self, (None, 0%Q)).

(** [release()] *)
Definition release (self : reader) : reader :=
  {| connected := false; frame_count := frame_count self;
     drop_count := drop_count self; latencies := latencies self;
     last_frame_time := last_frame_time self |}.

(** The dictionary of [get_stats()], when it is not empty. *)
Record stats : Type := {
  frames : nat;
  drops : nat;
  drop_rate : Q;
  latency_avg : Q;
  latency_max : Q;
  latency_p95 : Q
}.

(** [max(lats)] on a list with head [x]. *)
Definition py_max (x : Q) (l : list Q) : Q :=
  fold_left (fun m y => if Qlt_le_dec m y then y else m) l x.

(** [sum(lats)] *)
Definition py_sum (l : list Q) : Q := fold_left Qplus l 0%Q.

(** [get_stats()]: [Ok None] is the empty dictionary. *)
Definition get_stats (self : reader) : result (option stats) :=
  match items (latencies self) with
  | [] => Ok None
  | x :: rest =>
      let lats := x :: rest in
      let n := length lats in
      try p95 :=
        (if 20 <=? n then
           match sorted lats !! Z.to_nat (py_int (inject_Z (Z.of_nat n) * 0.95)%Q) with
           | Some v => Ok v
           | None => Raise IndexError
           end
         else Ok (py_max x rest)) in
      Ok (Some
        {| frames := frame_count self;
           drops := drop_count self;
           drop_rate :=
             (inject_Z (Z.of_nat (drop_count self))
              / inject_Z (Z.of_nat (Nat.max 1 (frame_count self + drop_count self)))
              * 100)%Q;
           latency_avg := (py_sum lats / inject_Z (Z.of_nat n))%Q;
           latency_max := py_max x rest;
           latency_p95 := p95 |})
  end.

(** [stats.get('drop_rate', 0)], as [main] reads it for the metadata. *)
Definition reported_drop_rate (self : reader) : result Q :=
  try st := get_stats self in
  Ok (match st with Some v => drop_rate v | None => 0%Q end).

(** The loop of [main] that connects at the start: [opens n] is what the
    n-th call of [connect()] finds.  [fuel] bounds the iterations of the
    [while]; the result is the reader and [reconnect_attempts]. *)
Fixpoint connect_with_retries (fuel : nat) (stream : reader) (reconnect_attempts : nat)
    (opens : nat -> bool) : reader * nat :=
  match fuel with
  | 0 => (stream, reconnect_attempts)
  | S fuel' =>
      if reconnect_attempts <? MAX_RECONNECT_ATTEMPTS then
        let '(stream', ok) := connect stream (opens reconnect_attempts) in
        if ok then (stream', reconnect_attempts)
        else connect_with_retries fuel' stream' (S reconnect_attempts) opens
      else (stream, reconnect_attempts)
  end.

(** The part of one iteration of [main] that deals with the stream: read a
    frame when connected, and call [connect()] again when there is no frame
    and the last one is more than 5 seconds old at [t_now]. *)
Definition acquire (stream : reader) (c : capture) (t_now : Q) (reopened : bool)
    : reader * frame_read * Q :=
  if connected stream then
    let '(stream', (frame, latency)) := get_frame stream c in
    match frame with
    | Some f => (stream', Frame f, latency)
    | None =>
        if Qlt_le_dec 5 (t_now - last_frame_time stream')
        then (fst (connect stream' reopened), NoFrame, latency)
        else (stream', NoFrame, latency)
    end
  else (stream, NoFrame, 0%Q).

(** What [main] prints about the stream when it is interrupted: the frames,
    the drop rate and the average latency of [get_stats()], read by
    subscript, when the stream is connected. *)
Definition interrupt_report (stream : reader) : result (option (nat * Q * Q)) :=
  if connected stream then
    try st := get_stats stream in
    match st with
    | Some v => Ok (Some (frames v, drop_rate v, latency_avg v))
    | None => Raise (KeyError "frames")
    end
  else Ok None.

End OptimizedStreamReader.

(** * Runs of the other loops *)

(** The iterations of the loop of the OCR connector over a list of inputs,
    without the display of the results. *)
Fixpoint ocr_run_loop (st : OcrConnector.loop_state) (inputs : list OcrConnector.tick_input)
    : result (OcrConnector.loop_state * list OcrConnector.tick_output) :=
  match inputs with
  | [] => Ok (st, [])
  | i :: rest =>
      try a := OcrConnector.tick st i in
      try b := ocr_run_loop (fst a) rest in
      Ok (fst b, snd a :: snd b)
  end.

(** The iterations of the loop of the VLM extractor, without the display of
    the results. *)
Fixpoint vlm_run_loop (st : Vlm.loop_state) (inputs : list Vlm.tick_input) : Vlm.loop_state :=
  match inputs with
  | [] => st
  | i :: rest => vlm_run_loop (fst (Vlm.tick st i)) rest
  end.

(** * The loops with their display

    After the submission every [main] reads the result with
    [result.get(...)], which raises [AttributeError] when the endpoint
    answered with a value that is not an object.  The loops catch
    [KeyboardInterrupt] only, so the exception ends the run.  The runs above
    are the iterations without the display; the runs below stop where the
    code stops. *)

(** [type(res).__name__] *)
Definition type_name (res : json) : string :=
  match res with
  | JNone => "NoneType"
  | JBoolean _ => "bool"
  | JInteger _ => "int"
  | JNumber _ => "float"
  | JText _ => "str"
  | JList _ => "list"
  | JDict _ => "dict"
  end.

(** [result.get(...)] in the display of an iteration. *)
Definition display (res : json) : result unit :=
  match res with
  | JDict _ => Ok tt
  | _ => Raise (AttributeError (type_name res))
  end.

(** How a run ends: the inputs are used up, or an exception stops the loop,
    with the requests logged until then. *)
Inductive run_end (S : Type) : Type :=
| Finished (st : S)
| Stopped (e : exn) (net : network).
Arguments Finished {S} st.
Arguments Stopped {S} e net.

Section MainLoop.
Context {S I O : Type}.
Context (tick : S -> I -> result (S * O)) (net_of : S -> network).
Context (shown : O -> option json).

(** The iterations of a [while True] loop, each followed by its display:
    the outputs of the iterations run, and how the run ends. *)
Fixpoint main_loop (st : S) (inputs : list I) : list O * run_end S :=
  match inputs with
  | [] => ([], Finished st)
  | i :: rest =>
      match tick st i with
      | Raise e => ([], Stopped e (net_of st))
      | Ok (st', o) =>
          match (match shown o with Some res => display res | None => Ok tt end) with
          | Raise e => ([o], Stopped e (net_of st'))
          | Ok _ => (o :: fst (main_loop st' rest), snd (main_loop st' rest))
          end
      end
  end.

End MainLoop.

(** [main] of [camera-connector-production.py] *)
Definition production_main_loop
    : Production.loop_state -> list Production.tick_input
      -> list Production.tick_output * run_end Production.loop_state :=
  main_loop Production.tick Production.net (fun o => Some (Production.out_result o)).

(** [main] of [camera-to-dashboard-ocr.py] *)
Definition ocr_main_loop
    : OcrConnector.loop_state -> list OcrConnector.tick_input
      -> list OcrConnector.tick_output * run_end OcrConnector.loop_state :=
  main_loop OcrConnector.tick OcrConnector.net (fun o => Some (OcrConnector.out_result o)).

(** [main] of [vlm-vitals-extractor.py]: an iteration without a frame
    displays no result. *)
Definition vlm_main_loop
    : Vlm.loop_state -> list Vlm.tick_input
      -> list (option (dict (option Q) * Q * json)) * run_end Vlm.loop_state :=
  main_loop (fun st i => Ok (Vlm.tick st i)) Vlm.net
    (fun o => match o with Some (_, _, res) => Some res | None => None end).

(** [main] of [camera-to-dashboard.py] *)
Definition mock_main_loop
    : network * nat -> list Mock.tick_input -> list json * run_end (network * nat) :=
  main_loop (fun st i => Ok (Mock.tick st i)) fst Some.

(** * Vocabulary of the statements *)

(** How many items of [l] are at most, respectively at least, [m]. *)
Definition count_le (m : Q) (l : list Q) : nat :=
  length (List.filter (fun x => Qle_bool x m) l).
Definition count_ge (m : Q) (l : list Q) : nat :=
  length (List.filter (fun x => Qle_bool m x) l).

(** [m] is a median of [l]: an item of [l] with at least half of the items
    on either side of it. *)
Definition is_median (m : Q) (l : list Q) : Prop :=
  m ∈ l ∧ length l ≤ 2 * count_le m l ∧ length l ≤ 2 * count_ge m l.

(** The middle element of the sorted buffer. *)
Definition middle_of_sorted (l : list Q) : option Q :=
  sorted l !! (length l / 2).

(** What the smoother returns for a kind whose buffer is [d'] after the
    push of [value]: the middle element of the sorted buffer, a median, from
    3 samples on; the raw value below that. *)
Definition smoothed_value (d' : deque) (value m : Q) : Prop :=
  (3 ≤ length (items d') →
     middle_of_sorted (items d') = Some m ∧ is_median m (items d')) ∧
  (length (items d') < 3 → m = value).

(** [v] is what [float] makes of the capture of one of the patterns of kind
    [k] in the text: a value the extractor parsed for [k]. *)
Definition captured (patterns : dict (list Re.regex)) (txt : list ascii)
    (k : string) (v : Q) : Prop :=
  ∃ ps p m g, (k, ps) ∈ patterns ∧ p ∈ ps ∧ Re.search p txt = Some m ∧
              Re.group1 m = Some g ∧ py_float g = Some v.

(** The four vital kinds of the OCR connectors. *)
Definition KINDS : list string := ["hr"; "spo2"; "rr"; "temp"].

(** Every kind has a buffer, and every buffer has the window of 5 as its
    capacity and respects it. *)
Definition wf_history (h : gmap string deque) : Prop :=
  (∀ k, k ∈ KINDS → is_Some (h !! k)) ∧
  (∀ k d, h !! k = Some d → maxlen d = 5 ∧ length (items d) ≤ 5).

(** Every buffered value of a kind lies in the valid range of the kind. *)
Definition history_in_range (ranges : dict (Q * Q)) (h : gmap string deque) : Prop :=
  ∀ k d r, h !! k = Some d → dict_get ranges k = Some r →
    Forall (fun v => in_range r v = true) (items d).

(** Every value of a reading lies in the valid range of its kind. *)
Definition dict_in_range (ranges : dict (Q * Q)) (vitals : dict Q) : Prop :=
  ∀ k v, (k, v) ∈ vitals →
    ∃ r, dict_get ranges k = Some r ∧ in_range r v = true.

(** What the extractor yields in one iteration of the production loop:
    nothing without a connected stream or without a frame. *)
Definition production_extracted (st : Production.loop_state) (i : Production.tick_input)
    : dict Q :=
  if Production.connected st then
    match Production.read i with
    | Frame f => fst (fst (Production.extract_vitals f))
    | NoFrame => []
    end
  else [].

(** The same for the loop of the OCR connector. *)
Definition ocr_extracted (st : OcrConnector.loop_state) (i : OcrConnector.tick_input)
    : dict Q :=
  if OcrConnector.stream_connected st then
    match OcrConnector.read i with
    | Some f => fst (fst (OcrConnector.extract_vitals_ocr f))
    | None => []
    end
  else [].

(** What [send_vitals] returns for a reply of the endpoint. *)
Definition result_of (reply : http_reply) : json :=
  match reply with
  | HttpJson body => JDict body
  | HttpOther value => value
  | HttpRaises msg => JDict [("error", JText msg)]
  end.

(** One iteration of the production loop, spelled out: it returns, it posts
    exactly one body, and the reading it posts is either the smoothed OCR
    reading of at least 2 vitals with confidence 0.88, or, when the extractor
    yields fewer than 2 vitals, the smoothed simulated reading over the four
    kinds. *)
Definition production_tick_post (st : Production.loop_state) (i : Production.tick_input)
    (sm' : Production.VitalSmoother) (vitals : dict Q) (md : mode) (confidence : Q) : Prop :=
  Production.tick st i =
    Ok ({| Production.connected := Production.connected st;
           Production.smoother := sm';
           Production.total_sent := S (Production.total_sent st);
           Production.ocr_success :=
             match md with
             | OCR => S (Production.ocr_success st)
             | SIM => Production.ocr_success st
             end;
           Production.net :=
             {| reply_of := reply_of (Production.net st);
                posted := posted (Production.net st) ++
                  [Production.payload vitals confidence
                     (Production.tick_metadata st i md)
                     (Production.raw_inference i) (Production.now i)] |} |},
        {| Production.out_mode := md;
           Production.out_vitals := vitals;
           Production.out_confidence := confidence;
           Production.out_result :=
             result_of (reply_of (Production.net st)
                          (length (posted (Production.net st)))) |}) ∧
  wf_history (Production.history sm') ∧
  ((md = OCR ∧ 2 ≤ length (production_extracted st i) ∧
    Production.smooth (Production.smoother st) (production_extracted st i)
      = Ok (sm', vitals) ∧
    dict_keys vitals = dict_keys (production_extracted st i) ∧
    confidence = 0.88%Q) ∨
   (md = SIM ∧ length (production_extracted st i) < 2 ∧
    Production.smooth (Production.smoother st)
      (Production.generate_simulation_vitals (Production.sim i)) = Ok (sm', vitals) ∧
    dict_keys vitals = KINDS ∧
    confidence = (0.87 + uniform 0 0.10 (Production.raw_confidence i))%Q)).

(** The OCR text of one iteration of the loop of the OCR connector. *)
Definition ocr_text_of (st : OcrConnector.loop_state) (i : OcrConnector.tick_input)
    : string :=
  if OcrConnector.stream_connected st then
    match OcrConnector.read i with
    | Some f => snd (OcrConnector.extract_vitals_ocr f)
    | None => ""
    end
  else "".

(** One iteration of the loop of the OCR connector, spelled out: it returns,
    it posts exactly one body, and the reading it posts is either the
    smoothed OCR reading of at least 2 vitals, with the mean of the scores
    (all 0.85) as confidence, or, when the extractor yields fewer than 2
    vitals, the simulated reading over the four kinds, not smoothed. *)
Definition ocr_tick_post (st : OcrConnector.loop_state) (i : OcrConnector.tick_input)
    (h' : gmap string deque) (vitals : dict Q) (md : mode) (confidence : Q) : Prop :=
  OcrConnector.tick st i =
    Ok ({| OcrConnector.stream_connected := OcrConnector.stream_connected st;
           OcrConnector.history := h';
           OcrConnector.ocr_success_count :=
             match md with
             | OCR => S (OcrConnector.ocr_success_count st)
             | SIM => OcrConnector.ocr_success_count st
             end;
           OcrConnector.sim_count :=
             match md with
             | OCR => OcrConnector.sim_count st
             | SIM => S (OcrConnector.sim_count st)
             end;
           OcrConnector.total_count := S (OcrConnector.total_count st);
           OcrConnector.net :=
             {| reply_of := reply_of (OcrConnector.net st);
                posted := posted (OcrConnector.net st) ++
                  [OcrConnector.payload vitals confidence (ocr_text_of st i)
                     (OcrConnector.raw_inference i) (OcrConnector.now i)] |} |},
        {| OcrConnector.out_mode := md;
           OcrConnector.out_vitals := vitals;
           OcrConnector.out_confidence := confidence;
           OcrConnector.out_result :=
             result_of (reply_of (OcrConnector.net st)
                          (length (posted (OcrConnector.net st)))) |}) ∧
  wf_history h' ∧
  ((md = OCR ∧ 2 ≤ length (ocr_extracted st i) ∧
    OcrConnector.apply_smoothing (OcrConnector.history st) (ocr_extracted st i)
      = Ok (h', vitals) ∧
    dict_keys vitals = dict_keys (ocr_extracted st i) ∧
    (confidence == 0.85)%Q) ∨
   (md = SIM ∧ length (ocr_extracted st i) < 2 ∧
    h' = OcrConnector.history st ∧
    vitals = OcrConnector.generate_simulation_vitals (OcrConnector.sim i) ∧
    confidence = (0.86 + uniform 0 0.10 (OcrConnector.raw_confidence i))%Q)).

(** The production loop state with another endpoint behind it. *)
Definition production_with_replies (f : nat -> http_reply) (st : Production.loop_state)
    : Production.loop_state :=
  {| Production.connected := Production.connected st;
     Production.smoother := Production.smoother st;
     Production.total_sent := Production.total_sent st;
     Production.ocr_success := Production.ocr_success st;
     Production.net := {| reply_of := f; posted := posted (Production.net st) |} |}.

(** The same for the loop of the OCR connector. *)
Definition ocr_with_replies (f : nat -> http_reply) (st : OcrConnector.loop_state)
    : OcrConnector.loop_state :=
  {| OcrConnector.stream_connected := OcrConnector.stream_connected st;
     OcrConnector.history := OcrConnector.history st;
     OcrConnector.ocr_success_count := OcrConnector.ocr_success_count st;
     OcrConnector.sim_count := OcrConnector.sim_count st;
     OcrConnector.total_count := OcrConnector.total_count st;
     OcrConnector.net := {| reply_of := f; posted := posted (OcrConnector.net st) |} |}.

(** No entry of the object is an explicit null. *)
Definition no_null (vs : list (string * json)) : Prop :=
  Forall (fun kv => is_none (snd kv) = false) vs.


(** The heart rate [extract_vitals] reads from a frame. *)
Definition hr_of (frame : ocr_reply) : option Q :=
  dict_get (fst (fst (Production.extract_vitals frame))) "hr".

(** The frame shows [v] as its heart rate: whatever a heart-rate pattern
    captures in its text parses to [v]. *)
Definition hr_candidates_are (frame : ocr_reply) (v : Q) : Prop :=
  ∃ t, frame = OcrText t ∧
       ∀ x, captured Production.PATTERNS (newlines_to_spaces (upper (chars t))) "hr" x →
            x = v.

(** The smoother seen from one kind: a median filter over the samples of
    that kind alone, which a reading without the kind leaves untouched. *)
Definition push1 (d : deque) (v : Q) : deque * Q :=
  let d' := deque_append d v in
  (d', if 3 <=? length (items d') then default v (middle_of_sorted (items d')) else v).

Fixpoint track (d : deque) (samples : list (option Q)) : deque * list (option Q) :=
  match samples with
  | [] => (d, [])
  | None :: rest => let '(d', outs) := track d rest in (d', None :: outs)
  | Some v :: rest =>
      let '(d1, m) := push1 d v in
      let '(d', outs) := track d1 rest in (d', Some m :: outs)
  end.

(** The ["vitals"] object of a request body. *)
Definition body_vitals (body : json) : option (list (string * json)) :=
  match body with
  | JDict fields =>
      match dict_get fields "vitals" with
      | Some (JDict vs) => Some vs
      | _ => None
      end
  | _ => None
  end.

(** The ["mode"] of the metadata of a request body. *)
Definition body_mode (body : json) : option string :=
  match body with
  | JDict fields =>
      match dict_get fields "metadata" with
      | Some (JDict md) =>
          match dict_get md "mode" with
          | Some (JText s) => Some s
          | _ => None
          end
      | _ => None
      end
  | _ => None
  end.

(** [Production.smooth] over a sequence of readings. *)
Fixpoint smooth_all (self : Production.VitalSmoother) (readings : list (dict Q))
    : result (Production.VitalSmoother * list (dict Q)) :=
  match readings with
  | [] => Ok (self, [])
  | vitals :: rest =>
      try a := Production.smooth self vitals in
      try b := smooth_all (fst a) rest in
      Ok (fst b, snd a :: snd b)
  end.

(** Extraction followed by smoothing, frame after frame. *)
Definition extract_and_smooth (self : Production.VitalSmoother) (frames : list ocr_reply)
    : result (Production.VitalSmoother * list (dict Q)) :=
  smooth_all self (map (fun f => fst (fst (Production.extract_vitals f))) frames).

(** How many items of [l] lie between [a] and [b]. *)
Definition count_in (a b : Q) (l : list Q) : nat :=
  length (List.filter (fun x => Qle_bool a x && Qle_bool x b) l).

(** The last [n] items of a list. *)
Definition last_n {A} (n : nat) (l : list A) : list A := drop (length l - n) l.

(** The samples of kind [k] in a sequence of readings, in order. *)
Definition samples_of (k : string) (readings : list (dict Q)) : list Q :=
  omap (fun r => dict_get r k) readings.

(** A JSON number within a range. *)
Definition json_in_range (r : Q * Q) (j : json) : Prop :=
  match j with
  | JInteger z => in_range r (inject_Z z) = true
  | JNumber q => in_range r q = true
  | _ => False
  end.

(** A request body whose vitals object has at least 2 entries, each a number
    within the valid range of its kind. *)
Definition body_in_range (ranges : dict (Q * Q)) (body : json) : Prop :=
  ∃ vs, body_vitals body = Some vs ∧ 2 ≤ length vs ∧
        ∀ k j, (k, j) ∈ vs → ∃ r, dict_get ranges k = Some r ∧ json_in_range r j.

(** The six keys of the VLM extractor. *)
Definition VLM_KEYS : list string := ["hr"; "spo2"; "rr"; "temp"; "bp_sys"; "bp_dia"].

(** What the VLM extractor keeps of one entry of the decoded object: what
    [float] returns for it, when that is finite and within the range. *)
Definition kept_field (k : string) (f : option Vlm.jfield) : option Q :=
  match f, dict_get Vlm.VALID_RANGES k with
  | Some (Vlm.FFloat (Vlm.Finite q)), Some r => if in_range r q then Some q else None
  | _, _ => None
  end.

(** The latencies of the reader are the last 100 of the frames it kept. *)
Definition reader_inv (r : OptimizedStreamReader.reader) : Prop :=
  maxlen (OptimizedStreamReader.latencies r) = 100 ∧
  length (items (OptimizedStreamReader.latencies r))
    = Nat.min (OptimizedStreamReader.frame_count r) 100.

(** How many of the readings shown went out in mode OCR. *)
Definition is_ocr (m : mode) : bool :=
  match m with OCR => true | SIM => false end.
Definition count_ocr (outs : list Production.tick_output) : nat :=
  length (List.filter (fun o => is_ocr (Production.out_mode o)) outs).

(** What a run of the production loop over [inputs] leaves: one reading
    shown and one body posted per iteration, the body in range and carrying
    the mode of the reading, which is SIM whenever the stream is not
    connected or gives no frame; the counters follow. *)
Definition production_run_facts (st st' : Production.loop_state)
    (inputs : list Production.tick_input) (outs : list Production.tick_output)
    (bodies : list json) : Prop :=
  Production.connected st' = Production.connected st ∧
  reply_of (Production.net st') = reply_of (Production.net st) ∧
  posted (Production.net st') = posted (Production.net st) ++ bodies ∧
  length outs = length inputs ∧ length bodies = length inputs ∧
  Production.total_sent st' = Production.total_sent st + length inputs ∧
  Production.ocr_success st' = Production.ocr_success st + count_ocr outs ∧
  Forall (body_in_range Production.VALID_RANGES) bodies ∧
  map body_mode bodies = map (fun o => Some (mode_str (Production.out_mode o))) outs ∧
  Forall (fun o => dict_in_range Production.VALID_RANGES (Production.out_vitals o)) outs ∧
  Forall2 (fun i o => Production.connected st = false ∨ Production.read i = NoFrame →
                      Production.out_mode o = SIM) inputs outs.

(** The calls [main] makes on the reader, and a reader after a sequence of
    them. *)
Inductive reader_call : Type :=
| CallConnect (opened : bool)
| CallGetFrame (c : OptimizedStreamReader.capture)
| CallAcquire (c : OptimizedStreamReader.capture) (t_now : Q) (reopened : bool)
| CallRelease.

Definition call (r : OptimizedStreamReader.reader) (op : reader_call)
    : OptimizedStreamReader.reader :=
  match op with
  | CallConnect opened => fst (OptimizedStreamReader.connect r opened)
  | CallGetFrame c => fst (OptimizedStreamReader.get_frame r c)
  | CallAcquire c t_now reopened => fst (fst (OptimizedStreamReader.acquire r c t_now reopened))
  | CallRelease => OptimizedStreamReader.release r
  end.

Definition calls (r : OptimizedStreamReader.reader) (ops : list reader_call)
    : OptimizedStreamReader.reader :=
  fold_left call ops r.

Definition is_release (op : reader_call) : bool :=
  match op with CallRelease => true | _ => false end.

(** The class [p] accepts only characters the class [q] accepts, checked on
    the 256 code points. *)
Definition cls_sub (p q : Re.cls) : bool :=
  forallb (fun n => implb (p (ascii_of_nat n)) (q (ascii_of_nat n))) (List.seq 0 256).

(** Every match of the expression consumes a character of class [q]. *)
Fixpoint needs (q : Re.cls) (r : Re.regex) : bool :=
  match r with
  | Re.Chr p => cls_sub p q
  | Re.Rep p lo _ => (1 <=? lo) && cls_sub p q
  | Re.Seq r1 r2 => needs q r1 || needs q r2
  | Re.Alt r1 r2 => needs q r1 && needs q r2
  | Re.Grp r1 => needs q r1
  | _ => false
  end.

(** Every match of the expression sets group 1. *)
Fixpoint captures (r : Re.regex) : bool :=
  match r with
  | Re.Grp _ => true
  | Re.Seq r1 r2 => captures r1 || captures r2
  | Re.Alt r1 r2 => captures r1 && captures r2
  | _ => false
  end.

(** The iterations of a loop one after the other, as long as none raises. *)
Inductive steps {S I O : Type} (tick : S -> I -> result (S * O))
    : S -> list I -> S -> list O -> Prop :=
| steps_nil st : steps tick st [] st []
| steps_cons st i st' o rest st'' outs :
    tick st i = Ok (st', o) → steps tick st' rest st'' outs →
    steps tick st (i :: rest) st'' (o :: outs).

(** The requests logged when a run ends. *)
Definition end_net {S : Type} (net_of : S -> network) (fin : run_end S) : network :=
  match fin with
  | Finished st => net_of st
  | Stopped _ net => net
  end.

(** A text without any digit. *)
Definition no_digit (s : list ascii) : Prop := Forall (fun c => Re.digit c = false) s.

(** * Dictionaries *)

Lemma dict_get_set_eq {V} (d : dict V) k v : dict_get (dict_set d k v) k = Some v.
Proof.
  induction d as [|[k' v'] d IH]; simpl.
  - by rewrite String.eqb_refl.
  - destruct (String.eqb k k') eqn:E; simpl; rewrite E; [done | exact IH].
Qed.

Lemma dict_get_set_ne {V} (d : dict V) k k' v :
  k ≠ k' → dict_get (dict_set d k v) k' = dict_get d k'.
Proof.
  intros Hne. induction d as [|[k0 v0] d IH]; simpl.
  - destruct (String.eqb k' k) eqn:E; [|done].
    apply String.eqb_eq in E. congruence.
  - destruct (String.eqb k k0) eqn:E; simpl.
    + apply String.eqb_eq in E. subst k0.
      destruct (String.eqb k' k) eqn:E'; [|done].
      apply String.eqb_eq in E'. congruence.
    + by rewrite IH.
Qed.

Lemma dict_keys_set {V} (d : dict V) k v :
  dict_keys (dict_set d k v) = if bool_decide (k ∈ dict_keys d) then dict_keys d else dict_keys d ++ [k].
Proof.
  induction d as [|[k' v'] d IH]; simpl; [done|].
  destruct (String.eqb k k') eqn:E; simpl.
  - apply String.eqb_eq in E. subst. rewrite bool_decide_eq_true_2; [done | left].
  - apply String.eqb_neq in E. unfold dict_keys in *. rewrite IH.
    destruct (bool_decide (k ∈ map fst d)) eqn:B.
    + rewrite bool_decide_eq_true_2; [done|]. apply bool_decide_eq_true in B. by right.
    + rewrite bool_decide_eq_false_2; [done|]. apply bool_decide_eq_false in B.
      intros H. apply elem_of_cons in H as [?|?]; done.
Qed.

Lemma dict_set_elem {V} (d : dict V) k v k' v' :
  (k', v') ∈ dict_set d k v → (k' = k ∧ v' = v) ∨ (k', v') ∈ d.
Proof.
  induction d as [|[k0 v0] d IH]; simpl.
  - intros H. apply list_elem_of_singleton in H. left. by inversion H.
  - destruct (String.eqb k k0) eqn:E.
    + apply String.eqb_eq in E. subst k0. intros H.
      apply elem_of_cons in H as [H|H].
      * left. by inversion H.
      * right. by right.
    + intros H. apply elem_of_cons in H as [H|H].
      * right. rewrite H. left.
      * destruct (IH H) as [?|?]; [by left | right; by right].
Qed.

Lemma dict_get_elem {V} (d : dict V) k v : dict_get d k = Some v → (k, v) ∈ d.
Proof.
  induction d as [|[k0 v0] d IH]; simpl; [done|].
  destruct (String.eqb k k0) eqn:E.
  - apply String.eqb_eq in E. intros [= ->]. subst. left.
  - intros H. right. by apply IH.
Qed.

Lemma dict_elem_get {V} (d : dict V) k v :
  NoDup (dict_keys d) → (k, v) ∈ d → dict_get d k = Some v.
Proof.
  induction d as [|[k0 v0] d IH]; simpl.
  - intros _ H. by apply elem_of_nil in H.
  - intros Hnd H. apply NoDup_cons in Hnd as [Hk Hnd].
    apply elem_of_cons in H as [H|H].
    + inversion H; subst. by rewrite String.eqb_refl.
    + destruct (String.eqb k k0) eqn:E.
      * apply String.eqb_eq in E. subst k0. exfalso. apply Hk.
        unfold dict_keys. apply list_elem_of_fmap. by exists (k, v).
      * by apply IH.
Qed.

Lemma dict_get_None {V} (d : dict V) k : dict_get d k = None ↔ k ∉ dict_keys d.
Proof.
  induction d as [|[k0 v0] d IH]; simpl.
  - split; [intros _ H; by apply elem_of_nil in H | done].
  - destruct (String.eqb k k0) eqn:E.
    + apply String.eqb_eq in E. subst. split; [done|]. intros H. exfalso. apply H. left.
    + apply String.eqb_neq in E. rewrite IH. split.
      * intros H H'. apply elem_of_cons in H' as [?|?]; done.
      * intros H H'. apply H. by right.
Qed.

Lemma dict_set_NoDup {V} (d : dict V) k v :
  NoDup (dict_keys d) → NoDup (dict_keys (dict_set d k v)).
Proof.
  intros H. rewrite dict_keys_set. case_bool_decide as B; [done|].
  apply NoDup_app. split_and!; [done | | apply NoDup_singleton].
  intros x Hx Hx'. apply list_elem_of_singleton in Hx'. by subst.
Qed.

(** * Sorting and the median *)

Lemma Qle_bool_false (x y : Q) : Qle_bool x y = false → (y <= x)%Q.
Proof.
  intros H. destruct (Qlt_le_dec y x) as [Hlt|Hle].
  - by apply Qlt_le_weak.
  - apply Qle_bool_iff in Hle. congruence.
Qed.

Lemma sorted_insert_perm (x : Q) (l : list Q) : sorted_insert x l ≡ₚ x :: l.
Proof.
  induction l as [|y l IH]; simpl; [done|].
  destruct (Qle_bool x y); [done|].
  rewrite IH. apply Permutation_swap.
Qed.

Lemma sorted_perm (l : list Q) : sorted l ≡ₚ l.
Proof.
  induction l as [|x l IH]; simpl; [done|].
  by rewrite sorted_insert_perm, IH.
Qed.

Lemma sorted_length (l : list Q) : length (sorted l) = length l.
Proof. by rewrite sorted_perm. Qed.

Lemma sorted_insert_sorted (x : Q) (l : list Q) :
  StronglySorted Qle l → StronglySorted Qle (sorted_insert x l).
Proof.
  induction 1 as [|y l Hs IH Hy]; simpl.
  - repeat constructor.
  - destruct (Qle_bool x y) eqn:E.
    + apply Qle_bool_iff in E. constructor; [by constructor|].
      constructor; [done|].
      eapply Forall_impl; [exact Hy|]. intros z Hz. by eapply Qle_trans.
    + apply Qle_bool_false in E. constructor; [done|].
      rewrite sorted_insert_perm. by constructor.
Qed.

Lemma sorted_sorted (l : list Q) : StronglySorted Qle (sorted l).
Proof.
  induction l as [|x l IH]; simpl; [constructor|].
  by apply sorted_insert_sorted.
Qed.

Lemma count_le_perm (m : Q) (l l' : list Q) : l ≡ₚ l' → count_le m l = count_le m l'.
Proof.
  intros H. unfold count_le.
  induction H as [|x l l' H IH|x y l|l l' l'' H1 IH1 H2 IH2]; simpl;
    repeat case_match; simpl; congruence.
Qed.

Lemma count_ge_perm (m : Q) (l l' : list Q) : l ≡ₚ l' → count_ge m l = count_ge m l'.
Proof.
  intros H. unfold count_ge.
  induction H as [|x l l' H IH|x y l|l l' l'' H1 IH1 H2 IH2]; simpl;
    repeat case_match; simpl; congruence.
Qed.

Lemma count_ge_all (m : Q) (l : list Q) : Forall (Qle m) l → count_ge m l = length l.
Proof.
  unfold count_ge. induction 1 as [|x l Hx _ IH]; simpl; [done|].
  apply Qle_bool_iff in Hx. rewrite Hx. simpl. by rewrite IH.
Qed.

(** In a sorted list the item at index [i] has [i + 1] items at most equal
    to it and all the items from [i] on at least equal to it. *)
Lemma sorted_index_counts (s : list Q) (i : nat) (m : Q) :
  StronglySorted Qle s → s !! i = Some m →
  i + 1 ≤ count_le m s ∧ length s - i ≤ count_ge m s.
Proof.
  intros Hs. revert i. induction Hs as [|x s Hs IH Hx]; intros i Hi; [done|].
  destruct i as [|j]; simpl in Hi.
  - injection Hi as ->. split.
    + unfold count_le. simpl.
      assert (Qle_bool m m = true) as -> by (apply Qle_bool_iff, Qle_refl).
      simpl. lia.
    + rewrite count_ge_all; [simpl; lia|]. constructor; [apply Qle_refl | done].
  - destruct (IH j Hi) as [H1 H2].
    assert (x <= m)%Q as Hxm.
    { rewrite Forall_forall in Hx. apply Hx. by eapply list_elem_of_lookup_2. }
    split.
    + unfold count_le in *. simpl. apply Qle_bool_iff in Hxm. rewrite Hxm. simpl. lia.
    + unfold count_ge in *. simpl. destruct (Qle_bool m x); simpl; lia.
Qed.

(** A list of at least one item has a middle element in sorted order, and
    it is a median. *)
Lemma middle_of_sorted_median (l : list Q) :
  0 < length l → ∃ m, middle_of_sorted l = Some m ∧ is_median m l.
Proof.
  intros Hlen. unfold middle_of_sorted.
  assert (length l / 2 < length (sorted l)) as Hlt.
  { rewrite sorted_length. apply Nat.div_lt; lia. }
  destruct (lookup_lt_is_Some_2 _ _ Hlt) as [m Hm].
  exists m. split; [done|].
  destruct (sorted_index_counts _ _ _ (sorted_sorted l) Hm) as [H1 H2].
  rewrite (count_le_perm m _ l (sorted_perm l)) in H1.
  rewrite (count_ge_perm m _ l (sorted_perm l)) in H2.
  rewrite sorted_length in H2.
  pose proof (Nat.div_mod_eq (length l) 2) as Hd.
  pose proof (Nat.mod_upper_bound (length l) 2) as Hm2.
  split_and!; [| lia | lia].
  rewrite <- (sorted_perm l). by eapply list_elem_of_lookup_2.
Qed.

(** * The rolling buffer *)

Lemma deque_append_maxlen (d : deque) (x : Q) : maxlen (deque_append d x) = maxlen d.
Proof. done. Qed.

Lemma deque_append_length (d : deque) (x : Q) :
  length (items (deque_append d x)) = Nat.min (S (length (items d))) (maxlen d).
Proof.
  unfold deque_append. cbn [items maxlen]. rewrite length_drop, length_app.
  cbn [length]. lia.
Qed.

Lemma deque_append_room (d : deque) (x : Q) :
  length (items d) < maxlen d → items (deque_append d x) = items d ++ [x].
Proof.
  intros H. unfold deque_append. simpl. rewrite length_app. simpl.
  replace (length (items d) + 1 - maxlen d) with 0 by lia. done.
Qed.

Lemma deque_append_full (d : deque) (x : Q) :
  0 < maxlen d → length (items d) = maxlen d →
  items (deque_append d x) = drop 1 (items d) ++ [x].
Proof.
  intros Hpos H. unfold deque_append. simpl. rewrite length_app. simpl.
  replace (length (items d) + 1 - maxlen d) with 1 by lia.
  rewrite drop_app_le; [done | lia].
Qed.

Lemma deque_append_elem (d : deque) (x y : Q) :
  y ∈ items (deque_append d x) → y = x ∨ y ∈ items d.
Proof.
  unfold deque_append. simpl. intros H.
  apply subseteq_drop in H. apply elem_of_app in H as [H|H]; [by right|].
  left. by apply list_elem_of_singleton in H.
Qed.

Lemma deque_append_last (d : deque) (x : Q) :
  0 < maxlen d → x ∈ items (deque_append d x).
Proof.
  intros Hpos. unfold deque_append. simpl.
  apply list_elem_of_lookup. exists (length (items d) - (length (items d ++ [x]) - maxlen d)).
  rewrite lookup_drop. rewrite length_app. simpl.
  replace (length (items d) + 1 - maxlen d + (length (items d) - (length (items d) + 1 - maxlen d)))
    with (length (items d)) by lia.
  by rewrite list_lookup_middle.
Qed.

(** * The smoother *)

Lemma smooth_item_spec (h : gmap string deque) (smoothed : dict Q) key value d :
  h !! key = Some d →
  ∃ m, smooth_item h smoothed key value
         = Ok (<[key := deque_append d value]> h, dict_set smoothed key m)
       ∧ smoothed_value (deque_append d value) value m.
Proof.
  intros Hd. unfold smooth_item. rewrite Hd.
  destruct (3 <=? length (items (deque_append d value))) eqn:E.
  - apply Nat.leb_le in E.
    destruct (middle_of_sorted_median (items (deque_append d value))) as (m & Hm & Hmed); [lia|].
    unfold middle_of_sorted in Hm. rewrite sorted_length, Hm.
    exists m. split; [done|]. split; [done | lia].
  - apply Nat.leb_gt in E. exists value. split; [done|]. split; [lia | done].
Qed.

Lemma smooth_item_raises (h : gmap string deque) (smoothed : dict Q) key value :
  h !! key = None → smooth_item h smoothed key value = Raise (KeyError key).
Proof. intros H. unfold smooth_item. by rewrite H. Qed.

Lemma smooth_items_spec (vitals : dict Q) :
  ∀ (h : gmap string deque) (smoothed : dict Q),
    NoDup (dict_keys vitals) →
    (∀ k, k ∈ dict_keys vitals → is_Some (h !! k)) →
    ∃ h' smoothed',
      smooth_items h smoothed vitals = Ok (h', smoothed') ∧
      (∀ k, k ∉ dict_keys vitals →
         h' !! k = h !! k ∧ dict_get smoothed' k = dict_get smoothed k) ∧
      (∀ k v, (k, v) ∈ vitals →
         ∃ d m, h !! k = Some d ∧ h' !! k = Some (deque_append d v) ∧
                dict_get smoothed' k = Some m ∧
                smoothed_value (deque_append d v) v m).
Proof.
  induction vitals as [|[key value] vitals IH]; intros h smoothed Hnd Hdom.
  - exists h, smoothed. split_and!; [done | done |].
    intros k v H. by apply elem_of_nil in H.
  - simpl in Hnd. apply NoDup_cons in Hnd as [Hkey Hnd].
    destruct (Hdom key) as [d Hd]; [left|].
    destruct (smooth_item_spec h smoothed key value d Hd) as (m & Hitem & Hm).
    destruct (IH (<[key := deque_append d value]> h) (dict_set smoothed key m) Hnd)
      as (h' & smoothed' & Hrest & Hout & Hin).
    { intros k Hk. destruct (decide (key = k)) as [->|Hne].
      - rewrite lookup_insert_eq. by eexists.
      - rewrite lookup_insert_ne by done. apply Hdom. by right. }
    exists h', smoothed'. split_and!.
    + simpl. rewrite Hitem. simpl. exact Hrest.
    + intros k Hk. simpl in Hk. apply not_elem_of_cons in Hk as [Hne Hk].
      destruct (Hout k Hk) as [H1 H2].
      rewrite H1, H2, lookup_insert_ne, dict_get_set_ne by done. done.
    + intros k v Hkv. apply elem_of_cons in Hkv as [Heq|Hkv].
      * injection Heq as -> ->. destruct (Hout key Hkey) as [H1 H2].
        exists d, m. rewrite H1, H2, lookup_insert_eq, dict_get_set_eq. done.
      * assert (k ≠ key) as Hne.
        { intros ->. apply Hkey. unfold dict_keys. apply list_elem_of_fmap. by exists (key, v). }
        destruct (Hin k v Hkv) as (d0 & m0 & Hd0 & Hh' & Hs' & Hsv).
        rewrite lookup_insert_ne in Hd0 by done.
        exists d0, m0. done.
Qed.

Lemma smooth_items_keys (vitals : dict Q) :
  ∀ (h h' : gmap string deque) (smoothed smoothed' : dict Q),
    smooth_items h smoothed vitals = Ok (h', smoothed') →
    NoDup (dict_keys smoothed ++ dict_keys vitals) →
    dict_keys smoothed' = dict_keys smoothed ++ dict_keys vitals.
Proof.
  induction vitals as [|[key value] vitals IH]; intros h h' smoothed smoothed' Hrun Hnd.
  - injection Hrun as <- <-. simpl. by rewrite app_nil_r.
  - simpl in Hrun. destruct (smooth_item h smoothed key value) as [[h1 s1]|e] eqn:Hitem;
      [|done]. simpl in Hrun.
    assert (dict_keys s1 = dict_keys smoothed ++ [key]) as Hk1.
    { unfold smooth_item in Hitem. destruct (h !! key); [|done].
      assert (key ∉ dict_keys smoothed) as Hfresh.
      { apply NoDup_app in Hnd as (_ & Hdis & _). intros H. apply (Hdis key H). left. }
      repeat case_match; try done; injection Hitem as <- <-;
        rewrite dict_keys_set; by rewrite bool_decide_eq_false_2. }
    rewrite (IH _ _ _ _ Hrun); rewrite Hk1; simpl; rewrite <- app_assoc; done.
Qed.

(** [smooth_items] raises exactly when a kind has no buffer. *)
Lemma smooth_items_Ok_dom (vitals : dict Q) :
  ∀ (h h' : gmap string deque) (smoothed smoothed' : dict Q),
    smooth_items h smoothed vitals = Ok (h', smoothed') →
    ∀ k, k ∈ dict_keys vitals → is_Some (h !! k).
Proof.
  induction vitals as [|[key value] vitals IH]; intros h h' smoothed smoothed' Hrun k Hk.
  - by apply elem_of_nil in Hk.
  - simpl in Hrun. destruct (h !! key) as [d|] eqn:Hd.
    + destruct (smooth_item_spec h smoothed key value d Hd) as (m & Hitem & _).
      rewrite Hitem in Hrun. simpl in Hrun.
      simpl in Hk. apply elem_of_cons in Hk as [->|Hk]; [by eexists|].
      specialize (IH _ _ _ _ Hrun k Hk).
      destruct (decide (key = k)) as [->|Hne]; [by eexists|].
      by rewrite lookup_insert_ne in IH.
    + by rewrite (smooth_item_raises _ _ _ _ Hd) in Hrun.
Qed.

Lemma smooth_items_other (vitals : dict Q) :
  ∀ (h h' : gmap string deque) (smoothed smoothed' : dict Q) k,
    smooth_items h smoothed vitals = Ok (h', smoothed') →
    k ∉ dict_keys vitals → h' !! k = h !! k.
Proof.
  induction vitals as [|[key value] vitals IH]; intros h h' smoothed smoothed' k Hrun Hk.
  - by injection Hrun as <- _.
  - simpl in Hrun, Hk. apply not_elem_of_cons in Hk as [Hne Hk].
    destruct (h !! key) as [d|] eqn:Hd.
    + destruct (smooth_item_spec h smoothed key value d Hd) as (m & Hitem & _).
      rewrite Hitem in Hrun. simpl in Hrun.
      rewrite (IH _ _ _ _ k Hrun Hk). by rewrite lookup_insert_ne.
    + by rewrite (smooth_item_raises _ _ _ _ Hd) in Hrun.
Qed.

(** The capacity and the bound of every buffer are kept by a push. *)
Lemma smooth_items_bounded (n : nat) (vitals : dict Q) :
  ∀ (h h' : gmap string deque) (smoothed smoothed' : dict Q),
    smooth_items h smoothed vitals = Ok (h', smoothed') →
    (∀ k d, h !! k = Some d → maxlen d = n ∧ length (items d) ≤ n) →
    (∀ k d, h' !! k = Some d → maxlen d = n ∧ length (items d) ≤ n).
Proof.
  induction vitals as [|[key value] vitals IH]; intros h h' smoothed smoothed' Hrun Hb.
  - by injection Hrun as <- _.
  - simpl in Hrun. destruct (h !! key) as [d|] eqn:Hd.
    + destruct (smooth_item_spec h smoothed key value d Hd) as (m & Hitem & _).
      rewrite Hitem in Hrun. simpl in Hrun.
      apply (IH _ _ _ _ Hrun). intros k d0 Hk.
      destruct (decide (key = k)) as [->|Hne].
      * rewrite lookup_insert_eq in Hk. injection Hk as <-.
        destruct (Hb _ _ Hd) as [Hmax Hlen].
        rewrite deque_append_maxlen, deque_append_length. lia.
      * rewrite lookup_insert_ne in Hk by done. by apply (Hb k).
    + by rewrite (smooth_item_raises _ _ _ _ Hd) in Hrun.
Qed.

Lemma smooth_items_dom (vitals : dict Q) :
  ∀ (h h' : gmap string deque) (smoothed smoothed' : dict Q) k,
    smooth_items h smoothed vitals = Ok (h', smoothed') →
    is_Some (h !! k) → is_Some (h' !! k).
Proof.
  induction vitals as [|[key value] vitals IH]; intros h h' smoothed smoothed' k Hrun Hk.
  - by injection Hrun as <- _.
  - simpl in Hrun. destruct (h !! key) as [d|] eqn:Hd.
    + destruct (smooth_item_spec h smoothed key value d Hd) as (m & Hitem & _).
      rewrite Hitem in Hrun. simpl in Hrun.
      apply (IH _ _ _ _ k Hrun).
      destruct (decide (key = k)) as [->|Hne].
      * rewrite lookup_insert_eq. by eexists.
      * by rewrite lookup_insert_ne.
    + by rewrite (smooth_item_raises _ _ _ _ Hd) in Hrun.
Qed.

Lemma smooth_items_wf (vitals : dict Q) (h h' : gmap string deque) (smoothed smoothed' : dict Q) :
  smooth_items h smoothed vitals = Ok (h', smoothed') → wf_history h → wf_history h'.
Proof.
  intros Hrun [Hdom Hb]. split.
  - intros k Hk. eapply smooth_items_dom; [exact Hrun | by apply Hdom].
  - by eapply smooth_items_bounded.
Qed.

(** With a buffer for every kind, a reading over the four kinds is smoothed
    without an exception. *)
Lemma smooth_items_total (vitals : dict Q) (h : gmap string deque) (smoothed : dict Q) :
  wf_history h → NoDup (dict_keys vitals) → dict_keys vitals ⊆ KINDS →
  ∃ h' smoothed', smooth_items h smoothed vitals = Ok (h', smoothed').
Proof.
  intros [Hdom _] Hnd Hsub.
  destruct (smooth_items_spec vitals h smoothed Hnd) as (h' & smoothed' & Hrun & _).
  - intros k Hk. apply Hdom. by apply Hsub.
  - by exists h', smoothed'.
Qed.

Lemma wf_production_default : wf_history (Production.history Production.VitalSmoother_default).
Proof.
  split.
  - apply Forall_forall. compute_done.
  - intros k d H.
    unfold Production.VitalSmoother_default, Production.VitalSmoother_init in H.
    simpl in H.
    repeat (apply lookup_insert_Some in H as [[_ <-]|[_ H]]; [simpl; lia|]).
    by rewrite lookup_empty in H.
Qed.

Lemma wf_vital_history : wf_history OcrConnector.vital_history.
Proof.
  split.
  - apply Forall_forall. compute_done.
  - intros k d H. unfold OcrConnector.vital_history, OcrConnector.SMOOTHING_WINDOW in H.
    repeat (apply lookup_insert_Some in H as [[_ <-]|[_ H]]; [simpl; lia|]).
    by rewrite lookup_empty in H.
Qed.

(** ** C1 *)

(** C1.  [smooth] (production) and [apply_smoothing] (OCR connector) return
    whenever every kind of the reading has a buffer.  For every kind of the
    reading with value [v], the buffer of the kind afterwards holds the last
    [maxlen] of its former items followed by [v]; if the buffer then holds at
    least 3 samples, the smoothed value is the middle element of the sorted
    buffer, which is a median of the buffered values; if it holds fewer than
    3, the smoothed value is the raw value [v]. *)
Theorem smooth_median_or_raw :
  (∀ (self : Production.VitalSmoother) (vitals : dict Q),
     NoDup (dict_keys vitals) →
     (∀ k, k ∈ dict_keys vitals → is_Some (Production.history self !! k)) →
     ∃ self' smoothed,
       Production.smooth self vitals = Ok (self', smoothed) ∧
       ∀ k v, (k, v) ∈ vitals →
         ∃ d m,
           let buffer := last_n (maxlen d) (items d ++ [v]) in
           Production.history self !! k = Some d ∧
           Production.history self' !! k = Some {| maxlen := maxlen d; items := buffer |} ∧
           length buffer = Nat.min (S (length (items d))) (maxlen d) ∧
           dict_get smoothed k = Some m ∧
           (3 ≤ length buffer → middle_of_sorted buffer = Some m ∧ is_median m buffer) ∧
           (length buffer < 3 → m = v)) ∧
  (∀ (history : gmap string deque) (new_vitals : dict Q),
     NoDup (dict_keys new_vitals) →
     (∀ k, k ∈ dict_keys new_vitals → is_Some (history !! k)) →
     ∃ history' smoothed,
       OcrConnector.apply_smoothing history new_vitals = Ok (history', smoothed) ∧
       ∀ k v, (k, v) ∈ new_vitals →
         ∃ d m,
           let buffer := last_n (maxlen d) (items d ++ [v]) in
           history !! k = Some d ∧
           history' !! k = Some {| maxlen := maxlen d; items := buffer |} ∧
           length buffer = Nat.min (S (length (items d))) (maxlen d) ∧
           dict_get smoothed k = Some m ∧
           (3 ≤ length buffer → middle_of_sorted buffer = Some m ∧ is_median m buffer) ∧
           (length buffer < 3 → m = v)).
Proof.
  assert (∀ (d : deque) (v : Q),
            length (last_n (maxlen d) (items d ++ [v]))
              = Nat.min (S (length (items d))) (maxlen d)) as Hlen.
  { intros d v. unfold last_n. rewrite length_drop, length_app. cbn [length]. lia. }
  split.
  - intros self vitals Hnd Hdom.
    destruct (smooth_items_spec vitals (Production.history self) [] Hnd Hdom)
      as (h' & smoothed & Hrun & _ & Hin).
    exists {| Production.window_size := Production.window_size self;
              Production.history := h' |}, smoothed.
    split; [unfold Production.smooth; by rewrite Hrun|].
    intros k v Hkv. destruct (Hin k v Hkv) as (d & m & H1 & H2 & H3 & H4 & H5).
    exists d, m. cbn zeta. split_and!; [done | exact H2 | apply Hlen | done | exact H4 | exact H5].
  - intros history new_vitals Hnd Hdom.
    destruct (smooth_items_spec new_vitals history [] Hnd Hdom)
      as (h' & smoothed & Hrun & _ & Hin).
    exists h', smoothed. split; [done|].
    intros k v Hkv. destruct (Hin k v Hkv) as (d & m & H1 & H2 & H3 & H4 & H5).
    exists d, m. cbn zeta. split_and!; [done | exact H2 | apply Hlen | done | exact H4 | exact H5].
Qed.

Lemma smooth_median_or_raw_witness :
  let self :=
    {| Production.window_size := 5;
       Production.history :=
         <["hr" := {| maxlen := 5; items := [150; 152]%Q |}]>
           (Production.history Production.VitalSmoother_default) |} in
  ∃ self' smoothed,
    Production.smooth self [("hr", 148%Q); ("spo2", 97%Q)] = Ok (self', smoothed) ∧
    Production.history self' !! "hr" = Some {| maxlen := 5; items := [150; 152; 148]%Q |} ∧
    dict_get smoothed "hr" = Some 150%Q ∧
    dict_get smoothed "spo2" = Some 97%Q.
Proof.
  intros self.
  destruct (proj1 smooth_median_or_raw self [("hr", 148%Q); ("spo2", 97%Q)])
    as (self' & smoothed & Hrun & Hin).
  - compute_done.
  - apply Forall_forall. compute_done.
  - exists self', smoothed. split; [exact Hrun|].
    destruct (Hin "hr" 148%Q) as (d & m & Hd & Hbuf & _ & Hm & Hmed & _); [left|].
    destruct (Hin "spo2" 97%Q) as (d' & m' & Hd' & _ & _ & Hm' & _ & Hraw); [right; left|].
    vm_compute in Hd. injection Hd as <-.
    vm_compute in Hd'. injection Hd' as <-.
    split_and!.
    + exact Hbuf.
    + rewrite Hm. destruct Hmed as [Hmid _]; [vm_compute; lia|].
      vm_compute in Hmid. by rewrite Hmid.
    + rewrite Hm'. f_equal. apply Hraw. vm_compute. lia.
Defined.

(** ** C8 *)

Lemma smooth_all_wf (readings : list (dict Q)) :
  ∀ self : Production.VitalSmoother,
    wf_history (Production.history self) →
    Forall (fun vitals => NoDup (dict_keys vitals) ∧ dict_keys vitals ⊆ KINDS) readings →
    ∃ self' outs, smooth_all self readings = Ok (self', outs) ∧
                  wf_history (Production.history self').
Proof.
  induction readings as [|vitals readings IH]; intros self Hwf Hall.
  - by exists self, [].
  - apply Forall_cons in Hall as [[Hnd Hsub] Hall].
    destruct (smooth_items_total vitals (Production.history self) [] Hwf Hnd Hsub)
      as (h1 & s1 & Hrun).
    pose proof (smooth_items_wf _ _ _ _ _ Hrun Hwf) as Hwf1.
    destruct (IH {| Production.window_size := Production.window_size self;
                    Production.history := h1 |} Hwf1 Hall) as (self' & outs & Hrest & Hwf').
    exists self', (s1 :: outs). split; [|done].
    simpl. unfold Production.smooth. rewrite Hrun. simpl. by rewrite Hrest.
Qed.

Lemma smooth_items_evicts (vitals : dict Q) (h h' : gmap string deque)
    (smoothed : dict Q) k v d :
  NoDup (dict_keys vitals) →
  smooth_items h [] vitals = Ok (h', smoothed) →
  (k, v) ∈ vitals → h !! k = Some d →
  0 < maxlen d → length (items d) = maxlen d →
  ∃ d', h' !! k = Some d' ∧ items d' = drop 1 (items d) ++ [v] ∧
        length (items d') = maxlen d.
Proof.
  intros Hnd Hrun Hkv Hd Hpos Hfull.
  destruct (smooth_items_spec vitals h [] Hnd (smooth_items_Ok_dom _ _ _ _ _ Hrun))
    as (h2 & s2 & Hrun2 & _ & Hin).
  rewrite Hrun in Hrun2. injection Hrun2 as <- <-.
  destruct (Hin k v Hkv) as (d0 & m & Hd0 & Hh' & _).
  rewrite Hd in Hd0. injection Hd0 as <-.
  exists (deque_append d v). split_and!; [done | by apply deque_append_full |].
  rewrite deque_append_length. lia.
Qed.

(** C8.  A buffer never holds more than the window of 5 samples: from the
    fresh smoother every sequence of readings over the four kinds is
    smoothed without an exception and leaves every buffer with capacity 5
    and at most 5 items, and the same bound is an invariant of
    [apply_smoothing] from the initial [vital_history].  A push into a full
    buffer drops its oldest item and appends the new one, and the buffer of
    a kind that is not in the reading is left as it was. *)
Theorem buffers_bounded_independent :
  (∀ readings : list (dict Q),
     Forall (fun vitals => NoDup (dict_keys vitals) ∧ dict_keys vitals ⊆ KINDS) readings →
     ∃ self' outs,
       smooth_all Production.VitalSmoother_default readings = Ok (self', outs) ∧
       ∀ k d, Production.history self' !! k = Some d →
              maxlen d = 5 ∧ length (items d) ≤ 5) ∧
  (wf_history OcrConnector.vital_history ∧
   ∀ history new_vitals history' smoothed,
     wf_history history →
     OcrConnector.apply_smoothing history new_vitals = Ok (history', smoothed) →
     wf_history history') ∧
  (∀ (self self' : Production.VitalSmoother) (vitals smoothed : dict Q) k v d,
     NoDup (dict_keys vitals) →
     Production.smooth self vitals = Ok (self', smoothed) →
     (k, v) ∈ vitals → Production.history self !! k = Some d →
     0 < maxlen d → length (items d) = maxlen d →
     ∃ d', Production.history self' !! k = Some d' ∧
           items d' = drop 1 (items d) ++ [v] ∧ length (items d') = maxlen d) ∧
  (∀ (history history' : gmap string deque) (new_vitals smoothed : dict Q) k v d,
     NoDup (dict_keys new_vitals) →
     OcrConnector.apply_smoothing history new_vitals = Ok (history', smoothed) →
     (k, v) ∈ new_vitals → history !! k = Some d →
     0 < maxlen d → length (items d) = maxlen d →
     ∃ d', history' !! k = Some d' ∧
           items d' = drop 1 (items d) ++ [v] ∧ length (items d') = maxlen d) ∧
  (∀ (self self' : Production.VitalSmoother) (vitals smoothed : dict Q) k,
     Production.smooth self vitals = Ok (self', smoothed) →
     k ∉ dict_keys vitals →
     Production.history self' !! k = Production.history self !! k) ∧
  (∀ (history history' : gmap string deque) (new_vitals smoothed : dict Q) k,
     OcrConnector.apply_smoothing history new_vitals = Ok (history', smoothed) →
     k ∉ dict_keys new_vitals →
     history' !! k = history !! k).
Proof.
  split_and!.
  - intros readings Hall.
    destruct (smooth_all_wf readings _ wf_production_default Hall)
      as (self' & outs & Hrun & _ & Hb).
    by exists self', outs.
  - apply wf_vital_history.
  - intros history new_vitals history' smoothed Hwf Hrun.
    by eapply smooth_items_wf.
  - intros self self' vitals smoothed k v d Hnd Hrun Hkv Hd Hpos Hfull.
    unfold Production.smooth in Hrun.
    destruct (smooth_items (Production.history self) [] vitals) as [[h1 s1]|e] eqn:E; [|done].
    simpl in Hrun. injection Hrun as <- <-. simpl.
    by eapply smooth_items_evicts.
  - intros history history' new_vitals smoothed k v d Hnd Hrun Hkv Hd Hpos Hfull.
    by eapply smooth_items_evicts.
  - intros self self' vitals smoothed k Hrun Hk.
    unfold Production.smooth in Hrun.
    destruct (smooth_items (Production.history self) [] vitals) as [[h1 s1]|e] eqn:E; [|done].
    simpl in Hrun. injection Hrun as <- <-. simpl.
    by eapply smooth_items_other.
  - intros history history' new_vitals smoothed k Hrun Hk.
    by eapply smooth_items_other.
Qed.

Lemma buffers_bounded_independent_witness :
  ∃ self' outs,
    smooth_all Production.VitalSmoother_default
      [ [("hr", 150%Q)]; [("hr", 152%Q)]; [("hr", 148%Q)];
        [("hr", 151%Q)]; [("hr", 149%Q)]; [("hr", 153%Q)] ] = Ok (self', outs) ∧
    ∀ k d, Production.history self' !! k = Some d →
           maxlen d = 5 ∧ length (items d) ≤ 5.
Proof.
  apply (proj1 buffers_bounded_independent).
  repeat (apply Forall_cons; split; [split; compute_done|]).
  apply Forall_nil_2.
Defined.

(** ** C10 *)

Lemma smooth_items_from_buffer (vitals : dict Q) (h h' : gmap string deque)
    (smoothed : dict Q) :
  NoDup (dict_keys vitals) →
  (∀ k d, h !! k = Some d → 0 < maxlen d) →
  smooth_items h [] vitals = Ok (h', smoothed) →
  ∀ k m, dict_get smoothed k = Some m →
    ∃ v d', (k, v) ∈ vitals ∧ h' !! k = Some d' ∧ m ∈ items d'.
Proof.
  intros Hnd Hpos Hrun k m Hm.
  destruct (smooth_items_spec vitals h [] Hnd (smooth_items_Ok_dom _ _ _ _ _ Hrun))
    as (h2 & s2 & Hrun2 & _ & Hin).
  rewrite Hrun in Hrun2. injection Hrun2 as <- <-.
  assert (k ∈ dict_keys vitals) as Hk.
  { rewrite <- (app_nil_l (dict_keys vitals)).
    change (@nil string) with (dict_keys (@nil (string * Q))).
    rewrite <- (smooth_items_keys _ _ _ _ _ Hrun) by done.
    destruct (decide (k ∈ dict_keys smoothed)) as [|Hn]; [done|].
    apply dict_get_None in Hn. congruence. }
  unfold dict_keys in Hk. apply list_elem_of_fmap in Hk as ([k0 v] & -> & Hkv). simpl in *.
  destruct (Hin k0 v Hkv) as (d & m0 & Hd & Hh' & Hs & Hge & Hlt).
  rewrite Hm in Hs. injection Hs as <-.
  exists v, (deque_append d v). split_and!; [done | done |].
  destruct (decide (3 ≤ length (items (deque_append d v)))) as [H3|H3].
  - by destruct (Hge H3) as [_ [? _]].
  - rewrite (Hlt ltac:(lia)). apply deque_append_last. by eapply Hpos.
Qed.

Lemma smooth_items_in_range (ranges : dict (Q * Q)) (vitals : dict Q)
    (h h' : gmap string deque) (smoothed : dict Q) :
  NoDup (dict_keys vitals) →
  smooth_items h [] vitals = Ok (h', smoothed) →
  history_in_range ranges h → dict_in_range ranges vitals →
  history_in_range ranges h'.
Proof.
  intros Hnd Hrun Hh Hv k d' r Hd' Hr.
  destruct (smooth_items_spec vitals h [] Hnd (smooth_items_Ok_dom _ _ _ _ _ Hrun))
    as (h2 & s2 & Hrun2 & Hout & Hin).
  rewrite Hrun in Hrun2. injection Hrun2 as <- <-.
  destruct (decide (k ∈ dict_keys vitals)) as [Hk|Hk].
  - unfold dict_keys in Hk. apply list_elem_of_fmap in Hk as ([k0 v] & -> & Hkv). simpl in *.
    destruct (Hin k0 v Hkv) as (d & m0 & Hd & Hh' & _).
    rewrite Hd' in Hh'. injection Hh' as ->.
    destruct (Hv k0 v Hkv) as (r' & Hr' & Hvr).
    rewrite Hr in Hr'. injection Hr' as <-.
    apply Forall_forall. intros y Hy.
    apply deque_append_elem in Hy as [->|Hy]; [done|].
    specialize (Hh k0 d r Hd Hr). rewrite Forall_forall in Hh. by apply Hh.
  - destruct (Hout k Hk) as [Heq _]. rewrite Heq in Hd'. by eapply Hh.
Qed.

Lemma smooth_items_out_in_range (ranges : dict (Q * Q)) (vitals : dict Q)
    (h h' : gmap string deque) (smoothed : dict Q) :
  NoDup (dict_keys vitals) →
  smooth_items h [] vitals = Ok (h', smoothed) →
  history_in_range ranges h → dict_in_range ranges vitals →
  dict_in_range ranges smoothed.
Proof.
  intros Hnd Hrun Hh Hv k m Hkm.
  pose proof (smooth_items_in_range ranges vitals h h' smoothed Hnd Hrun Hh Hv) as Hh'.
  destruct (smooth_items_spec vitals h [] Hnd (smooth_items_Ok_dom _ _ _ _ _ Hrun))
    as (h2 & s2 & Hrun2 & _ & Hin).
  rewrite Hrun in Hrun2. injection Hrun2 as <- <-.
  assert (dict_keys smoothed = dict_keys vitals) as Hkeys.
  { by rewrite (smooth_items_keys _ _ _ _ _ Hrun). }
  assert (k ∈ dict_keys vitals) as Hk.
  { rewrite <- Hkeys. unfold dict_keys. apply list_elem_of_fmap. by exists (k, m). }
  unfold dict_keys in Hk. apply list_elem_of_fmap in Hk as ([k0 v] & -> & Hkv). simpl in *.
  destruct (Hin k0 v Hkv) as (d & m0 & Hd & Hd' & Hs & Hge & Hlt).
  assert (dict_get smoothed k0 = Some m) as Hget.
  { apply dict_elem_get; [by rewrite Hkeys | done]. }
  rewrite Hget in Hs. injection Hs as <-.
  destruct (Hv k0 v Hkv) as (r & Hr & Hvr). exists r. split; [done|].
  destruct (decide (3 ≤ length (items (deque_append d v)))) as [H3|H3].
  - destruct (Hge H3) as [_ [Hmem _]].
    specialize (Hh' k0 _ r Hd' Hr). rewrite Forall_forall in Hh'. by apply Hh'.
  - by rewrite (Hlt ltac:(lia)).
Qed.

(** C10.  Every value the smoother returns for a kind is an item of the
    buffer of that kind after the push, hence a value that was pushed for
    the kind; so when the buffers and the reading hold only values in the
    valid range of their kind, so do the buffers afterwards and the smoothed
    reading.  Stated for [smooth] with the ranges of the production script
    and for [apply_smoothing] with the ranges of the OCR connector, which
    return whenever every kind of the reading has a buffer. *)
Theorem smoothed_value_is_buffered :
  (∀ (self : Production.VitalSmoother) (vitals : dict Q),
     NoDup (dict_keys vitals) →
     (∀ k, k ∈ dict_keys vitals → is_Some (Production.history self !! k)) →
     (∀ k d, Production.history self !! k = Some d → 0 < maxlen d) →
     ∃ self' smoothed,
       Production.smooth self vitals = Ok (self', smoothed) ∧
       (∀ k m, dict_get smoothed k = Some m →
          ∃ d', Production.history self' !! k = Some d' ∧ m ∈ items d') ∧
       (history_in_range Production.VALID_RANGES (Production.history self) →
        dict_in_range Production.VALID_RANGES vitals →
        history_in_range Production.VALID_RANGES (Production.history self') ∧
        dict_in_range Production.VALID_RANGES smoothed)) ∧
  (∀ (history : gmap string deque) (new_vitals : dict Q),
     NoDup (dict_keys new_vitals) →
     (∀ k, k ∈ dict_keys new_vitals → is_Some (history !! k)) →
     (∀ k d, history !! k = Some d → 0 < maxlen d) →
     ∃ history' smoothed,
       OcrConnector.apply_smoothing history new_vitals = Ok (history', smoothed) ∧
       (∀ k m, dict_get smoothed k = Some m →
          ∃ d', history' !! k = Some d' ∧ m ∈ items d') ∧
       (history_in_range OcrConnector.VALID_RANGES history →
        dict_in_range OcrConnector.VALID_RANGES new_vitals →
        history_in_range OcrConnector.VALID_RANGES history' ∧
        dict_in_range OcrConnector.VALID_RANGES smoothed)).
Proof.
  split.
  - intros self vitals Hnd Hdom Hpos.
    destruct (smooth_items_spec vitals (Production.history self) [] Hnd Hdom)
      as (h' & smoothed & Hrun & _).
    exists {| Production.window_size := Production.window_size self;
              Production.history := h' |}, smoothed.
    split; [unfold Production.smooth; by rewrite Hrun|].
    cbn [Production.history]. split.
    + intros k m Hm.
      destruct (smooth_items_from_buffer _ _ _ _ Hnd Hpos Hrun k m Hm) as (v & d' & _ & ? & ?).
      by exists d'.
    + intros Hh Hv. split.
      * by eapply smooth_items_in_range.
      * by eapply smooth_items_out_in_range.
  - intros history new_vitals Hnd Hdom Hpos.
    destruct (smooth_items_spec new_vitals history [] Hnd Hdom)
      as (h' & smoothed & Hrun & _).
    exists h', smoothed. split; [exact Hrun|]. split.
    + intros k m Hm.
      destruct (smooth_items_from_buffer _ _ _ _ Hnd Hpos Hrun k m Hm) as (v & d' & _ & ? & ?).
      by exists d'.
    + intros Hh Hv. split.
      * by eapply smooth_items_in_range.
      * by eapply smooth_items_out_in_range.
Qed.

Lemma smoothed_value_is_buffered_witness :
  ∃ self' smoothed,
    Production.smooth Production.VitalSmoother_default [("hr", 150%Q); ("spo2", 97%Q)]
      = Ok (self', smoothed) ∧
    ∀ k m, dict_get smoothed k = Some m →
      ∃ d', Production.history self' !! k = Some d' ∧ m ∈ items d'.
Proof.
  destruct (proj1 smoothed_value_is_buffered Production.VitalSmoother_default
              [("hr", 150%Q); ("spo2", 97%Q)]) as (self' & smoothed & Hrun & Hbuf & _).
  - compute_done.
  - apply Forall_forall. compute_done.
  - change (map_Forall (fun _ d => 0 < maxlen d)
              (Production.history Production.VitalSmoother_default)).
    compute_done.
  - by exists self', smoothed.
Defined.

(** * Extraction *)

Lemma in_range_spec (r : Q * Q) (v : Q) :
  in_range r v = true ↔ (fst r <= v)%Q ∧ (v <= snd r)%Q.
Proof.
  unfold in_range. rewrite andb_true_iff, !Qle_bool_iff. done.
Qed.

Lemma scan_patterns_spec (range : option (Q * Q)) (ps : list Re.regex)
    (txt : list ascii) (v : Q) :
  scan_patterns range ps txt = Ok (Some v) →
  ∃ r p m g, range = Some r ∧ in_range r v = true ∧ p ∈ ps ∧
             Re.search p txt = Some m ∧ Re.group1 m = Some g ∧ py_float g = Some v.
Proof.
  induction ps as [|p ps IH]; simpl; [done|].
  intros H.
  assert (scan_patterns range ps txt = Ok (Some v) →
          ∃ r p0 m g, range = Some r ∧ in_range r v = true ∧ p0 ∈ p :: ps ∧
            Re.search p0 txt = Some m ∧ Re.group1 m = Some g ∧ py_float g = Some v) as Hrest.
  { intros H'. destruct (IH H') as (r & p0 & m & g & H1 & H2 & H3 & H4 & H5 & H6).
    exists r, p0, m, g. split_and!; [done | done | by right | done | done | done]. }
  destruct (Re.search p txt) as [m|] eqn:Hs; [|by apply Hrest].
  destruct (Re.group1 m) as [g|] eqn:Hg; [|done].
  destruct (py_float g) as [value|] eqn:Hf; [|by apply Hrest].
  destruct range as [r|]; [|done].
  destruct (in_range r value) eqn:Hr; [|by apply Hrest].
  injection H as ->. exists r, p, m, g. split_and!; [done | done | left | done | done | done].
Qed.

Lemma scan_kinds_spec (ranges : dict (Q * Q)) (kinds : dict (list Re.regex))
    (txt : list ascii) :
  ∀ vitals out, scan_kinds ranges kinds txt vitals = Ok out →
    ∀ k v, (k, v) ∈ out →
      (k, v) ∈ vitals ∨
      ∃ r, dict_get ranges k = Some r ∧ in_range r v = true ∧ captured kinds txt k v.
Proof.
  induction kinds as [|[vital_type patterns] kinds IH]; intros vitals out Hrun k v Hkv.
  - injection Hrun as <-. by left.
  - simpl in Hrun.
    destruct (scan_patterns (dict_get ranges vital_type) patterns txt) as [found|e] eqn:Hscan;
      [|done].
    simpl in Hrun.
    assert (∀ k0 v0, captured kinds txt k0 v0 →
                     captured ((vital_type, patterns) :: kinds) txt k0 v0) as Hmono.
    { intros k0 v0 (ps & p & m & g & ? & ?). exists ps, p, m, g. split; [by right | done]. }
    destruct (IH _ _ Hrun k v Hkv) as [Hin|(r & ? & ? & ?)].
    + destruct found as [value|]; [|by left].
      apply dict_set_elem in Hin as [[-> ->]|Hin]; [|by left].
      right. destruct (scan_patterns_spec _ _ _ _ Hscan) as (r & p & m & g & Hr & ? & ? & ?).
      exists r. split_and!; [done | done |].
      exists patterns, p, m, g. split; [left | done].
    + right. exists r. split_and!; [done | done | by apply Hmono].
Qed.

Lemma scan_kinds_keys (ranges : dict (Q * Q)) (kinds : dict (list Re.regex))
    (txt : list ascii) :
  ∀ vitals out, scan_kinds ranges kinds txt vitals = Ok out →
    NoDup (dict_keys vitals) →
    NoDup (dict_keys out) ∧
    ∀ k, k ∈ dict_keys out → k ∈ dict_keys vitals ∨ k ∈ dict_keys kinds.
Proof.
  induction kinds as [|[vital_type patterns] kinds IH]; intros vitals out Hrun Hnd.
  - injection Hrun as <-. split; [done | by left].
  - simpl in Hrun.
    destruct (scan_patterns (dict_get ranges vital_type) patterns txt) as [found|e]; [|done].
    simpl in Hrun. destruct found as [value|].
    + destruct (IH _ _ Hrun (dict_set_NoDup _ _ _ Hnd)) as [H1 H2]. split; [done|].
      intros k Hk. destruct (H2 k Hk) as [H|H].
      * rewrite dict_keys_set in H. case_bool_decide; [by left|].
        apply elem_of_app in H as [H|H]; [by left|].
        apply list_elem_of_singleton in H as ->. right. left.
      * right. by right.
    + destruct (IH _ _ Hrun Hnd) as [H1 H2]. split; [done|].
      intros k Hk. destruct (H2 k Hk) as [H|H]; [by left | right; by right].
Qed.

(** What [extract_vitals] returns is a reading over the four kinds with every
    value in range, one of the values parsed for its kind. *)
Lemma production_extract_spec (frame : ocr_reply) :
  let vitals := fst (fst (Production.extract_vitals frame)) in
  NoDup (dict_keys vitals) ∧ dict_keys vitals ⊆ KINDS ∧
  ∀ k v, (k, v) ∈ vitals →
    ∃ r t, dict_get Production.VALID_RANGES k = Some r ∧ in_range r v = true ∧
           frame = OcrText t ∧
           captured Production.PATTERNS (newlines_to_spaces (upper (chars t))) k v.
Proof.
  unfold Production.extract_vitals. destruct frame as [msg|t].
  - simpl. split_and!; [constructor | set_solver | intros k v H; by apply elem_of_nil in H].
  - destruct (scan_kinds Production.VALID_RANGES Production.PATTERNS
                (newlines_to_spaces (upper (chars t))) []) as [vitals|e] eqn:Hscan;
      cbn [fst].
    + destruct (scan_kinds_keys _ _ _ _ _ Hscan) as [Hnd Hk]; [constructor|].
      split_and!; [done | |].
      * intros k Hin. destruct (Hk k Hin) as [H|H]; [by apply elem_of_nil in H | exact H].
      * intros k v Hkv.
        destruct (scan_kinds_spec _ _ _ _ _ Hscan k v Hkv) as [H|(r & ? & ? & ?)];
          [by apply elem_of_nil in H|].
        by exists r, t.
    + split_and!; [constructor | set_solver | intros k v H; by apply elem_of_nil in H].
Qed.

Lemma no_vitals_none k (v : Q) : (k, Some v) ∉ Vlm.no_vitals.
Proof.
  unfold Vlm.no_vitals. intros H.
  repeat (apply elem_of_cons in H as [H|H]; [discriminate H|]).
  by apply elem_of_nil in H.
Qed.

Lemma float_in_range_spec (r : Q * Q) (value : Vlm.pyfloat) (q : Q) :
  Vlm.float_in_range r value = Some q → value = Vlm.Finite q ∧ in_range r q = true.
Proof.
  destruct value as [x| | |]; simpl; try done.
  destruct (in_range r x) eqn:E; [|done]. by intros [= <-].
Qed.

Lemma read_fields_spec (data : dict Vlm.jfield) (keys : list string) :
  ∀ vitals out, Vlm.read_fields data keys vitals = Ok out →
    ∀ k v, (k, Some v) ∈ out →
      (k, Some v) ∈ vitals ∨
      ∃ r, dict_get Vlm.VALID_RANGES k = Some r ∧ in_range r v = true ∧
           dict_get data k = Some (Vlm.FFloat (Vlm.Finite v)).
Proof.
  induction keys as [|key keys IH]; intros vitals out Hrun k v Hkv.
  - injection Hrun as <-. by left.
  - cbn [Vlm.read_fields] in Hrun.
    destruct (dict_get data key) as [[|value| |]|] eqn:Hd; try done;
      try (by apply (IH _ _ Hrun)).
    destruct (dict_get Vlm.VALID_RANGES key) as [r|] eqn:Hr; [|by apply (IH _ _ Hrun)].
    destruct (Vlm.float_in_range r value) as [q|] eqn:Hq; [|by apply (IH _ _ Hrun)].
    apply float_in_range_spec in Hq as [-> Hq].
    destruct (IH _ _ Hrun k v Hkv) as [Hin|?]; [|by right].
    apply dict_set_elem in Hin as [[-> [= ->]]|Hin]; [|by left].
    right. by exists r.
Qed.

Lemma read_patterns_spec (ps : dict Re.regex) (response_text : list ascii) :
  ∀ vitals out, Vlm.read_patterns ps response_text vitals = Ok out →
    ∀ k v, (k, Some v) ∈ out →
      (k, Some v) ∈ vitals ∨
      ∃ r p m g, dict_get Vlm.VALID_RANGES k = Some r ∧ in_range r v = true ∧
                 (k, p) ∈ ps ∧ Re.search p response_text = Some m ∧
                 Re.group1 m = Some g ∧ py_float g = Some v.
Proof.
  induction ps as [|[key pattern] ps IH]; intros vitals out Hrun k v Hkv.
  - injection Hrun as <-. by left.
  - cbn [Vlm.read_patterns] in Hrun.
    assert (∀ vitals', Vlm.read_patterns ps response_text vitals' = Ok out →
              (k, Some v) ∈ vitals' ∨
              ∃ r p m g, dict_get Vlm.VALID_RANGES k = Some r ∧ in_range r v = true ∧
                (k, p) ∈ (key, pattern) :: ps ∧ Re.search p response_text = Some m ∧
                Re.group1 m = Some g ∧ py_float g = Some v) as Hrest.
    { intros vitals' H'.
      destruct (IH _ _ H' k v Hkv) as [?|(r & p & m & g & H1 & H2 & H3 & H4 & H5 & H6)];
        [by left|].
      right. exists r, p, m, g. split_and!; [done | done | by right | done | done | done]. }
    destruct (Re.search pattern response_text) as [m|] eqn:Hs; [|by apply Hrest].
    destruct (Re.group1 m) as [g|] eqn:Hg; [|done].
    destruct (py_float g) as [value|] eqn:Hf; [|by apply Hrest].
    destruct (dict_get Vlm.VALID_RANGES key) as [r|] eqn:Hr; [|done].
    destruct (in_range r value) eqn:Hin; [|by apply Hrest].
    destruct (Hrest _ Hrun) as [H|H]; [|by right].
    apply dict_set_elem in H as [[-> [= ->]]|H]; [|by left].
    right. exists r, pattern, m, g. split_and!; [done | done | left | done | done | done].
Qed.

(** Every value [parse_vitals_response] keeps lies in the range of its key. *)
Lemma parse_vitals_response_in_range (response_text : string) (loads : Vlm.json_reply)
    (vitals : dict (option Q)) k v :
  Vlm.parse_vitals_response response_text loads = Ok vitals →
  (k, Some v) ∈ vitals →
  ∃ r, dict_get Vlm.VALID_RANGES k = Some r ∧ in_range r v = true.
Proof.
  unfold Vlm.parse_vitals_response. intros Hrun Hkv.
  destruct (Re.search Vlm.braces (chars response_text)).
  - destruct loads as [|msg|data]; [| done |].
    + destruct (read_patterns_spec _ _ _ _ Hrun k v Hkv) as [H|(r & _ & _ & _ & ? & ? & _)].
      * by apply no_vitals_none in H.
      * by exists r.
    + destruct (read_fields_spec _ _ _ _ Hrun k v Hkv) as [H|(r & ? & ? & _)].
      * by apply no_vitals_none in H.
      * by exists r.
  - injection Hrun as <-. by apply no_vitals_none in Hkv.
Qed.

Lemma scan_scores_spec (kinds : dict (list Re.regex)) (txt : list ascii) :
  ∀ vitals scores out out_scores,
    OcrConnector.scan_scores kinds txt vitals scores = Ok (out, out_scores) →
    NoDup (dict_keys vitals) → dict_keys scores = dict_keys vitals →
    Forall (fun kv => snd kv = 0.85%Q) scores →
    NoDup (dict_keys out) ∧
    (∀ k, k ∈ dict_keys out → k ∈ dict_keys vitals ∨ k ∈ dict_keys kinds) ∧
    dict_keys out_scores = dict_keys out ∧
    Forall (fun kv => snd kv = 0.85%Q) out_scores ∧
    (∀ k v, (k, v) ∈ out →
       (k, v) ∈ vitals ∨
       ∃ r, dict_get OcrConnector.VALID_RANGES k = Some r ∧ in_range r v = true ∧
            captured kinds txt k v).
Proof.
  induction kinds as [|[vital_type patterns] kinds IH];
    intros vitals scores out out_scores Hrun Hnd Hkeys Hall.
  - injection Hrun as <- <-. split_and!; [done | by left | done | done | by left].
  - cbn [OcrConnector.scan_scores] in Hrun.
    destruct (scan_patterns (dict_get OcrConnector.VALID_RANGES vital_type) patterns txt)
      as [found|e] eqn:Hscan; [|done].
    cbn [bind] in Hrun.
    assert (∀ k0 v0, captured kinds txt k0 v0 →
                     captured ((vital_type, patterns) :: kinds) txt k0 v0) as Hmono.
    { intros k0 v0 (ps & p & m & g & ? & ?). exists ps, p, m, g. split; [by right | done]. }
    destruct found as [value|].
    + destruct (IH _ _ _ _ Hrun) as (H1 & H2 & H3 & H4 & H5).
      * by apply dict_set_NoDup.
      * by rewrite !dict_keys_set, Hkeys.
      * apply Forall_forall. intros [k c] Hkc.
        apply dict_set_elem in Hkc as [[_ ->]|Hkc]; [done|].
        rewrite Forall_forall in Hall. by apply (Hall (k, c)).
      * split_and!; [done | | done | done |].
        -- intros k Hk. destruct (H2 k Hk) as [H|H]; [|right; by right].
           rewrite dict_keys_set in H. case_bool_decide; [by left|].
           apply elem_of_app in H as [H|H]; [by left|].
           apply list_elem_of_singleton in H as ->. right. left.
        -- intros k v Hkv. destruct (H5 k v Hkv) as [Hin|(r & ? & ? & ?)].
           ++ apply dict_set_elem in Hin as [[-> ->]|Hin]; [|by left].
              right.
              destruct (scan_patterns_spec _ _ _ _ Hscan) as (r & p & m & g & Hr & ? & ? & ?).
              exists r. split_and!; [done | done |].
              exists patterns, p, m, g. split; [left | done].
           ++ right. exists r. split_and!; [done | done | by apply Hmono].
    + destruct (IH _ _ _ _ Hrun Hnd Hkeys Hall) as (H1 & H2 & H3 & H4 & H5).
      split_and!; [done | | done | done |].
      * intros k Hk. destruct (H2 k Hk) as [H|H]; [by left | right; by right].
      * intros k v Hkv. destruct (H5 k v Hkv) as [Hin|(r & ? & ? & ?)]; [by left|].
        right. exists r. split_and!; [done | done | by apply Hmono].
Qed.

(** What [extract_vitals_ocr] returns: a reading over the four kinds with
    every value in range, and a score of 0.85 for each of its kinds. *)
Lemma ocr_extract_spec (frame : ocr_reply * ocr_reply) :
  let vitals := fst (fst (OcrConnector.extract_vitals_ocr frame)) in
  let scores := snd (fst (OcrConnector.extract_vitals_ocr frame)) in
  NoDup (dict_keys vitals) ∧ dict_keys vitals ⊆ KINDS ∧
  dict_keys scores = dict_keys vitals ∧
  Forall (fun kv => snd kv = 0.85%Q) scores ∧
  dict_in_range OcrConnector.VALID_RANGES vitals.
Proof.
  assert (NoDup (dict_keys (@nil (string * Q))) ∧ dict_keys (@nil (string * Q)) ⊆ KINDS ∧
          dict_keys (@nil (string * Q)) = dict_keys (@nil (string * Q)) ∧
          Forall (fun kv : string * Q => snd kv = 0.85%Q) [] ∧
          dict_in_range OcrConnector.VALID_RANGES []) as Hnil.
  { split_and!; [constructor | set_solver | done | constructor |].
    intros k v H. by apply elem_of_nil in H. }
  unfold OcrConnector.extract_vitals_ocr. destruct frame as [[msg|t] [msg'|text_inv]];
    try exact Hnil.
  unfold OcrConnector.extract_vitals_from_text.
  destruct (OcrConnector.scan_scores _ _ _ _) as [[vitals scores]|e] eqn:Hscan;
    [|exact Hnil].
  cbn [fst snd].
  destruct (scan_scores_spec _ _ _ _ _ _ Hscan) as (H1 & H2 & H3 & H4 & H5);
    [constructor | done | constructor |].
  split_and!; [done | | done | done |].
  - intros k Hk. destruct (H2 k Hk) as [H|H]; [by apply elem_of_nil in H | exact H].
  - intros k v Hkv. destruct (H5 k v Hkv) as [H|(r & ? & ? & _)];
      [by apply elem_of_nil in H|]. by exists r.
Qed.

(** Where the values of [extract_vitals_ocr] come from. *)
Lemma ocr_extract_captured (frame : ocr_reply * ocr_reply) k v :
  (k, v) ∈ fst (fst (OcrConnector.extract_vitals_ocr frame)) →
  ∃ r t text_inv,
    dict_get OcrConnector.VALID_RANGES k = Some r ∧ in_range r v = true ∧
    frame = (OcrText t, OcrText text_inv) ∧
    captured OcrConnector.PATTERNS
      (newlines_to_spaces (upper (chars t ++ chars " " ++ chars text_inv))) k v.
Proof.
  unfold OcrConnector.extract_vitals_ocr.
  destruct frame as [[msg|t] [msg'|text_inv]]; cbn [fst];
    try (intros H; by apply elem_of_nil in H).
  unfold OcrConnector.extract_vitals_from_text.
  destruct (OcrConnector.scan_scores _ _ _ _) as [[vitals scores]|e] eqn:Hscan; cbn [fst];
    [|intros H; by apply elem_of_nil in H].
  intros Hkv.
  destruct (scan_scores_spec _ _ _ _ _ _ Hscan) as (_ & _ & _ & _ & H5);
    [constructor | done | constructor |].
  destruct (H5 k v Hkv) as [H|(r & Hr & Hin & Hc)]; [by apply elem_of_nil in H|].
  by exists r, t, text_inv.
Qed.

(** Where the values [parse_vitals_response] keeps come from: the decoded
    object, or the captures of the fallback. *)
Lemma parse_vitals_response_kept (response_text : string) (loads : Vlm.json_reply)
    (vitals : dict (option Q)) k v :
  Vlm.parse_vitals_response response_text loads = Ok vitals →
  (k, Some v) ∈ vitals →
  ∃ r, dict_get Vlm.VALID_RANGES k = Some r ∧ in_range r v = true ∧
       match loads with
       | Vlm.JsonObject data => dict_get data k = Some (Vlm.FFloat (Vlm.Finite v))
       | Vlm.JSONDecodeError =>
           ∃ p m g, (k, p) ∈ Vlm.patterns ∧
                    Re.search p (chars response_text) = Some m ∧
                    Re.group1 m = Some g ∧ py_float g = Some v
       | Vlm.JsonRaises _ => False
       end.
Proof.
  unfold Vlm.parse_vitals_response. intros Hrun Hkv.
  destruct (Re.search Vlm.braces (chars response_text)) as [found|].
  - destruct loads as [|msg|data]; [| done |].
    + destruct (read_patterns_spec _ _ _ _ Hrun k v Hkv)
        as [H|(r & p & m & g & ? & ? & ? & ? & ? & ?)].
      * by apply no_vitals_none in H.
      * exists r. split_and!; [done | done |]. by exists p, m, g.
    + destruct (read_fields_spec _ _ _ _ Hrun k v Hkv) as [H|(r & ? & ? & ?)].
      * by apply no_vitals_none in H.
      * by exists r.
  - injection Hrun as <-. by apply no_vitals_none in Hkv.
Qed.

(** ** C2 *)

(** C2.  Every value in the map an extractor returns lies in the valid range
    of its kind and is, unchanged, one of the values parsed for that kind:
    for [extract_vitals] and [extract_vitals_ocr] a capture of one of the
    patterns of the kind in the text of the frame, for
    [parse_vitals_response] the number the decoded object holds under the
    key or, in the fallback, the capture of the pattern of the key.  So a
    parsed value outside the range is discarded, not clamped: it is not in
    the map under its kind. *)
Theorem extracted_values_in_range :
  (∀ (frame : ocr_reply) k v,
     (k, v) ∈ fst (fst (Production.extract_vitals frame)) →
     ∃ r t, dict_get Production.VALID_RANGES k = Some r ∧
            (fst r <= v)%Q ∧ (v <= snd r)%Q ∧
            frame = OcrText t ∧
            captured Production.PATTERNS (newlines_to_spaces (upper (chars t))) k v) ∧
  (∀ (frame : ocr_reply) k v r,
     dict_get Production.VALID_RANGES k = Some r →
     in_range r v = false →
     (k, v) ∉ fst (fst (Production.extract_vitals frame))) ∧
  (∀ (frame : ocr_reply * ocr_reply) k v,
     (k, v) ∈ fst (fst (OcrConnector.extract_vitals_ocr frame)) →
     ∃ r t text_inv,
       dict_get OcrConnector.VALID_RANGES k = Some r ∧
       (fst r <= v)%Q ∧ (v <= snd r)%Q ∧
       frame = (OcrText t, OcrText text_inv) ∧
       captured OcrConnector.PATTERNS
         (newlines_to_spaces (upper (chars t ++ chars " " ++ chars text_inv))) k v) ∧
  (∀ (frame : ocr_reply * ocr_reply) k v r,
     dict_get OcrConnector.VALID_RANGES k = Some r →
     in_range r v = false →
     (k, v) ∉ fst (fst (OcrConnector.extract_vitals_ocr frame))) ∧
  (∀ (response_text : string) (loads : Vlm.json_reply) (vitals : dict (option Q)) k v,
     Vlm.parse_vitals_response response_text loads = Ok vitals →
     (k, Some v) ∈ vitals →
     ∃ r, dict_get Vlm.VALID_RANGES k = Some r ∧ (fst r <= v)%Q ∧ (v <= snd r)%Q ∧
          match loads with
          | Vlm.JsonObject data => dict_get data k = Some (Vlm.FFloat (Vlm.Finite v))
          | Vlm.JSONDecodeError =>
              ∃ p m g, (k, p) ∈ Vlm.patterns ∧
                       Re.search p (chars response_text) = Some m ∧
                       Re.group1 m = Some g ∧ py_float g = Some v
          | Vlm.JsonRaises _ => False
          end) ∧
  (∀ (response_text : string) (loads : Vlm.json_reply) (vitals : dict (option Q)) k v r,
     Vlm.parse_vitals_response response_text loads = Ok vitals →
     dict_get Vlm.VALID_RANGES k = Some r →
     in_range r v = false →
     (k, Some v) ∉ vitals).
Proof.
  split_and!.
  - intros frame k v Hkv.
    destruct (production_extract_spec frame) as (_ & _ & H).
    destruct (H k v Hkv) as (r & t & Hr & Hin & Hf & Hc).
    apply in_range_spec in Hin as [? ?]. by exists r, t.
  - intros frame k v r Hr Hout Hkv.
    destruct (production_extract_spec frame) as (_ & _ & H).
    destruct (H k v Hkv) as (r' & t & Hr' & Hin & _). congruence.
  - intros frame k v Hkv.
    destruct (ocr_extract_captured frame k v Hkv) as (r & t & text_inv & Hr & Hin & Hf & Hc).
    apply in_range_spec in Hin as [? ?]. by exists r, t, text_inv.
  - intros frame k v r Hr Hout Hkv.
    destruct (ocr_extract_captured frame k v Hkv) as (r' & _ & _ & Hr' & Hin & _).
    congruence.
  - intros response_text loads vitals k v Hrun Hkv.
    destruct (parse_vitals_response_kept _ _ _ _ _ Hrun Hkv) as (r & Hr & Hin & Hfrom).
    apply in_range_spec in Hin as [? ?]. by exists r.
  - intros response_text loads vitals k v r Hrun Hr Hout Hkv.
    destruct (parse_vitals_response_in_range _ _ _ _ _ Hrun Hkv) as (r' & Hr' & Hin).
    congruence.
Qed.

Lemma extracted_values_in_range_witness :
  (∃ r t, dict_get Production.VALID_RANGES "hr" = Some r ∧
          (fst r <= 150)%Q ∧ (150 <= snd r)%Q ∧
          OcrText "HR 300 150 97" = OcrText t ∧
          captured Production.PATTERNS (newlines_to_spaces (upper (chars t))) "hr" 150%Q) ∧
  (∃ r, dict_get Vlm.VALID_RANGES "hr" = Some r ∧ (fst r <= 150)%Q ∧ (150 <= snd r)%Q ∧
        dict_get [("hr", Vlm.FFloat (Vlm.Finite 150)); ("spo2", Vlm.FFloat (Vlm.Finite 300))]
          "hr" = Some (Vlm.FFloat (Vlm.Finite 150))) ∧
  ("spo2", Some 300%Q) ∉
    [("hr", Some 150%Q); ("spo2", None); ("rr", None); ("temp", None);
     ("bp_sys", None); ("bp_dia", None)].
Proof.
  destruct extracted_values_in_range as (Hprod & _ & _ & _ & Hvlm & Hout).
  split_and!.
  - apply (Hprod (OcrText "HR 300 150 97") "hr" 150%Q). vm_compute. left.
  - apply (Hvlm "{}" (Vlm.JsonObject [("hr", Vlm.FFloat (Vlm.Finite 150));
                                       ("spo2", Vlm.FFloat (Vlm.Finite 300))])
             [("hr", Some 150%Q); ("spo2", None); ("rr", None); ("temp", None);
              ("bp_sys", None); ("bp_dia", None)] "hr" 150%Q).
    + by vm_compute.
    + left.
  - apply (Hout "{}" (Vlm.JsonObject [("hr", Vlm.FFloat (Vlm.Finite 150));
                                       ("spo2", Vlm.FFloat (Vlm.Finite 300))])
             [("hr", Some 150%Q); ("spo2", None); ("rr", None); ("temp", None);
              ("bp_sys", None); ("bp_dia", None)] "spo2" 300%Q (70, 100)%Q).
    + by vm_compute.
    + by vm_compute.
    + by vm_compute.
Defined.

(** * The production loop *)

Lemma production_smooth_total (self : Production.VitalSmoother) (vitals : dict Q) :
  wf_history (Production.history self) →
  NoDup (dict_keys vitals) → dict_keys vitals ⊆ KINDS →
  ∃ self' smoothed,
    Production.smooth self vitals = Ok (self', smoothed) ∧
    wf_history (Production.history self') ∧
    dict_keys smoothed = dict_keys vitals.
Proof.
  intros Hwf Hnd Hsub.
  destruct (smooth_items_total vitals _ [] Hwf Hnd Hsub) as (h' & smoothed & Hrun).
  exists {| Production.window_size := Production.window_size self;
            Production.history := h' |}, smoothed.
  split_and!.
  - unfold Production.smooth. by rewrite Hrun.
  - by eapply smooth_items_wf.
  - by rewrite (smooth_items_keys _ _ _ _ _ Hrun).
Qed.

Lemma production_send_vitals_spec (net : network) vitals confidence metadata raw now :
  Production.send_vitals net vitals confidence metadata raw now =
    ({| reply_of := reply_of net;
        posted := posted net ++ [Production.payload vitals confidence metadata raw now] |},
     result_of (reply_of net (length (posted net)))).
Proof.
  unfold Production.send_vitals, requests_post.
  by destruct (reply_of net (length (posted net))).
Qed.

(** One iteration from a well-formed history. *)
Lemma production_tick_spec (st : Production.loop_state) (i : Production.tick_input) :
  wf_history (Production.history (Production.smoother st)) →
  ∃ sm' vitals md confidence, production_tick_post st i sm' vitals md confidence.
Proof.
  intros Hwf.
  destruct (production_smooth_total (Production.smoother st)
              (Production.generate_simulation_vitals (Production.sim i)) Hwf)
    as (smS & vS & HrunS & HwfS & HkS); [compute_done | done |].
  assert (Production.attempt_ocr st i =
            Ok (Production.smoother st, Production.ocr_success st, [], 0.0%Q, SIM) →
          length (production_extracted st i) < 2 →
          ∃ sm' vitals md confidence, production_tick_post st i sm' vitals md confidence)
    as Hsim.
  { intros Ha Hlen.
    exists smS, vS, SIM, (0.87 + uniform 0 0.10 (Production.raw_confidence i))%Q.
    split; [|split; [done | right; done]].
    unfold Production.tick. rewrite Ha. cbn [bind Production.fall_back length Nat.ltb Nat.leb].
    rewrite HrunS. cbn [bind fst snd]. by rewrite production_send_vitals_spec. }
  unfold production_extracted in Hsim. unfold Production.attempt_ocr in Hsim.
  destruct (Production.connected st) eqn:Hc; [|apply Hsim; [done | simpl; lia]].
  destruct (Production.read i) as [|f] eqn:Hread; [apply Hsim; [done | simpl; lia]|].
  destruct (production_extract_spec f) as (Hnd & Hsub & _).
  destruct (Production.extract_vitals f) as [[ocr_vitals ocr_conf] snippet] eqn:Hex.
  cbn [fst] in *.
  destruct (2 <=? length ocr_vitals) eqn:Hq; [|apply Hsim; [done | by apply Nat.leb_gt]].
  clear Hsim.
  destruct (production_smooth_total (Production.smoother st) ocr_vitals Hwf Hnd Hsub)
    as (sm' & vitals & Hrun & Hwf' & Hk).
  assert (length vitals = length ocr_vitals) as Hlen.
  { unfold dict_keys in Hk. by rewrite <- (length_map fst vitals), Hk, length_map. }
  assert (ocr_conf = 0.88%Q) as ->.
  { unfold Production.extract_vitals in Hex. destruct f as [msg|t].
    - injection Hex as <- _ _. done.
    - destruct (scan_kinds _ _ _ _) as [vs|e].
      + injection Hex as <- <- _. by destruct (length vs) as [|[|n]].
      + injection Hex as <- _ _. done. }
  exists sm', vitals, OCR, 0.88%Q.
  unfold production_tick_post, production_extracted. rewrite Hc, Hread, Hex. cbn [fst].
  split; [|split; [done | left; split_and!; [done | by apply Nat.leb_le | done | done | done]]].
  unfold Production.tick, Production.attempt_ocr. rewrite Hc, Hread, Hex.
  rewrite Hq, Hrun. cbn [bind fst snd Production.fall_back].
  assert ((length vitals <? 2) = false) as -> by (apply Nat.ltb_ge; apply Nat.leb_le in Hq; lia).
  cbn [bind]. by rewrite production_send_vitals_spec.
Qed.

(** * The loop of the OCR connector *)

Lemma fold_left_Qplus_const (c : Q) (l : list Q) (a : Q) :
  Forall (fun x => x = c) l →
  (fold_left Qplus l a == a + inject_Z (Z.of_nat (length l)) * c)%Q.
Proof.
  revert a. induction l as [|x l IH]; intros a Hall.
  - simpl. ring.
  - apply Forall_cons in Hall as [-> Hall]. cbn [fold_left]. rewrite (IH _ Hall).
    cbn [length]. rewrite Nat2Z.inj_succ. unfold Z.succ. rewrite inject_Z_plus. ring.
Qed.

Lemma mean_const (c : Q) (d : dict Q) :
  d ≠ [] → Forall (fun kv => snd kv = c) d → (OcrConnector.mean d == c)%Q.
Proof.
  intros Hne Hall. unfold OcrConnector.mean.
  rewrite (fold_left_Qplus_const c).
  - rewrite length_map. field. intros H.
    destruct d; [done|]. simpl in H.
    assert (inject_Z (Z.pos (Pos.of_succ_nat (length d))) == 0 → False)%Q as Hpos.
    { unfold Qeq. simpl. lia. }
    by apply Hpos.
  - apply Forall_fmap. eapply Forall_impl; [exact Hall|]. by intros [k v].
Qed.

Lemma ocr_send_vitals_spec (net : network) vitals confidence ocr_text raw now :
  OcrConnector.send_vitals net vitals confidence ocr_text raw now =
    ({| reply_of := reply_of net;
        posted := posted net ++ [OcrConnector.payload vitals confidence ocr_text raw now] |},
     result_of (reply_of net (length (posted net)))).
Proof.
  unfold OcrConnector.send_vitals, requests_post.
  by destruct (reply_of net (length (posted net))).
Qed.

(** One iteration from a well-formed history. *)
Lemma ocr_tick_spec (st : OcrConnector.loop_state) (i : OcrConnector.tick_input) :
  wf_history (OcrConnector.history st) →
  ∃ h' vitals md confidence, ocr_tick_post st i h' vitals md confidence.
Proof.
  intros Hwf.
  assert (∀ ocr_text,
            OcrConnector.attempt_ocr st i =
              Ok (OcrConnector.history st, OcrConnector.ocr_success_count st,
                  [], 0.0%Q, SIM, ocr_text) →
            ocr_text_of st i = ocr_text →
            length (ocr_extracted st i) < 2 →
            ∃ h' vitals md confidence, ocr_tick_post st i h' vitals md confidence)
    as Hsim.
  { intros ocr_text Ha Ht Hlen.
    exists (OcrConnector.history st),
           (OcrConnector.generate_simulation_vitals (OcrConnector.sim i)), SIM,
           (0.86 + uniform 0 0.10 (OcrConnector.raw_confidence i))%Q.
    split; [|split; [done | right; done]].
    unfold OcrConnector.tick. rewrite Ha. cbn [bind length Nat.ltb Nat.leb].
    by rewrite ocr_send_vitals_spec, Ht. }
  unfold ocr_extracted, ocr_text_of, OcrConnector.attempt_ocr in Hsim.
  destruct (OcrConnector.stream_connected st) eqn:Hc;
    [|apply (Hsim ""%string); [done | done | simpl; lia]].
  destruct (OcrConnector.read i) as [f|] eqn:Hread;
    [|apply (Hsim ""%string); [done | done | simpl; lia]].
  destruct (ocr_extract_spec f) as (Hnd & Hsub & Hkeys & Hall & _).
  destruct (OcrConnector.extract_vitals_ocr f) as [[ocr_vitals ocr_conf] ocr_text] eqn:Hex.
  cbn [fst snd] in *.
  destruct (2 <=? length ocr_vitals) eqn:Hq;
    [|apply (Hsim ocr_text); [done | done | by apply Nat.leb_gt]].
  clear Hsim.
  destruct (smooth_items_total ocr_vitals (OcrConnector.history st) [] Hwf Hnd Hsub)
    as (h' & vitals & Hrun).
  assert (dict_keys vitals = dict_keys ocr_vitals) as Hk.
  { by rewrite (smooth_items_keys _ _ _ _ _ Hrun). }
  assert (length vitals = length ocr_vitals) as Hlen.
  { unfold dict_keys in Hk. by rewrite <- (length_map fst vitals), Hk, length_map. }
  assert (length ocr_conf = length ocr_vitals) as Hlenc.
  { unfold dict_keys in Hkeys. by rewrite <- (length_map fst ocr_conf), Hkeys, length_map. }
  exists h', vitals, OCR, (match ocr_conf with [] => 0.85%Q | _ => OcrConnector.mean ocr_conf end).
  unfold ocr_tick_post, ocr_extracted, ocr_text_of. rewrite Hc, Hread, Hex. cbn [fst snd].
  split_and!.
  - unfold OcrConnector.tick, OcrConnector.attempt_ocr. rewrite Hc, Hread, Hex, Hq.
    unfold OcrConnector.apply_smoothing. rewrite Hrun. cbn [bind fst snd].
    assert ((length vitals <? 2) = false) as ->
      by (apply Nat.ltb_ge; apply Nat.leb_le in Hq; lia).
    by rewrite ocr_send_vitals_spec.
  - by eapply smooth_items_wf.
  - left. split_and!; [done | by apply Nat.leb_le | done | done |].
    destruct ocr_conf as [|kv ocr_conf]; [reflexivity|].
    by apply mean_const.
Qed.

(** * The loop of the VLM extractor *)



(** ** C4 *)


Lemma production_body_mode st i vitals confidence md raw now :
  body_mode (Production.payload vitals confidence (Production.tick_metadata st i md) raw now)
    = Some (mode_str md).
Proof. reflexivity. Qed.



(** ** C5 *)

Lemma random_bounds (raw : Z) : (0 <= random raw)%Q ∧ (random raw < 1)%Q.
Proof.
  unfold random, Qle, Qlt. cbn [Qnum Qden].
  pose proof (Z.mod_pos_bound raw (2 ^ 53) ltac:(lia)) as H.
  change (Z.pos (2 ^ 53)) with (2 ^ 53)%Z. lia.
Qed.

Lemma uniform_bounds (a b : Q) (raw : Z) :
  (a <= b)%Q → (a <= uniform a b raw)%Q ∧ (uniform a b raw <= b)%Q.
Proof.
  intros Hab. unfold uniform. destruct (random_bounds raw) as [H0 H1].
  split.
  - assert (0 <= (b - a) * random raw)%Q; [|lra].
    apply Qmult_le_0_compat; lra.
  - assert (random raw * (b - a) <= 1 * (b - a))%Q; [|lra].
    apply Qmult_le_compat_r; lra.
Qed.

Lemma production_extract_confidence (frame : ocr_reply) :
  snd (fst (Production.extract_vitals frame)) = 0.88%Q ∨
  snd (fst (Production.extract_vitals frame)) = 0.0%Q.
Proof.
  unfold Production.extract_vitals. destruct frame as [msg|t]; [by right|].
  destruct (scan_kinds _ _ _ _) as [vitals|e]; [|by right].
  cbn [fst snd]. destruct (2 <=? length vitals); [by left | by right].
Qed.

Lemma vlm_confidence_bounds (frame : Vlm.vlm_reply) (elapsed_ms : Q) :
  let confidence := snd (fst (fst (Vlm.extract_vitals_vlm frame elapsed_ms))) in
  (0 <= confidence)%Q ∧ (confidence <= 0.95)%Q.
Proof.
  unfold Vlm.extract_vitals_vlm. destruct frame as [msg|response_text loads].
  - cbn. lra.
  - destruct (Vlm.parse_vitals_response response_text loads) as [vitals|e];
      cbn [fst snd]; [|lra].
    unfold py_min.
    assert (0 <= inject_Z (Z.of_nat (Vlm.valid_count vitals)))%Q as Hn.
    { unfold Qle. simpl. lia. }
    destruct (Qle_bool 0.95 _) eqn:E; [lra|].
    apply Qle_bool_false in E. lra.
Qed.

(** C5.  Every confidence the pipeline submits lies in [0, 1]: the one of an
    iteration of the production loop and of the loop of the OCR connector
    (OCR or simulated), the one [extract_vitals] and [extract_vitals_vlm]
    return, which the VLM loop posts unchanged, and the one of the mock
    loop.  Floats being rationals here, a confidence is never a NaN. *)
Theorem confidence_in_unit_interval :
  (∀ (st : Production.loop_state) (i : Production.tick_input),
     wf_history (Production.history (Production.smoother st)) →
     ∃ st' out, Production.tick st i = Ok (st', out) ∧
                (0 <= Production.out_confidence out)%Q ∧
                (Production.out_confidence out <= 1)%Q) ∧
  (∀ (st : OcrConnector.loop_state) (i : OcrConnector.tick_input),
     wf_history (OcrConnector.history st) →
     ∃ st' out, OcrConnector.tick st i = Ok (st', out) ∧
                (0 <= OcrConnector.out_confidence out)%Q ∧
                (OcrConnector.out_confidence out <= 1)%Q) ∧
  (∀ frame : ocr_reply,
     (0 <= snd (fst (Production.extract_vitals frame)))%Q ∧
     (snd (fst (Production.extract_vitals frame)) <= 1)%Q) ∧
  (∀ (frame : Vlm.vlm_reply) (elapsed_ms : Q),
     (0 <= snd (fst (fst (Vlm.extract_vitals_vlm frame elapsed_ms))))%Q ∧
     (snd (fst (fst (Vlm.extract_vitals_vlm frame elapsed_ms))) <= 1)%Q) ∧
  (∀ i : Mock.tick_input,
     (0 <= Mock.confidence i)%Q ∧ (Mock.confidence i <= 1)%Q).
Proof.
  split_and!.
  - intros st i Hwf.
    destruct (production_tick_spec st i Hwf)
      as (sm' & vitals & md & confidence & Htick & _ & Hcase).
    eexists _, _. split; [exact Htick|]. cbn.
    destruct Hcase as [(_ & _ & _ & _ & ->)|(_ & _ & _ & _ & ->)]; [lra|].
    destruct (uniform_bounds 0 0.10 (Production.raw_confidence i)); lra.
  - intros st i Hwf.
    destruct (ocr_tick_spec st i Hwf)
      as (h' & vitals & md & confidence & Htick & _ & Hcase).
    eexists _, _. split; [exact Htick|]. cbn.
    destruct Hcase as [(_ & _ & _ & _ & Hc)|(_ & _ & _ & _ & ->)]; [rewrite Hc; lra|].
    destruct (uniform_bounds 0 0.10 (OcrConnector.raw_confidence i)); lra.
  - intros frame. destruct (production_extract_confidence frame) as [-> | ->]; lra.
  - intros frame elapsed_ms. destruct (vlm_confidence_bounds frame elapsed_ms). lra.
  - intros i. unfold Mock.confidence.
    destruct (uniform_bounds 0 0.12 (Mock.raw_confidence i)); lra.
Qed.

Lemma confidence_in_unit_interval_witness :
  ∃ st' out,
    Production.tick (Production.start false {| reply_of := fun _ => HttpRaises "timeout";
                                               posted := [] |})
      {| Production.read := NoFrame;
         Production.latency := 0%Q; Production.drop_rate := 0%Q;
         Production.sim := {| Production.raw_hr := 7; Production.raw_spo2 := 2;
                              Production.raw_rr := 3; Production.raw_temp := 0 |};
         Production.raw_confidence := 2 ^ 52; Production.raw_inference := 3;
         Production.now := "2025-01-01T00:00:00Z" |} = Ok (st', out) ∧
    (0 <= Production.out_confidence out)%Q ∧ (Production.out_confidence out <= 1)%Q.
Proof.
  apply (proj1 confidence_in_unit_interval). split.
  - apply Forall_forall. compute_done.
  - change (map_Forall (fun _ d => maxlen d = 5 ∧ length (items d) ≤ 5)
              (Production.history Production.VitalSmoother_default)).
    compute_done.
Defined.

(** ** C6 *)

Lemma prune_no_null (d : list (string * json)) : no_null (prune d).
Proof.
  unfold no_null, prune. induction d as [|[k v] d IH]; simpl; [constructor|].
  destruct (is_none v) eqn:E; simpl; [done|]. by constructor.
Qed.

Lemma is_none_int_entry (vitals : dict Q) k :
  is_none (int_entry vitals k) = negb (truthy (dict_get vitals k)).
Proof.
  unfold int_entry. destruct (dict_get vitals k) as [v|]; [|done].
  by destruct (truthy (Some v)).
Qed.

Lemma is_none_round_entry (vitals : dict Q) k :
  is_none (round_entry vitals k) = negb (truthy (dict_get vitals k)).
Proof.
  unfold round_entry. destruct (dict_get vitals k) as [v|]; [|done].
  by destruct (truthy (Some v)).
Qed.

Lemma is_none_vlm_int_entry (vitals : dict (option Q)) k :
  is_none (Vlm.int_entry vitals k) = negb (truthy (Vlm.get vitals k)).
Proof.
  unfold Vlm.int_entry. destruct (Vlm.get vitals k) as [v|]; [|done].
  by destruct (truthy (Some v)).
Qed.

Lemma is_none_vlm_round_entry (vitals : dict (option Q)) k :
  is_none (Vlm.round_entry vitals k) = negb (truthy (Vlm.get vitals k)).
Proof.
  unfold Vlm.round_entry. destruct (Vlm.get vitals k) as [v|]; [|done].
  by destruct (truthy (Some v)).
Qed.

(** The keys of the pruned object are the kinds with a truthy value. *)
Lemma pruned_keys (vitals : dict Q) :
  dict_keys (prune [ ("hr", int_entry vitals "hr"); ("spo2", int_entry vitals "spo2");
                     ("rr", int_entry vitals "rr"); ("temp", round_entry vitals "temp") ])
  = List.filter (fun k => truthy (dict_get vitals k)) KINDS.
Proof.
  unfold prune, KINDS. cbn [List.filter snd].
  rewrite !is_none_int_entry, is_none_round_entry.
  by destruct (truthy (dict_get vitals "hr")), (truthy (dict_get vitals "spo2")),
       (truthy (dict_get vitals "rr")), (truthy (dict_get vitals "temp")).
Qed.

Lemma vlm_pruned_keys (vitals : dict (option Q)) :
  dict_keys (Vlm.payload_vitals vitals)
  = List.filter (fun k => truthy (Vlm.get vitals k)) KINDS.
Proof.
  unfold Vlm.payload_vitals, prune, KINDS. cbn [List.filter snd].
  rewrite !is_none_vlm_int_entry, is_none_vlm_round_entry.
  by destruct (truthy (Vlm.get vitals "hr")), (truthy (Vlm.get vitals "spo2")),
       (truthy (Vlm.get vitals "rr")), (truthy (Vlm.get vitals "temp")).
Qed.

(** C6.  The ["vitals"] object of every body the connectors post has no
    null entry, and its keys are exactly the kinds whose value in the
    reading is present and truthy (not [None], not zero): for the pruning
    [send_vitals] of the production script, of the OCR connector and of the
    VLM extractor, which post that body (the last one only when the object
    is not empty), and for the mock connector, whose loop only ever sends the
    four generated values. *)
Theorem payload_vitals_never_null :
  (∀ (net : network) (vitals : dict Q) confidence metadata raw now,
     ∃ vs,
       posted (fst (Production.send_vitals net vitals confidence metadata raw now))
         = posted net ++ [Production.payload vitals confidence metadata raw now] ∧
       body_vitals (Production.payload vitals confidence metadata raw now) = Some vs ∧
       no_null vs ∧
       dict_keys vs = List.filter (fun k => truthy (dict_get vitals k)) KINDS) ∧
  (∀ (net : network) (vitals : dict Q) confidence ocr_text raw now,
     ∃ vs,
       posted (fst (OcrConnector.send_vitals net vitals confidence ocr_text raw now))
         = posted net ++ [OcrConnector.payload vitals confidence ocr_text raw now] ∧
       body_vitals (OcrConnector.payload vitals confidence ocr_text raw now) = Some vs ∧
       no_null vs ∧
       dict_keys vs = List.filter (fun k => truthy (dict_get vitals k)) KINDS) ∧
  (∀ (net : network) (vitals : dict (option Q)) confidence inference_time vlm_response now,
     ∃ vs,
       posted (fst (Vlm.send_vitals net vitals confidence inference_time vlm_response now))
         = posted net ++
           match vs with
           | [] => []
           | _ => [Vlm.payload vitals confidence inference_time vlm_response now]
           end ∧
       body_vitals (Vlm.payload vitals confidence inference_time vlm_response now) = Some vs ∧
       no_null vs ∧
       dict_keys vs = List.filter (fun k => truthy (Vlm.get vitals k)) KINDS) ∧
  (∀ (st : network * nat) (i : Mock.tick_input),
     ∃ body vs,
       posted (fst (fst (Mock.tick st i))) = posted (fst st) ++ [body] ∧
       body_vitals body = Some vs ∧ no_null vs ∧ dict_keys vs = KINDS).
Proof.
  split_and!.
  - intros net vitals confidence metadata raw now.
    eexists. split_and!.
    + by rewrite production_send_vitals_spec.
    + reflexivity.
    + apply prune_no_null.
    + apply pruned_keys.
  - intros net vitals confidence ocr_text raw now.
    eexists. split_and!.
    + by rewrite ocr_send_vitals_spec.
    + reflexivity.
    + apply prune_no_null.
    + apply pruned_keys.
  - intros net vitals confidence inference_time vlm_response now.
    exists (Vlm.payload_vitals vitals). split_and!.
    + unfold Vlm.send_vitals. destruct (Vlm.payload_vitals vitals) as [|kv rest].
      * by rewrite app_nil_r.
      * unfold requests_post. by destruct (reply_of net (length (posted net))).
    + reflexivity.
    + apply prune_no_null.
    + apply vlm_pruned_keys.
  - intros [net n] i. eexists _, _. split_and!.
    + unfold Mock.tick, Mock.send_vitals, requests_post. cbn [fst snd].
      by destruct (reply_of net (length (posted net))).
    + reflexivity.
    + repeat constructor.
    + reflexivity.
Qed.

(** ** C7 *)

Lemma production_tick_post_det (st : Production.loop_state) (i : Production.tick_input)
    sm1 v1 md1 c1 sm2 v2 md2 c2 (st2 : Production.loop_state) :
  Production.connected st2 = Production.connected st →
  Production.smoother st2 = Production.smoother st →
  production_tick_post st i sm1 v1 md1 c1 →
  production_tick_post st2 i sm2 v2 md2 c2 →
  sm2 = sm1 ∧ v2 = v1 ∧ md2 = md1 ∧ c2 = c1.
Proof.
  intros Hc Hs (_ & _ & H1) (_ & _ & H2).
  assert (production_extracted st2 i = production_extracted st i) as He.
  { unfold production_extracted. by rewrite Hc. }
  rewrite He, Hs in H2.
  destruct H1 as [(-> & Hlen1 & Hrun1 & _ & ->)|(-> & Hlen1 & Hrun1 & _ & ->)],
           H2 as [(-> & Hlen2 & Hrun2 & _ & ->)|(-> & Hlen2 & Hrun2 & _ & ->)];
    try lia; rewrite Hrun1 in Hrun2; by injection Hrun2 as -> ->.
Qed.

Lemma ocr_tick_post_det (st : OcrConnector.loop_state) (i : OcrConnector.tick_input)
    h1 v1 md1 c1 h2 v2 md2 c2 (st2 : OcrConnector.loop_state) :
  OcrConnector.stream_connected st2 = OcrConnector.stream_connected st →
  OcrConnector.history st2 = OcrConnector.history st →
  ocr_tick_post st i h1 v1 md1 c1 →
  ocr_tick_post st2 i h2 v2 md2 c2 →
  h2 = h1 ∧ v2 = v1 ∧ md2 = md1.
Proof.
  intros Hc Hs (_ & _ & H1) (_ & _ & H2).
  assert (ocr_extracted st2 i = ocr_extracted st i) as He.
  { unfold ocr_extracted. by rewrite Hc. }
  rewrite He, Hs in H2.
  destruct H1 as [(-> & Hlen1 & Hrun1 & _)|(-> & Hlen1 & -> & -> & _)],
           H2 as [(-> & Hlen2 & Hrun2 & _)|(-> & Hlen2 & -> & -> & _)];
    try lia; [|done].
  rewrite Hrun1 in Hrun2. by injection Hrun2 as -> ->.
Qed.

(** C7.  When the POST fails, each [send_vitals] returns the dictionary
    [{"error": str(e)}] and has made that one request and no other.  In the
    production loop and in the loop of the OCR connector an iteration makes
    exactly one request, and the state it leaves (buffers, counters, the
    requests made) and the reading it shows are the same whatever the
    endpoint answers: a failed reading changes nothing else and is not sent
    again. *)
Theorem failed_post_is_dropped :
  (∀ (net : network) (vitals : dict Q) confidence metadata raw now msg,
     reply_of net (length (posted net)) = HttpRaises msg →
     Production.send_vitals net vitals confidence metadata raw now =
       ({| reply_of := reply_of net;
           posted := posted net ++ [Production.payload vitals confidence metadata raw now] |},
        JDict [("error", JText msg)])) ∧
  (∀ (net : network) (vitals : dict Q) confidence ocr_text raw now msg,
     reply_of net (length (posted net)) = HttpRaises msg →
     OcrConnector.send_vitals net vitals confidence ocr_text raw now =
       ({| reply_of := reply_of net;
           posted := posted net ++ [OcrConnector.payload vitals confidence ocr_text raw now] |},
        JDict [("error", JText msg)])) ∧
  (∀ (net : network) (vitals : dict (option Q)) confidence inference_time vlm_response now msg,
     Vlm.payload_vitals vitals ≠ [] →
     reply_of net (length (posted net)) = HttpRaises msg →
     Vlm.send_vitals net vitals confidence inference_time vlm_response now =
       ({| reply_of := reply_of net;
           posted := posted net ++
             [Vlm.payload vitals confidence inference_time vlm_response now] |},
        JDict [("error", JText msg)])) ∧
  (∀ (net : network) (vitals : list (string * json)) confidence raw now msg,
     reply_of net (length (posted net)) = HttpRaises msg →
     Mock.send_vitals net vitals confidence raw now =
       ({| reply_of := reply_of net;
           posted := posted net ++ [Mock.payload vitals confidence raw now] |},
        JDict [("error", JText msg)])) ∧
  (∀ (st : Production.loop_state) (i : Production.tick_input),
     wf_history (Production.history (Production.smoother st)) →
     ∃ st' out,
       Production.tick st i = Ok (st', out) ∧
       length (posted (Production.net st')) = S (length (posted (Production.net st))) ∧
       Production.out_result out
         = result_of (reply_of (Production.net st) (length (posted (Production.net st)))) ∧
       ∀ g : nat -> http_reply,
         ∃ out_g,
           Production.tick (production_with_replies g st) i
             = Ok (production_with_replies g st', out_g) ∧
           Production.out_mode out_g = Production.out_mode out ∧
           Production.out_vitals out_g = Production.out_vitals out ∧
           Production.out_confidence out_g = Production.out_confidence out) ∧
  (∀ (st : OcrConnector.loop_state) (i : OcrConnector.tick_input),
     wf_history (OcrConnector.history st) →
     ∃ st' out,
       OcrConnector.tick st i = Ok (st', out) ∧
       length (posted (OcrConnector.net st')) = S (length (posted (OcrConnector.net st))) ∧
       OcrConnector.out_result out
         = result_of (reply_of (OcrConnector.net st) (length (posted (OcrConnector.net st)))) ∧
       ∀ g : nat -> http_reply,
         ∃ st_g out_g,
           OcrConnector.tick (ocr_with_replies g st) i = Ok (st_g, out_g) ∧
           OcrConnector.history st_g = OcrConnector.history st' ∧
           OcrConnector.ocr_success_count st_g = OcrConnector.ocr_success_count st' ∧
           OcrConnector.sim_count st_g = OcrConnector.sim_count st' ∧
           OcrConnector.total_count st_g = OcrConnector.total_count st' ∧
           length (posted (OcrConnector.net st_g)) = length (posted (OcrConnector.net st')) ∧
           OcrConnector.out_mode out_g = OcrConnector.out_mode out ∧
           OcrConnector.out_vitals out_g = OcrConnector.out_vitals out).
Proof.
  split_and!.
  - intros net vitals confidence metadata raw now msg Hr.
    by rewrite production_send_vitals_spec, Hr.
  - intros net vitals confidence ocr_text raw now msg Hr.
    by rewrite ocr_send_vitals_spec, Hr.
  - intros net vitals confidence inference_time vlm_response now msg Hne Hr.
    unfold Vlm.send_vitals, requests_post.
    destruct (Vlm.payload_vitals vitals); [done|]. by rewrite Hr.
  - intros net vitals confidence raw now msg Hr.
    unfold Mock.send_vitals, requests_post. by rewrite Hr.
  - intros st i Hwf.
    destruct (production_tick_spec st i Hwf) as (sm' & vitals & md & c & Hpost).
    pose proof Hpost as (Htick & _ & _).
    eexists _, _. split; [exact Htick|]. cbn.
    split_and!; [rewrite length_app; simpl; lia | done |].
    intros g.
    destruct (production_tick_spec (production_with_replies g st) i Hwf)
      as (sm2 & v2 & md2 & c2 & Hpost2).
    destruct (production_tick_post_det st i _ _ _ _ _ _ _ _
                (production_with_replies g st) eq_refl eq_refl Hpost Hpost2)
      as (-> & -> & -> & ->).
    destruct Hpost2 as (Htick2 & _ & _).
    eexists. split; [exact Htick2|]. done.
  - intros st i Hwf.
    destruct (ocr_tick_spec st i Hwf) as (h' & vitals & md & c & Hpost).
    pose proof Hpost as (Htick & _ & _).
    eexists _, _. split; [exact Htick|]. cbn.
    split_and!; [rewrite length_app; simpl; lia | done |].
    intros g.
    destruct (ocr_tick_spec (ocr_with_replies g st) i Hwf)
      as (h2 & v2 & md2 & c2 & Hpost2).
    destruct (ocr_tick_post_det st i _ _ _ _ _ _ _ _
                (ocr_with_replies g st) eq_refl eq_refl Hpost Hpost2)
      as (-> & -> & ->).
    destruct Hpost2 as (Htick2 & _ & _).
    eexists _, _. split; [exact Htick2|]. cbn.
    split_and!; try done. by rewrite !length_app.
Qed.

Lemma failed_post_is_dropped_witness :
  Production.send_vitals {| reply_of := fun _ => HttpRaises "timed out"; posted := [] |}
    [("hr", 150%Q)] 0.88%Q [] 0 "2025-01-01T00:00:00Z" =
  ({| reply_of := fun _ => HttpRaises "timed out";
      posted := [] ++ [Production.payload [("hr", 150%Q)] 0.88%Q [] 0 "2025-01-01T00:00:00Z"] |},
   JDict [("error", JText "timed out")]).
Proof.
  apply (proj1 failed_post_is_dropped
           {| reply_of := fun _ => HttpRaises "timed out"; posted := [] |}).
  reflexivity.
Defined.

(** ** C9 *)

(** One call of [smooth], seen from the kind [k]. *)
Lemma smooth_kind (self : Production.VitalSmoother) (vitals : dict Q) k d :
  wf_history (Production.history self) →
  NoDup (dict_keys vitals) → dict_keys vitals ⊆ KINDS →
  Production.history self !! k = Some d →
  ∃ self' smoothed,
    Production.smooth self vitals = Ok (self', smoothed) ∧
    wf_history (Production.history self') ∧
    match dict_get vitals k with
    | Some v =>
        Production.history self' !! k = Some (fst (push1 d v)) ∧
        dict_get smoothed k = Some (snd (push1 d v))
    | None =>
        Production.history self' !! k = Some d ∧ dict_get smoothed k = None
    end.
Proof.
  intros Hwf Hnd Hsub Hd.
  destruct (smooth_items_spec vitals (Production.history self) [] Hnd)
    as (h' & smoothed & Hrun & Hout & Hin).
  { intros k0 Hk0. apply Hwf. by apply Hsub. }
  exists {| Production.window_size := Production.window_size self;
            Production.history := h' |}, smoothed.
  split_and!.
  - unfold Production.smooth. by rewrite Hrun.
  - by eapply smooth_items_wf.
  - cbn [Production.history]. destruct (dict_get vitals k) as [v|] eqn:Hget.
    + destruct (Hin k v (dict_get_elem _ _ _ Hget)) as (d0 & m & Hd0 & Hh' & Hs & Hge & Hlt).
      rewrite Hd in Hd0. injection Hd0 as <-.
      split; [done|]. rewrite Hs. f_equal. unfold push1. cbn [snd].
      destruct (3 <=? length (items (deque_append d v))) eqn:E.
      * apply Nat.leb_le in E. destruct (Hge E) as [-> _]. done.
      * apply Nat.leb_gt in E. by apply Hlt.
    + apply dict_get_None in Hget. destruct (Hout k Hget) as [-> ->]. done.
Qed.

(** A run of [smooth], seen from the kind [k], is the median filter [track]
    over the samples of [k]. *)
Lemma smooth_all_kind (k : string) (readings : list (dict Q)) :
  ∀ (self : Production.VitalSmoother) (d : deque),
    wf_history (Production.history self) →
    Forall (fun vitals => NoDup (dict_keys vitals) ∧ dict_keys vitals ⊆ KINDS) readings →
    Production.history self !! k = Some d →
    ∃ self' outs,
      smooth_all self readings = Ok (self', outs) ∧
      Production.history self' !! k
        = Some (fst (track d (map (fun r => dict_get r k) readings))) ∧
      map (fun o => dict_get o k) outs
        = snd (track d (map (fun r => dict_get r k) readings)).
Proof.
  induction readings as [|vitals readings IH]; intros self d Hwf Hall Hd.
  - by exists self, [].
  - apply Forall_cons in Hall as [[Hnd Hsub] Hall].
    destruct (smooth_kind self vitals k d Hwf Hnd Hsub Hd)
      as (self1 & s1 & Hrun & Hwf1 & Hk).
    cbn [smooth_all map track]. rewrite Hrun. cbn [bind fst snd].
    destruct (dict_get vitals k) as [v|].
    + destruct Hk as [Hh1 Hs1].
      destruct (IH self1 _ Hwf1 Hall Hh1) as (self' & outs & Hrest & Hh' & Houts).
      exists self', (s1 :: outs). rewrite Hrest. cbn [bind fst snd map].
      destruct (push1 d v) as [d1 m]. cbn [fst snd] in *.
      destruct (track d1 _) as [d' os]. cbn [fst snd] in *.
      by rewrite Hs1, Houts.
    + destruct Hk as [Hh1 Hs1].
      destruct (IH self1 _ Hwf1 Hall Hh1) as (self' & outs & Hrest & Hh' & Houts).
      exists self', (s1 :: outs). rewrite Hrest. cbn [bind fst snd map].
      destruct (track d _) as [d' os]. cbn [fst snd] in *.
      by rewrite Hs1, Houts.
Qed.

(** A frame that shows an out-of-range heart rate yields no heart rate. *)
Lemma hr_out_of_range_discarded (frame : ocr_reply) (v : Q) :
  hr_candidates_are frame v → in_range (80, 200)%Q v = false → hr_of frame = None.
Proof.
  intros (t & -> & Hcand) Hout. unfold hr_of.
  destruct (dict_get _ "hr") as [x|] eqn:Hget; [|done].
  destruct (production_extract_spec (OcrText t)) as (_ & _ & H).
  destruct (H "hr" x (dict_get_elem _ _ _ Hget)) as (r & t' & Hr & Hin & Ht & Hc).
  injection Ht as <-. rewrite (Hcand x Hc) in Hin.
  vm_compute in Hr. injection Hr as <-. congruence.
Qed.

(** C9.  Five frames that show the heart rates 150, 152, 300, 148, 151 in
    this order are extracted and smoothed, from the fresh smoother, without
    an exception; the frame showing 300 yields no heart rate, so that 300
    never enters the buffer, which ends as 150, 152, 148, 151; the smoothed
    heart rates are 150, 152, none, 150 and finally 151, within
    [148, 152]. *)
Theorem hr_scenario (f1 f2 f3 f4 f5 : ocr_reply) :
  hr_of f1 = Some 150%Q → hr_of f2 = Some 152%Q → hr_candidates_are f3 300%Q →
  hr_of f4 = Some 148%Q → hr_of f5 = Some 151%Q →
  hr_of f3 = None ∧
  ∃ self' outs,
    extract_and_smooth Production.VitalSmoother_default [f1; f2; f3; f4; f5]
      = Ok (self', outs) ∧
    Production.history self' !! "hr"
      = Some {| maxlen := 5; items := [150; 152; 148; 151]%Q |} ∧
    (300%Q ∉ [150; 152; 148; 151]%Q) ∧
    map (fun o => dict_get o "hr") outs
      = [Some 150; Some 152; None; Some 150; Some 151]%Q ∧
    (148 <= 151)%Q ∧ (151 <= 152)%Q.
Proof.
  intros H1 H2 H3 H4 H5.
  assert (hr_of f3 = None) as H3' by (by apply (hr_out_of_range_discarded f3 300%Q)).
  split; [done|].
  destruct (smooth_all_kind "hr"
              (map (fun f => fst (fst (Production.extract_vitals f))) [f1; f2; f3; f4; f5])
              Production.VitalSmoother_default (deque_new 5) wf_production_default)
    as (self' & outs & Hrun & Hh & Houts).
  { cbn [map].
    repeat (apply Forall_cons; split;
            [match goal with
             | |- NoDup (dict_keys (fst (fst (Production.extract_vitals ?f)))) ∧ _ =>
                 destruct (production_extract_spec f) as (? & ? & _); done
             end|]).
    apply Forall_nil_2. }
  { reflexivity. }
  exists self', outs. split; [exact Hrun|].
  cbn [map] in Hh, Houts. unfold hr_of in H1, H2, H3', H4, H5.
  rewrite H1, H2, H3', H4, H5 in Hh, Houts.
  split_and!; [exact Hh | | exact Houts | by vm_compute | by vm_compute].
  intros Hin. repeat (apply elem_of_cons in Hin as [Hin|Hin]; [discriminate Hin|]).
  by apply elem_of_nil in Hin.
Qed.

Lemma hr_scenario_witness :
  hr_of (OcrText "HR 300") = None ∧
  ∃ self' outs,
    extract_and_smooth Production.VitalSmoother_default
      [OcrText "HR 150"; OcrText "HR 152"; OcrText "HR 300";
       OcrText "HR 148"; OcrText "HR 151"] = Ok (self', outs) ∧
    Production.history self' !! "hr"
      = Some {| maxlen := 5; items := [150; 152; 148; 151]%Q |} ∧
    (300%Q ∉ [150; 152; 148; 151]%Q) ∧
    map (fun o => dict_get o "hr") outs
      = [Some 150; Some 152; None; Some 150; Some 151]%Q ∧
    (148 <= 151)%Q ∧ (151 <= 152)%Q.
Proof.
  apply (hr_scenario (OcrText "HR 150") (OcrText "HR 152") (OcrText "HR 300")
           (OcrText "HR 148") (OcrText "HR 151")).
  - vm_compute. reflexivity.
  - vm_compute. reflexivity.
  - exists "HR 300"%string. split; [reflexivity|].
    intros x (ps & p & m & g & Hps & Hp & Hs & Hg & Hf).
    unfold Production.PATTERNS in Hps.
    apply elem_of_cons in Hps as [Hps|Hps].
    + injection Hps as ->.
      repeat (apply elem_of_cons in Hp as [Hp|Hp];
              [rewrite Hp in Hs; vm_compute in Hs;
               try discriminate Hs; injection Hs as Hs; rewrite <- Hs in Hg;
               vm_compute in Hg; injection Hg as Hg; rewrite <- Hg in Hf;
               vm_compute in Hf; injection Hf as Hf; symmetry; exact Hf|]).
      by apply elem_of_nil in Hp.
    + repeat (apply elem_of_cons in Hps as [Hps|Hps]; [discriminate Hps|]).
      by apply elem_of_nil in Hps.
  - vm_compute. reflexivity.
  - vm_compute. reflexivity.
Defined.

(** The same scenario in the production loop itself, with frames that show
    an oxygen saturation next to the heart rate, so that every reading has
    its quorum: the five readings go out in mode OCR and the heart rates
    shown are again 150, 152, none, 150, 151. *)
Lemma hr_scenario_in_loop :
  let frame t :=
    {| Production.read := Frame (OcrText t);
       Production.latency := 12%Q; Production.drop_rate := 0%Q;
       Production.sim := {| Production.raw_hr := 0; Production.raw_spo2 := 0;
                            Production.raw_rr := 0; Production.raw_temp := 0 |};
       Production.raw_confidence := 0; Production.raw_inference := 0;
       Production.now := "2025-01-01T00:00:00Z" |} in
  let run :=
    Production.run_loop
      (Production.start true {| reply_of := fun _ => HttpRaises "timeout"; posted := [] |})
      [frame "HR 150 SPO2 97"; frame "HR 152 SPO2 97"; frame "HR 300 SPO2 97";
       frame "HR 148 SPO2 97"; frame "HR 151 SPO2 97"] in
  ∃ st' outs,
    run = Ok (st', outs) ∧
    Production.history (Production.smoother st') !! "hr"
      = Some {| maxlen := 5; items := [150; 152; 148; 151]%Q |} ∧
    map Production.out_mode outs = [OCR; OCR; OCR; OCR; OCR] ∧
    map (fun o => dict_get (Production.out_vitals o) "hr") outs
      = [Some 150; Some 152; None; Some 150; Some 151]%Q.
Proof.
  cbv zeta.
  match goal with
  | |- ∃ st' outs, ?r = _ ∧ _ => destruct r as [[st' outs]|e] eqn:E
  end; [|vm_compute in E; discriminate E].
  exists st', outs. split; [reflexivity|].
  vm_compute in E. injection E as <- <-. vm_compute. done.
Qed.

(** ** The parsing of a text raises nothing *)

Section Captures.
Context {R : Type}.

Lemma rep_result (p : Re.cls) (s : list ascii) :
  ∀ lo hi prev cap (k : @Re.cont R) x,
    Re.rep p lo hi prev s cap k = Some x → ∃ prev' s', k prev' s' cap = Some x.
Proof.
  induction s as [|c s IH]; intros lo hi prev cap k x Hrun; cbn [Re.rep] in Hrun.
  - destruct (lo =? 0); [by eexists _, _ | done].
  - destruct (p c && Re.more hi).
    + destruct (Re.rep p (pred lo) (Re.dec hi) (Some c) s cap k) as [y|] eqn:Hrec.
      * injection Hrun as <-. by apply (IH _ _ _ _ _ _ Hrec).
      * destruct (lo =? 0); [by eexists _, _ | done].
    + destruct (lo =? 0); [by eexists _, _ | done].
Qed.

Lemma run_result (r : Re.regex) :
  ∀ prev s cap (k : @Re.cont R) x,
    Re.run r prev s cap k = Some x →
    ∃ prev' s' cap', k prev' s' cap' = Some x ∧
                     (captures r = true ∨ cap ≠ None → cap' ≠ None).
Proof.
  induction r as [|p|p lo hi|r1 IH1 r2 IH2|r1 IH1 r2 IH2|r1 IH1|p|p];
    intros prev s cap k x Hrun; cbn [Re.run captures] in *.
  - exists prev, s, cap. split; [done|]. by intros [|].
  - destruct s as [|c s]; [done|]. destruct (p c); [|done].
    exists (Some c), s, cap. split; [done|]. by intros [|].
  - destruct (rep_result _ _ _ _ _ _ _ _ Hrun) as (prev' & s' & Hk).
    exists prev', s', cap. split; [done|]. by intros [|].
  - destruct (IH1 _ _ _ _ _ Hrun) as (p1 & s1 & c1 & Hrun2 & H1).
    destruct (IH2 _ _ _ _ _ Hrun2) as (p2 & s2 & c2 & Hk & H2).
    exists p2, s2, c2. split; [done|].
    intros [Hc|Hcap].
    + apply orb_true_iff in Hc as [Hc|Hc]; [|apply H2; by left].
      apply H2. right. apply H1. by left.
    + apply H2. right. apply H1. by right.
  - destruct (Re.run r1 prev s cap k) as [y|] eqn:Hfirst.
    + injection Hrun as <-.
      destruct (IH1 _ _ _ _ _ Hfirst) as (p1 & s1 & c1 & Hk & H1).
      exists p1, s1, c1. split; [done|].
      intros [Hc|Hcap]; [|apply H1; by right].
      apply andb_true_iff in Hc as [Hc _]. apply H1. by left.
    + destruct (IH2 _ _ _ _ _ Hrun) as (p2 & s2 & c2 & Hk & H2).
      exists p2, s2, c2. split; [done|].
      intros [Hc|Hcap]; [|apply H2; by right].
      apply andb_true_iff in Hc as [_ Hc]. apply H2. by left.
  - destruct (IH1 _ _ _ _ _ Hrun) as (p1 & s1 & c1 & Hk & _).
    eexists p1, s1, _. split; [exact Hk | done].
  - destruct prev as [c|].
    + destruct (p c); [done|]. exists (Some c), s, cap. split; [done|]. by intros [|].
    + exists None, s, cap. split; [done|]. by intros [|].
  - destruct s as [|c s'].
    + exists prev, [], cap. split; [done|]. by intros [|].
    + destruct (p c); [done|]. exists prev, (c :: s'), cap. split; [done|]. by intros [|].
Qed.

End Captures.

Lemma search_captures (r : Re.regex) (s : list ascii) (m : Re.match_obj) :
  captures r = true → Re.search r s = Some m → Re.group1 m ≠ None.
Proof.
  intros Hc. unfold Re.search. generalize (@None ascii) as prev.
  induction s as [|c s IH]; intros prev Hs; cbn [Re.search_from] in Hs.
  - destruct (Re.match_here r prev []) as [m'|] eqn:Hm; [|done].
    injection Hs as ->. unfold Re.match_here in Hm.
    destruct (run_result _ _ _ _ _ _ Hm) as (p' & s' & c' & Hk & Hcap).
    injection Hk as <-. cbn. apply Hcap. by left.
  - destruct (Re.match_here r prev (c :: s)) as [m'|] eqn:Hm; [|by eapply IH].
    injection Hs as ->. unfold Re.match_here in Hm.
    destruct (run_result _ _ _ _ _ _ Hm) as (p' & s' & c' & Hk & Hcap).
    injection Hk as <-. cbn. apply Hcap. by left.
Qed.

Lemma scan_patterns_returns (r : Q * Q) (patterns : list Re.regex) (txt : list ascii) :
  forallb captures patterns = true →
  ∃ found, scan_patterns (Some r) patterns txt = Ok found.
Proof.
  intros Hc. induction patterns as [|p rest IH]; [by eexists|].
  cbn [forallb] in Hc. apply andb_true_iff in Hc as [Hp Hrest].
  cbn [scan_patterns].
  destruct (Re.search p txt) as [m|] eqn:Hs; [|by apply IH].
  pose proof (search_captures p txt m Hp Hs) as Hg.
  destruct (Re.group1 m) as [g|]; [|done].
  destruct (py_float g) as [value|]; [|by apply IH].
  destruct (in_range r value); [by eexists | by apply IH].
Qed.

Lemma scan_kinds_returns (ranges : dict (Q * Q)) (kinds : dict (list Re.regex))
    (txt : list ascii) :
  forallb (fun kv => bool_decide (is_Some (dict_get ranges (fst kv)))
                     && forallb captures (snd kv)) kinds = true →
  ∀ vitals, ∃ out, scan_kinds ranges kinds txt vitals = Ok out.
Proof.
  induction kinds as [|[vital_type patterns] kinds IH]; intros Hc vitals; [by eexists|].
  cbn [forallb fst snd] in Hc. apply andb_true_iff in Hc as [Hk Hrest].
  apply andb_true_iff in Hk as [Hr Hp]. apply bool_decide_eq_true in Hr as [r Hr].
  cbn [scan_kinds]. rewrite Hr.
  destruct (scan_patterns_returns r patterns txt Hp) as [found ->]. cbn [bind].
  by apply IH.
Qed.

Lemma scan_scores_returns (kinds : dict (list Re.regex)) (txt : list ascii) :
  forallb (fun kv => bool_decide (is_Some (dict_get OcrConnector.VALID_RANGES (fst kv)))
                     && forallb captures (snd kv)) kinds = true →
  ∀ vitals scores, ∃ out, OcrConnector.scan_scores kinds txt vitals scores = Ok out.
Proof.
  induction kinds as [|[vital_type patterns] kinds IH]; intros Hc vitals scores; [by eexists|].
  cbn [forallb fst snd] in Hc. apply andb_true_iff in Hc as [Hk Hrest].
  apply andb_true_iff in Hk as [Hr Hp]. apply bool_decide_eq_true in Hr as [r Hr].
  cbn [OcrConnector.scan_scores]. rewrite Hr.
  destruct (scan_patterns_returns r patterns txt Hp) as [found ->]. cbn [bind].
  destruct found; by apply IH.
Qed.

Lemma read_patterns_returns (ps : dict Re.regex) (response_text : list ascii) :
  forallb (fun kv => bool_decide (is_Some (dict_get Vlm.VALID_RANGES (fst kv)))
                     && captures (snd kv)) ps = true →
  ∀ vitals, dict_keys ps ⊆ dict_keys vitals →
    ∃ out, Vlm.read_patterns ps response_text vitals = Ok out ∧
           dict_keys out = dict_keys vitals.
Proof.
  induction ps as [|[key pattern] ps IH]; intros Hc vitals Hsub; [by eexists|].
  cbn [forallb fst snd] in Hc. apply andb_true_iff in Hc as [Hk Hrest].
  apply andb_true_iff in Hk as [Hr Hp]. apply bool_decide_eq_true in Hr as [r Hr].
  assert (dict_keys ps ⊆ dict_keys vitals) as Hsub'.
  { intros k Hk. apply Hsub. by right. }
  cbn [Vlm.read_patterns].
  destruct (Re.search pattern response_text) as [m|] eqn:Hs; [|by apply IH].
  pose proof (search_captures pattern response_text m Hp Hs) as Hg.
  destruct (Re.group1 m) as [g|]; [|done].
  destruct (py_float g) as [value|]; [|by apply IH].
  rewrite Hr. destruct (in_range r value); [|by apply IH].
  assert (dict_keys (dict_set vitals key (Some value)) = dict_keys vitals) as Hkeys.
  { rewrite dict_keys_set, bool_decide_eq_true_2; [done|]. apply Hsub. left. }
  destruct (IH Hrest (dict_set vitals key (Some value))) as (out & Hrun & Hout).
  - by rewrite Hkeys.
  - exists out. split; [done | congruence].
Qed.

Lemma read_fields_outcome (data : dict Vlm.jfield) (keys : list string) :
  ∀ vitals, keys ⊆ dict_keys vitals →
    (∃ out, Vlm.read_fields data keys vitals = Ok out ∧
            dict_keys out = dict_keys vitals ∧
            ∀ k, k ∈ keys → dict_get data k ≠ Some Vlm.FOverflow) ∨
    (Vlm.read_fields data keys vitals = Raise OverflowError ∧
     ∃ k, k ∈ keys ∧ dict_get data k = Some Vlm.FOverflow).
Proof.
  induction keys as [|key keys IH]; intros vitals Hsub.
  - left. exists vitals. split_and!; [done | done |]. intros k Hk. by apply elem_of_nil in Hk.
  - assert (keys ⊆ dict_keys vitals) as Hsub' by (intros k Hk; apply Hsub; by right).
    assert (∀ vitals', dict_keys vitals' = dict_keys vitals →
              dict_get data key ≠ Some Vlm.FOverflow →
              (∃ out, Vlm.read_fields data keys vitals' = Ok out ∧
                      dict_keys out = dict_keys vitals ∧
                      ∀ k, k ∈ key :: keys → dict_get data k ≠ Some Vlm.FOverflow) ∨
              (Vlm.read_fields data keys vitals' = Raise OverflowError ∧
               ∃ k, k ∈ key :: keys ∧ dict_get data k = Some Vlm.FOverflow)) as Hrest.
    { intros vitals' Hk' Hkey.
      destruct (IH vitals') as [(out & Hrun & Hout & Hno)|(Hrun & k & Hk & Hov)].
      - by rewrite Hk'.
      - left. exists out. split_and!; [done | congruence |].
        intros k Hk. apply elem_of_cons in Hk as [->|Hk]; [done | by apply Hno].
      - right. split; [done|]. exists k. split; [by right | done]. }
    cbn [Vlm.read_fields].
    destruct (dict_get data key) as [[|value| |]|] eqn:Hd.
    + by apply Hrest.
    + destruct (dict_get Vlm.VALID_RANGES key) as [r|]; [|by apply Hrest].
      destruct (Vlm.float_in_range r value) as [q|]; [|by apply Hrest].
      apply Hrest; [|done].
      rewrite dict_keys_set, bool_decide_eq_true_2; [done|]. apply Hsub. left.
    + by apply Hrest.
    + right. split; [done|]. exists key. split; [left | done].
    + by apply Hrest.
Qed.

Lemma vlm_confidence_formula_bounds (n : nat) :
  (0.5 <= py_min 0.95 (0.5 + inject_Z (Z.of_nat n) * 0.1) <= 0.95)%Q.
Proof.
  unfold py_min.
  assert (0 <= inject_Z (Z.of_nat n))%Q as Hn by (unfold Qle; simpl; lia).
  destruct (Qle_bool 0.95 (0.5 + inject_Z (Z.of_nat n) * 0.1)) eqn:E.
  - split; lra.
  - split; [lra|]. apply Qnot_lt_le. intros Hlt.
    assert (Qle_bool 0.95 (0.5 + inject_Z (Z.of_nat n) * 0.1) = true) as E'.
    { apply Qle_bool_iff. lra. }
    congruence.
Qed.

(** ** C3 *)

(** C3, as stated, fails on the VLM extractor: when the answer of the model
    has a brace-delimited part that [json.loads] rejects, the decode error is
    caught inside [parse_vitals_response], the fallback patterns read the
    text, and the extractor returns what they find, here a heart rate of 150
    with confidence 0.6, not an empty map with confidence 0. *)
Lemma vlm_decode_error_not_empty :
  Re.search Vlm.braces (chars "{hr: 150}") ≠ None ∧
  Vlm.extract_vitals_vlm (Vlm.VlmAnswer "{hr: 150}" Vlm.JSONDecodeError) 1200%Q =
    ([("hr", Some 150%Q); ("spo2", None); ("rr", None); ("temp", None);
      ("bp_sys", None); ("bp_dia", None)],
     0.60%Q, 1200%Q, "{hr: 150}"%string).
Proof. split; [by vm_compute | by vm_compute]. Qed.

(** C3, amended.  No extractor propagates an exception, and each returns the
    empty value map, with confidence 0.0 for [extract_vitals] and
    [extract_vitals_vlm] and with the empty map of scores for
    [extract_vitals_ocr], in these cases.  For the two OCR extractors: when
    Tesseract raises; the parsing of a text it returns raises nothing, so
    there is no other case.  For the VLM extractor: when the call of the
    model raises, and when the answer has a brace-delimited part and
    [json.loads] raises another error than a decode error or the decoded
    object holds, under one of the six keys, an integer too large for a
    float; in every other case, a JSON decode error included, it returns the
    six keys with the confidence min(0.95, 0.5 + 0.1 n) for n values found,
    which is at least 0.5. *)
Theorem extraction_fails_soft :
  (∀ msg, Production.extract_vitals (OcrRaises msg) = ([], 0.0%Q, slice 50 msg)) ∧
  (∀ t, let txt := newlines_to_spaces (upper (chars t)) in
     ∃ vitals,
       scan_kinds Production.VALID_RANGES Production.PATTERNS txt [] = Ok vitals ∧
       Production.extract_vitals (OcrText t)
         = (vitals, if 2 <=? length vitals then 0.88%Q else 0.0%Q, text (take 50 txt))) ∧
  (∀ msg second,
     OcrConnector.extract_vitals_ocr (OcrRaises msg, second)
       = ([], [], "OCR Error: " +:+ msg)) ∧
  (∀ t msg,
     OcrConnector.extract_vitals_ocr (OcrText t, OcrRaises msg)
       = ([], [], "OCR Error: " +:+ msg)) ∧
  (∀ t text_inv, let combined_text := chars t ++ chars " " ++ chars text_inv in
     ∃ vitals scores,
       OcrConnector.extract_vitals_from_text combined_text = Ok (vitals, scores) ∧
       OcrConnector.extract_vitals_ocr (OcrText t, OcrText text_inv)
         = (vitals, scores, text (take 100 (OcrConnector.strip combined_text)))) ∧
  (∀ msg elapsed_ms,
     Vlm.extract_vitals_vlm (Vlm.VlmRaises msg) elapsed_ms
       = ([], 0.0%Q, 0%Q, "VLM Error: " +:+ msg)) ∧
  (∀ response_text loads elapsed_ms,
     (∃ e,
        Vlm.parse_vitals_response response_text loads = Raise e ∧
        Vlm.extract_vitals_vlm (Vlm.VlmAnswer response_text loads) elapsed_ms
          = ([], 0.0%Q, 0%Q, "VLM Error: " +:+ exn_str e) ∧
        Re.search Vlm.braces (chars response_text) ≠ None ∧
        match loads with
        | Vlm.JsonRaises msg => e = OtherError msg
        | Vlm.JsonObject data =>
            e = OverflowError ∧ ∃ k, k ∈ VLM_KEYS ∧ dict_get data k = Some Vlm.FOverflow
        | Vlm.JSONDecodeError => False
        end) ∨
     (∃ vitals,
        let confidence :=
          py_min 0.95 (0.5 + inject_Z (Z.of_nat (Vlm.valid_count vitals)) * 0.1)%Q in
        Vlm.parse_vitals_response response_text loads = Ok vitals ∧
        dict_keys vitals = VLM_KEYS ∧
        Vlm.extract_vitals_vlm (Vlm.VlmAnswer response_text loads) elapsed_ms
          = (vitals, confidence, elapsed_ms, response_text) ∧
        (0.5 <= confidence <= 0.95)%Q ∧
        (Re.search Vlm.braces (chars response_text) ≠ None →
         match loads with
         | Vlm.JsonRaises _ => False
         | Vlm.JsonObject data => ∀ k, k ∈ VLM_KEYS → dict_get data k ≠ Some Vlm.FOverflow
         | Vlm.JSONDecodeError => True
         end))).
Proof.
  split_and!.
  - done.
  - intros t txt.
    destruct (scan_kinds_returns Production.VALID_RANGES Production.PATTERNS txt
                ltac:(by vm_compute) []) as [vitals Hscan].
    exists vitals. split; [done|]. unfold Production.extract_vitals. fold txt. by rewrite Hscan.
  - done.
  - done.
  - intros t text_inv combined_text.
    destruct (scan_scores_returns OcrConnector.PATTERNS
                (newlines_to_spaces (upper combined_text)) ltac:(by vm_compute) [] [])
      as [[vitals scores] Hscan].
    exists vitals, scores.
    assert (OcrConnector.extract_vitals_from_text combined_text = Ok (vitals, scores)) as Hex
      by exact Hscan.
    split; [done|]. unfold OcrConnector.extract_vitals_ocr. fold combined_text. by rewrite Hex.
  - done.
  - intros response_text loads elapsed_ms.
    unfold Vlm.extract_vitals_vlm, Vlm.parse_vitals_response.
    destruct (Re.search Vlm.braces (chars response_text)) as [found|] eqn:Hb.
    + destruct loads as [|msg|data].
      * right.
        destruct (read_patterns_returns Vlm.patterns (chars response_text)
                    ltac:(by vm_compute) Vlm.no_vitals) as (out & -> & Hkeys);
          [compute_done|].
        exists out. cbn zeta.
        split_and!; try done; try (by rewrite Hkeys); apply vlm_confidence_formula_bounds.
      * left. exists (OtherError msg). by split_and!.
      * destruct (read_fields_outcome data (dict_keys Vlm.no_vitals) Vlm.no_vitals)
          as [(out & -> & Hkeys & Hno)|(-> & k & Hk & Hov)]; [done | |].
        -- right. exists out. cbn zeta.
           split_and!; try done; try (by rewrite Hkeys); apply vlm_confidence_formula_bounds.
        -- left. exists OverflowError. split_and!; try done. by exists k.
    + right. exists Vlm.no_vitals. cbn zeta.
      split_and!; try done; apply vlm_confidence_formula_bounds.
Qed.

Lemma extraction_fails_soft_witness :
  Vlm.extract_vitals_vlm
    (Vlm.VlmAnswer "{}" (Vlm.JsonObject [("hr", Vlm.FOverflow)])) 10%Q
  = ([], 0.0%Q, 0%Q, "VLM Error: " +:+ exn_str OverflowError).
Proof.
  destruct extraction_fails_soft as (_ & _ & _ & _ & _ & _ & H).
  destruct (H "{}" (Vlm.JsonObject [("hr", Vlm.FOverflow)]) 10%Q)
    as [(e & _ & Hres & _ & -> & _)|(vitals & Hparse & _)].
  - exact Hres.
  - vm_compute in Hparse. discriminate Hparse.
Defined.

(** * Nothing out of range leaves the production loop *)

Lemma randint_bounds (a b raw : Z) : (a <= b)%Z → (a <= randint a b raw <= b)%Z.
Proof.
  intros Hab. unfold randint.
  pose proof (Z.mod_pos_bound raw (b - a + 1) ltac:(lia)). lia.
Qed.

Lemma round_half_even_bounds (x : Q) (a b : Z) :
  (inject_Z a <= x)%Q → (x <= inject_Z b)%Q →
  (a <= round_half_even x <= b)%Z.
Proof.
  intros Ha Hb. unfold round_half_even.
  pose proof (Qfloor_le x) as Hfl. pose proof (Qlt_floor x) as Hlt.
  assert (a <= Qfloor x)%Z as Hlo.
  { rewrite <- (Qfloor_Z a). by apply Qfloor_resp_le. }
  assert (Qfloor x <= b)%Z as Hhi.
  { rewrite <- (Qfloor_Z b). by apply Qfloor_resp_le. }
  destruct (Z.eq_dec (Qfloor x) b) as [Heq|Hne].
  - assert (x - inject_Z (Qfloor x) == 0)%Q as H0.
    { rewrite Heq in *. apply Qle_antisym; lra. }
    assert ((x - inject_Z (Qfloor x) ?= 1 # 2)%Q = Lt) as ->.
    { apply Qlt_alt. rewrite H0. reflexivity. }
    lia.
  - destruct (x - inject_Z (Qfloor x) ?= 1 # 2)%Q; [destruct (Z.even _)| |]; lia.
Qed.

Lemma production_sim_in_range (r : Production.sim_draws) :
  dict_in_range Production.VALID_RANGES (Production.generate_simulation_vitals r).
Proof.
  intros k v Hkv. unfold Production.generate_simulation_vitals in Hkv.
  pose proof (randint_bounds (-15) 15 (Production.raw_hr r) ltac:(lia)) as Hhr.
  pose proof (randint_bounds (-4) 3 (Production.raw_spo2 r) ltac:(lia)) as Hspo2.
  pose proof (randint_bounds (-8) 8 (Production.raw_rr r) ltac:(lia)) as Hrr.
  destruct (uniform_bounds (-0.4) 0.4 (Production.raw_temp r) ltac:(lra)) as [Hlo Hhi].
  pose proof (round_half_even_bounds
                ((36.8 + uniform (-0.4) 0.4 (Production.raw_temp r)) * 10)%Q 364 372
                ltac:(change (inject_Z 364) with 364%Q; lra)
                ltac:(change (inject_Z 372) with 372%Q; lra)) as Htemp.
  repeat (apply elem_of_cons in Hkv as [Hkv|Hkv];
          [injection Hkv as -> ->; eexists; split; [reflexivity|];
           apply in_range_spec; unfold py_round1, Qle; cbn; lia|]).
  by apply elem_of_nil in Hkv.
Qed.

Lemma production_extracted_in_range (st : Production.loop_state) (i : Production.tick_input) :
  NoDup (dict_keys (production_extracted st i)) ∧
  dict_in_range Production.VALID_RANGES (production_extracted st i).
Proof.
  unfold production_extracted.
  assert (NoDup (dict_keys (@nil (string * Q))) ∧
          dict_in_range Production.VALID_RANGES []) as Hnil.
  { split; [constructor|]. intros k v H. by apply elem_of_nil in H. }
  destruct (Production.connected st); [|exact Hnil].
  destruct (Production.read i) as [|f]; [exact Hnil|].
  destruct (production_extract_spec f) as (Hnd & _ & H). split; [done|].
  intros k v Hkv. destruct (H k v Hkv) as (r & t & ? & ? & _). by exists r.
Qed.

(** One iteration keeps every buffer in range and shows a reading in range. *)
Lemma production_tick_in_range (st st' : Production.loop_state)
    (i : Production.tick_input) (out : Production.tick_output) :
  wf_history (Production.history (Production.smoother st)) →
  history_in_range Production.VALID_RANGES (Production.history (Production.smoother st)) →
  Production.tick st i = Ok (st', out) →
  wf_history (Production.history (Production.smoother st')) ∧
  history_in_range Production.VALID_RANGES (Production.history (Production.smoother st')) ∧
  dict_in_range Production.VALID_RANGES (Production.out_vitals out).
Proof.
  intros Hwf Hin Htick.
  destruct (production_tick_spec st i Hwf) as (sm' & vitals & md & c & Htick' & Hwf' & Hcase).
  rewrite Htick in Htick'. injection Htick' as -> ->. cbn.
  split; [done|].
  destruct (production_extracted_in_range st i) as [Hnd Hex].
  assert (∀ vs, NoDup (dict_keys vs) → dict_in_range Production.VALID_RANGES vs →
                Production.smooth (Production.smoother st) vs = Ok (sm', vitals) →
                history_in_range Production.VALID_RANGES (Production.history sm') ∧
                dict_in_range Production.VALID_RANGES vitals) as Hstep.
  { intros vs Hnd' Hvs Hrun. unfold Production.smooth in Hrun.
    destruct (smooth_items _ [] vs) as [[h1 s1]|e] eqn:E; [|done].
    cbn in Hrun. injection Hrun as <- <-. cbn. split.
    - by eapply smooth_items_in_range.
    - by eapply smooth_items_out_in_range. }
  destruct Hcase as [(_ & _ & Hrun & _)|(_ & _ & Hrun & _)].
  - by apply (Hstep _ Hnd Hex).
  - apply (Hstep (Production.generate_simulation_vitals (Production.sim i)));
      [compute_done | apply production_sim_in_range | exact Hrun].
Qed.

(** Every run of the production loop from its start goes through without an
    exception, and every reading it shows and submits, extracted or
    simulated, smoothed or not, has all its values in the valid range of
    their kind. *)
Lemma production_run_in_range (inputs : list Production.tick_input) :
  ∀ st : Production.loop_state,
    wf_history (Production.history (Production.smoother st)) →
    history_in_range Production.VALID_RANGES (Production.history (Production.smoother st)) →
    ∃ st' outs,
      Production.run_loop st inputs = Ok (st', outs) ∧
      length outs = length inputs ∧
      Forall (fun o => dict_in_range Production.VALID_RANGES (Production.out_vitals o)) outs.
Proof.
  induction inputs as [|i inputs IH]; intros st Hwf Hin.
  - exists st, []. split_and!; [done | done | constructor].
  - destruct (production_tick_spec st i Hwf) as (sm' & vitals & md & c & Htick & _).
    destruct (production_tick_in_range _ _ _ _ Hwf Hin Htick) as (Hwf1 & Hin1 & Hout).
    destruct (IH _ Hwf1 Hin1) as (st' & outs & Hrun & Hlen & Hall).
    eexists st', (_ :: outs). split_and!.
    + cbn [Production.run_loop]. rewrite Htick. cbn [bind fst snd].
      rewrite Hrun. reflexivity.
    + cbn. by rewrite Hlen.
    + by constructor.
Qed.

Lemma production_start_in_range (is_connected : bool) (n : network) :
  wf_history (Production.history (Production.smoother (Production.start is_connected n))) ∧
  history_in_range Production.VALID_RANGES
    (Production.history (Production.smoother (Production.start is_connected n))).
Proof.
  split; [apply wf_production_default|].
  intros k d r H _. cbn in H.
  repeat (apply lookup_insert_Some in H as [[_ <-]|[_ H]]; [constructor|]).
  by rewrite lookup_empty in H.
Qed.

(** * Further properties of the connectors *)

(** ** The simulated and mock readings *)

(** X1.  The simulated reading of the production script and of the OCR connector
    has the four kinds in order, a heart rate from 125 to 155, a saturation
    from 92 to 99, a respiratory rate from 37 to 53 and a temperature from
    36.4 to 37.2 in tenths; all within the valid ranges. *)
Theorem simulation_vitals_bounds :
  (∀ r : Production.sim_draws,
     ∃ hr spo2 rr temp : Z,
       Production.generate_simulation_vitals r =
         [("hr", inject_Z hr); ("spo2", inject_Z spo2); ("rr", inject_Z rr);
          ("temp", (temp # 10)%Q)] ∧
       (125 <= hr <= 155)%Z ∧ (92 <= spo2 <= 99)%Z ∧ (37 <= rr <= 53)%Z ∧
       (364 <= temp <= 372)%Z ∧
       dict_in_range Production.VALID_RANGES (Production.generate_simulation_vitals r)) ∧
  (∀ r : OcrConnector.sim_draws,
     ∃ hr spo2 rr temp : Z,
       OcrConnector.generate_simulation_vitals r =
         [("hr", inject_Z hr); ("spo2", inject_Z spo2); ("rr", inject_Z rr);
          ("temp", (temp # 10)%Q)] ∧
       (125 <= hr <= 155)%Z ∧ (92 <= spo2 <= 99)%Z ∧ (37 <= rr <= 53)%Z ∧
       (364 <= temp <= 372)%Z).
Proof.
  split.
  - intros r.
    pose proof (randint_bounds (-15) 15 (Production.raw_hr r) ltac:(lia)).
    pose proof (randint_bounds (-4) 3 (Production.raw_spo2 r) ltac:(lia)).
    pose proof (randint_bounds (-8) 8 (Production.raw_rr r) ltac:(lia)).
    destruct (uniform_bounds (-0.4) 0.4 (Production.raw_temp r) ltac:(lra)) as [Hlo Hhi].
    pose proof (round_half_even_bounds
                  ((36.8 + uniform (-0.4) 0.4 (Production.raw_temp r)) * 10)%Q 364 372
                  ltac:(change (inject_Z 364) with 364%Q; lra)
                  ltac:(change (inject_Z 372) with 372%Q; lra)).
    eexists _, _, _, _. split; [reflexivity|].
    split_and!; try lia. apply production_sim_in_range.
  - intros r.
    pose proof (randint_bounds (-15) 15 (OcrConnector.raw_hr r) ltac:(lia)).
    pose proof (randint_bounds (-4) 3 (OcrConnector.raw_spo2 r) ltac:(lia)).
    pose proof (randint_bounds (-8) 8 (OcrConnector.raw_rr r) ltac:(lia)).
    destruct (uniform_bounds (-0.4) 0.4 (OcrConnector.raw_temp r) ltac:(lra)) as [Hlo Hhi].
    pose proof (round_half_even_bounds
                  ((36.8 + uniform (-0.4) 0.4 (OcrConnector.raw_temp r)) * 10)%Q 364 372
                  ltac:(change (inject_Z 364) with 364%Q; lra)
                  ltac:(change (inject_Z 372) with 372%Q; lra)).
    eexists _, _, _, _. split; [reflexivity|]. lia.
Qed.

(** X2.  The mock reading has the four kinds, a heart rate from 130 to 150, a
    saturation from 93 to 98, a respiratory rate from 40 to 50 and a
    temperature from 36.5 to 37.1 in tenths; the clamp of the saturation to
    88..100 never acts. *)
Theorem mock_vitals_bounds (r : Mock.mock_draws) :
  ∃ hr spo2 rr temp : Z,
    Mock.generate_mock_vitals r =
      [("hr", JInteger hr); ("spo2", JInteger spo2); ("rr", JInteger rr);
       ("temp", JNumber (temp # 10)%Q)] ∧
    (130 <= hr <= 150)%Z ∧ (93 <= spo2 <= 98)%Z ∧ (40 <= rr <= 50)%Z ∧
    (365 <= temp <= 371)%Z ∧
    spo2 = (96 + randint (-3) 2 (Mock.raw_spo2 r))%Z.
Proof.
  pose proof (randint_bounds (-10) 10 (Mock.raw_hr r) ltac:(lia)).
  pose proof (randint_bounds (-3) 2 (Mock.raw_spo2 r) ltac:(lia)).
  pose proof (randint_bounds (-5) 5 (Mock.raw_rr r) ltac:(lia)).
  destruct (uniform_bounds (-0.3) 0.3 (Mock.raw_temp r) ltac:(lra)) as [Hlo Hhi].
  pose proof (round_half_even_bounds
                ((36.8 + uniform (-0.3) 0.3 (Mock.raw_temp r)) * 10)%Q 365 371
                ltac:(change (inject_Z 365) with 365%Q; lra)
                ltac:(change (inject_Z 371) with 371%Q; lra)).
  eexists _, _, _, _. split; [reflexivity|]. lia.
Qed.

(** ** More on the smoother *)

Lemma smooth_items_raise (vitals : dict Q) :
  ∀ (h : gmap string deque) (smoothed : dict Q) e,
    smooth_items h smoothed vitals = Raise e →
    ∃ k, e = KeyError k ∧ k ∈ dict_keys vitals ∧ h !! k = None.
Proof.
  induction vitals as [|[key value] vitals IH]; intros h smoothed e Hrun; [done|].
  cbn [smooth_items] in Hrun. destruct (h !! key) as [d|] eqn:Hd.
  - destruct (smooth_item_spec h smoothed key value d Hd) as (m & Hitem & _).
    rewrite Hitem in Hrun. cbn [bind fst snd] in Hrun.
    destruct (IH _ _ _ Hrun) as (k & -> & Hk & Hnone).
    exists k. split_and!; [done | by right |].
    destruct (decide (key = k)) as [->|Hne].
    + by rewrite lookup_insert_eq in Hnone.
    + by rewrite lookup_insert_ne in Hnone.
  - rewrite (smooth_item_raises _ _ _ _ Hd) in Hrun. injection Hrun as <-.
    exists key. split_and!; [done | left | done].
Qed.

Lemma smooth_items_returns (vitals : dict Q) :
  ∀ (h : gmap string deque) (smoothed : dict Q),
    (∀ k, k ∈ dict_keys vitals → is_Some (h !! k)) →
    ∃ h' smoothed', smooth_items h smoothed vitals = Ok (h', smoothed').
Proof.
  intros h smoothed Hdom.
  destruct (smooth_items h smoothed vitals) as [[h' s']|e] eqn:Hrun; [by eexists _, _|].
  destruct (smooth_items_raise _ _ _ _ Hrun) as (k & _ & Hk & Hnone).
  destruct (Hdom k Hk) as [d Hd]. congruence.
Qed.

(** X3.  [smooth] and [apply_smoothing] raise a [KeyError] exactly when a kind of
    the reading has no buffer, with a kind of the reading that has none as
    its key, and never an [IndexError]; otherwise they return. *)
Theorem smooth_raises_on_missing_kind :
  (∀ (self : Production.VitalSmoother) (vitals : dict Q),
     ((∀ k, k ∈ dict_keys vitals → is_Some (Production.history self !! k)) ∧
      ∃ self' smoothed, Production.smooth self vitals = Ok (self', smoothed)) ∨
     (∃ k, k ∈ dict_keys vitals ∧ Production.history self !! k = None ∧
           Production.smooth self vitals = Raise (KeyError k))) ∧
  (∀ (history : gmap string deque) (new_vitals : dict Q),
     ((∀ k, k ∈ dict_keys new_vitals → is_Some (history !! k)) ∧
      ∃ history' smoothed,
        OcrConnector.apply_smoothing history new_vitals = Ok (history', smoothed)) ∨
     (∃ k, k ∈ dict_keys new_vitals ∧ history !! k = None ∧
           OcrConnector.apply_smoothing history new_vitals = Raise (KeyError k))).
Proof.
  assert (∀ (h : gmap string deque) (vitals : dict Q),
            ((∀ k, k ∈ dict_keys vitals → is_Some (h !! k)) ∧
             ∃ h' smoothed, smooth_items h [] vitals = Ok (h', smoothed)) ∨
            (∃ k, k ∈ dict_keys vitals ∧ h !! k = None ∧
                  smooth_items h [] vitals = Raise (KeyError k))) as Hcore.
  { intros h vitals.
    destruct (smooth_items h [] vitals) as [[h' s']|e] eqn:Hrun.
    - left. split; [by eapply smooth_items_Ok_dom | by eexists _, _].
    - right. destruct (smooth_items_raise _ _ _ _ Hrun) as (k & -> & Hk & Hnone).
      by exists k. }
  split.
  - intros self vitals. unfold Production.smooth.
    destruct (Hcore (Production.history self) vitals)
      as [[Hdom (h' & s' & Hrun)]|(k & Hk & Hnone & Hrun)].
    + left. split; [done|]. rewrite Hrun. by eexists _, _.
    + right. exists k. by rewrite Hrun.
  - intros history new_vitals. apply Hcore.
Qed.

(** X4.  [smooth] and [apply_smoothing] return the kinds of the reading they are
    given, in the same order, and keep the set of buffers and the window
    size. *)
Theorem smooth_keeps_kinds :
  (∀ (self self' : Production.VitalSmoother) (vitals smoothed : dict Q),
     NoDup (dict_keys vitals) →
     Production.smooth self vitals = Ok (self', smoothed) →
     dict_keys smoothed = dict_keys vitals ∧
     Production.window_size self' = Production.window_size self ∧
     dom (Production.history self') = dom (Production.history self)) ∧
  (∀ (history history' : gmap string deque) (new_vitals smoothed : dict Q),
     NoDup (dict_keys new_vitals) →
     OcrConnector.apply_smoothing history new_vitals = Ok (history', smoothed) →
     dict_keys smoothed = dict_keys new_vitals ∧ dom history' = dom history).
Proof.
  assert (∀ (vitals : dict Q) (h h' : gmap string deque) (s s' : dict Q),
            smooth_items h s vitals = Ok (h', s') → dom h' = dom h) as Hdom.
  { induction vitals as [|[key value] vitals IH]; intros h h' s s' Hrun.
    - by injection Hrun as <- _.
    - cbn [smooth_items] in Hrun. destruct (h !! key) as [d|] eqn:Hd.
      + destruct (smooth_item_spec h s key value d Hd) as (m & Hitem & _).
        rewrite Hitem in Hrun. cbn [bind fst snd] in Hrun.
        rewrite (IH _ _ _ _ Hrun), dom_insert_L.
        assert (key ∈ dom h) by (apply elem_of_dom; by eexists).
        apply subseteq_union_1_L. by apply singleton_subseteq_l.
      + by rewrite (smooth_item_raises _ _ _ _ Hd) in Hrun. }
  split.
  - intros self self' vitals smoothed Hnd Hrun. unfold Production.smooth in Hrun.
    destruct (smooth_items (Production.history self) [] vitals) as [[h1 s1]|e] eqn:E; [|done].
    cbn in Hrun. injection Hrun as <- <-. cbn.
    split_and!; [by rewrite (smooth_items_keys _ _ _ _ _ E) | done | by eapply Hdom].
  - intros history history' new_vitals smoothed Hnd Hrun.
    split; [by rewrite (smooth_items_keys _ _ _ _ _ Hrun) | by eapply Hdom].
Qed.

Lemma smooth_keeps_kinds_witness :
  ∃ self' smoothed,
    Production.smooth Production.VitalSmoother_default [("temp", 36.5%Q); ("hr", 150%Q)]
      = Ok (self', smoothed) ∧
    dict_keys smoothed = ["temp"; "hr"].
Proof.
  destruct (Production.smooth Production.VitalSmoother_default
              [("temp", 36.5%Q); ("hr", 150%Q)]) as [[self' smoothed]|e] eqn:E;
    [|vm_compute in E; discriminate].
  exists self', smoothed. split; [reflexivity|].
  apply (proj1 smooth_keeps_kinds Production.VitalSmoother_default self'
           [("temp", 36.5%Q); ("hr", 150%Q)] smoothed); [compute_done | exact E].
Defined.

Lemma last_n_app {A} (n : nat) (l l2 : list A) :
  last_n n (last_n n l ++ l2) = last_n n (l ++ l2).
Proof.
  unfold last_n. rewrite !length_app, length_drop.
  destruct (decide (length l ≤ n)) as [Hle|Hgt].
  - replace (length l - n) with 0 by lia. cbn [drop]. f_equal. lia.
  - replace (length l - (length l - n) + length l2 - n) with (length l2) by lia.
    replace (length l + length l2 - n) with ((length l - n) + length l2) by lia.
    rewrite <- drop_drop. rewrite (drop_app_le l); [done | lia].
Qed.

Lemma pushes_are_last_n (xs : list Q) :
  ∀ d : deque,
    length (items d) ≤ maxlen d →
    maxlen (fold_left deque_append xs d) = maxlen d ∧
    items (fold_left deque_append xs d) = last_n (maxlen d) (items d ++ xs).
Proof.
  induction xs as [|x xs IH]; intros d Hlen.
  - cbn. split; [done|]. rewrite app_nil_r. unfold last_n.
    by replace (length (items d) - maxlen d) with 0 by lia.
  - cbn [fold_left].
    destruct (IH (deque_append d x)) as [Hmax Hitems].
    + rewrite deque_append_length, deque_append_maxlen. lia.
    + rewrite Hmax, Hitems, deque_append_maxlen. split; [done|].
      change (items (deque_append d x)) with (last_n (maxlen d) (items d ++ [x])).
      by rewrite last_n_app, <- app_assoc.
Qed.

Lemma track_is_fold (samples : list (option Q)) :
  ∀ d : deque, fst (track d samples) = fold_left deque_append (omap id samples) d.
Proof.
  induction samples as [|[v|] samples IH]; intros d; cbn [track omap]; [done | |].
  - unfold push1. specialize (IH (deque_append d v)).
    destruct (track (deque_append d v) samples) as [d' outs]. exact IH.
  - specialize (IH d). destruct (track d samples) as [d' outs]. exact IH.
Qed.

Lemma omap_id_map {A B} (f : A → option B) (l : list A) :
  omap id (map f l) = omap f l.
Proof.
  induction l as [|x l IH]; cbn; [done|]. rewrite IH. by destruct (f x).
Qed.

(** X5.  The buffers are first-in first-out windows: after any sequence of
    readings over the four kinds, smoothed from the fresh smoother, the
    buffer of each kind holds the last 5 samples of that kind, oldest first,
    whatever the other kinds did in between. *)
Theorem buffer_is_last_five (readings : list (dict Q)) (k : string) :
  Forall (fun vitals => NoDup (dict_keys vitals) ∧ dict_keys vitals ⊆ KINDS) readings →
  k ∈ KINDS →
  ∃ self' outs,
    smooth_all Production.VitalSmoother_default readings = Ok (self', outs) ∧
    Production.history self' !! k
      = Some {| maxlen := 5; items := last_n 5 (samples_of k readings) |}.
Proof.
  intros Hall Hk.
  assert (Production.history Production.VitalSmoother_default !! k = Some (deque_new 5))
    as Hinit.
  { unfold KINDS in Hk.
    repeat (apply elem_of_cons in Hk as [Hk|Hk]; [by rewrite Hk|]).
    by apply elem_of_nil in Hk. }
  destruct (smooth_all_kind k readings _ _ wf_production_default Hall Hinit)
    as (self' & outs & Hrun & Hh & _).
  exists self', outs. split; [done|].
  rewrite Hh, track_is_fold. f_equal.
  destruct (pushes_are_last_n (omap id (map (fun r => dict_get r k) readings)) (deque_new 5))
    as [Hmax Hitems]; [cbn; lia|].
  destruct (fold_left _ _ _) as [n l]. cbn in *. subst. f_equal.
  unfold samples_of. by rewrite omap_id_map.
Qed.

Lemma buffer_is_last_five_witness :
  ∃ self' outs,
    smooth_all Production.VitalSmoother_default
      [ [("hr", 1%Q)]; [("hr", 2%Q); ("rr", 30%Q)]; [("hr", 3%Q)]; [("rr", 31%Q)];
        [("hr", 4%Q)]; [("hr", 5%Q)]; [("hr", 6%Q)] ] = Ok (self', outs) ∧
    Production.history self' !! "hr"
      = Some {| maxlen := 5; items := [2; 3; 4; 5; 6]%Q |}.
Proof.
  apply (buffer_is_last_five
           [ [("hr", 1%Q)]; [("hr", 2%Q); ("rr", 30%Q)]; [("hr", 3%Q)]; [("rr", 31%Q)];
             [("hr", 4%Q)]; [("hr", 5%Q)]; [("hr", 6%Q)] ] "hr").
  - repeat (apply Forall_cons; split; [split; compute_done|]). apply Forall_nil_2.
  - compute_done.
Defined.

Lemma filter_disjoint_length {A} (p q : A → bool) (l : list A) :
  (∀ x, p x = true → q x = true → False) →
  length (List.filter p l) + length (List.filter q l) ≤ length l.
Proof.
  intros Hd. induction l as [|x l IH]; cbn; [lia|].
  destruct (p x) eqn:Hp, (q x) eqn:Hq; cbn; try lia.
  exfalso. by apply (Hd x).
Qed.

(** The middle element of the sorted buffer lies in every interval that
    holds a strict majority of the buffer. *)
Lemma middle_in_majority_interval (l : list Q) (a b m : Q) :
  middle_of_sorted l = Some m →
  length l < 2 * count_in a b l →
  (a <= m)%Q ∧ (m <= b)%Q.
Proof.
  intros Hm Hmaj. unfold middle_of_sorted in Hm.
  destruct (sorted_index_counts _ _ _ (sorted_sorted l) Hm) as [H1 H2].
  rewrite (count_le_perm m _ l (sorted_perm l)) in H1.
  rewrite (count_ge_perm m _ l (sorted_perm l)) in H2.
  rewrite sorted_length in H2.
  pose proof (Nat.div_mod_eq (length l) 2) as Hd.
  pose proof (Nat.mod_upper_bound (length l) 2 ltac:(lia)) as Hm2.
  split.
  - destruct (Qlt_le_dec m a) as [Hlt|]; [exfalso|done].
    pose proof (filter_disjoint_length (fun x => Qle_bool x m)
                  (fun x => Qle_bool a x && Qle_bool x b) l) as Hdis.
    unfold count_le, count_in in *.
    assert (∀ x, Qle_bool x m = true → Qle_bool a x && Qle_bool x b = true → False) as Hx.
    { intros x Hxm Hab. apply andb_true_iff in Hab as [Hax _].
      apply Qle_bool_iff in Hxm, Hax. lra. }
    specialize (Hdis Hx). lia.
  - destruct (Qlt_le_dec b m) as [Hlt|]; [exfalso|done].
    pose proof (filter_disjoint_length (fun x => Qle_bool m x)
                  (fun x => Qle_bool a x && Qle_bool x b) l) as Hdis.
    unfold count_ge, count_in in *.
    assert (∀ x, Qle_bool m x = true → Qle_bool a x && Qle_bool x b = true → False) as Hx.
    { intros x Hxm Hab. apply andb_true_iff in Hab as [_ Hxb].
      apply Qle_bool_iff in Hxm, Hxb. lra. }
    specialize (Hdis Hx). lia.
Qed.

(** X6.  The median filter rejects a minority of outliers: when, after the push,
    the buffer of a kind holds at least 3 samples and a strict majority of
    them lies between [a] and [b], the smoothed value of that kind lies
    between [a] and [b], whatever the other samples are. *)
Theorem smoothed_within_majority (self self' : Production.VitalSmoother)
    (vitals smoothed : dict Q) (k : string) (v m a b : Q) (d : deque) :
  NoDup (dict_keys vitals) →
  Production.smooth self vitals = Ok (self', smoothed) →
  (k, v) ∈ vitals →
  Production.history self !! k = Some d →
  3 ≤ length (items (deque_append d v)) →
  length (items (deque_append d v)) < 2 * count_in a b (items (deque_append d v)) →
  dict_get smoothed k = Some m →
  (a <= m)%Q ∧ (m <= b)%Q.
Proof.
  intros Hnd Hrun Hkv Hd H3 Hmaj Hm. unfold Production.smooth in Hrun.
  destruct (smooth_items (Production.history self) [] vitals) as [[h1 s1]|e] eqn:E; [|done].
  cbn in Hrun. injection Hrun as <- <-.
  destruct (smooth_items_spec vitals _ [] Hnd (smooth_items_Ok_dom _ _ _ _ _ E))
    as (h2 & s2 & Hrun2 & _ & Hin).
  rewrite E in Hrun2. injection Hrun2 as <- <-.
  destruct (Hin k v Hkv) as (d0 & m0 & Hd0 & _ & Hs & Hge & _).
  rewrite Hd in Hd0. injection Hd0 as <-.
  rewrite Hm in Hs. injection Hs as <-.
  destruct (Hge H3) as [Hmid _].
  by apply (middle_in_majority_interval _ a b m Hmid).
Qed.

Lemma smoothed_within_majority_witness : (149 <= 150)%Q ∧ (150 <= 152)%Q.
Proof.
  eapply (smoothed_within_majority
            {| Production.window_size := 5;
               Production.history := {[ "hr" := {| maxlen := 5; items := [150; 90]%Q |} ]} |}
            _ [("hr", 151%Q)] _ "hr" 151%Q 150%Q 149%Q 152%Q
            {| maxlen := 5; items := [150; 90]%Q |}).
  - compute_done.
  - vm_compute. reflexivity.
  - left.
  - reflexivity.
  - vm_compute. lia.
  - vm_compute. lia.
  - reflexivity.
Defined.

(** ** Runs of the production loop *)

Lemma py_int_bounds (v : Q) (a b : Z) :
  (0 <= a)%Z → (inject_Z a <= v)%Q → (v <= inject_Z b)%Q →
  (a <= py_int v <= b)%Z.
Proof.
  intros Ha Hlo Hhi. unfold py_int.
  assert (0 <= Qnum v)%Z as Hnum.
  { assert (0 <= v)%Q as H0.
    { eapply Qle_trans; [|exact Hlo]. unfold Qle. cbn. lia. }
    unfold Qle in H0. cbn in H0. lia. }
  rewrite Z.quot_div_nonneg by lia.
  assert ((Qnum v / Z.pos (Qden v))%Z = Qfloor v) as -> by (by destruct v).
  split.
  - rewrite <- (Qfloor_Z a). by apply Qfloor_resp_le.
  - rewrite <- (Qfloor_Z b). by apply Qfloor_resp_le.
Qed.

Lemma truthy_in_range (r : Q * Q) (v : Q) :
  (0 < fst r)%Q → in_range r v = true → truthy (Some v) = true.
Proof.
  intros Hpos Hin. apply in_range_spec in Hin as [Hlo _].
  cbn. apply negb_true_iff. destruct (Qeq_bool v 0) eqn:E; [|done].
  apply Qeq_bool_iff in E. lra.
Qed.

(** The pruned vitals object of a reading in range, over the four kinds. *)
Lemma production_body_in_range (vitals : dict Q) confidence metadata raw now :
  NoDup (dict_keys vitals) → dict_keys vitals ⊆ KINDS → 2 ≤ length vitals →
  dict_in_range Production.VALID_RANGES vitals →
  body_in_range Production.VALID_RANGES
    (Production.payload vitals confidence metadata raw now).
Proof.
  intros Hnd Hsub Hlen Hin. eexists. split; [reflexivity|].
  assert (∀ k, k ∈ dict_keys vitals → ∃ v r,
             dict_get vitals k = Some v ∧ dict_get Production.VALID_RANGES k = Some r ∧
             in_range r v = true ∧ truthy (Some v) = true) as Hk.
  { intros k Hkin. destruct (dict_get vitals k) as [v|] eqn:Hget.
    - destruct (Hin k v (dict_get_elem _ _ _ Hget)) as (r & Hr & Hv).
      exists v, r. split_and!; [done | done | done |].
      apply (truthy_in_range r); [|done].
      specialize (Hsub k Hkin). unfold KINDS in Hsub.
      repeat (apply elem_of_cons in Hsub as [->|Hsub];
              [cbn in Hr; injection Hr as <-; reflexivity|]).
      by apply elem_of_nil in Hsub.
    - apply dict_get_None in Hget. done. }
  split.
  - rewrite <- (length_map fst).
    change (map fst ?x) with (dict_keys x). rewrite pruned_keys.
    + assert (dict_keys vitals ⊆+ List.filter (fun k => truthy (dict_get vitals k)) KINDS)
        as Hsm.
      { apply NoDup_submseteq; [done|]. intros k Hkin.
        apply list_elem_of_In, filter_In. split; [apply list_elem_of_In; by apply Hsub|].
        destruct (Hk k Hkin) as (v & r & -> & _ & _ & Ht). done. }
      apply submseteq_length in Hsm. unfold dict_keys in Hsm at 1.
      rewrite length_map in Hsm. lia.
  - intros k j Hkj. unfold prune in Hkj.
    apply list_elem_of_In, filter_In in Hkj as [Hkj Hnn]. apply list_elem_of_In in Hkj.
    cbn [snd] in Hnn.
    assert (∀ k0 v, dict_get vitals k0 = Some v → k0 ∈ dict_keys vitals) as Hmem.
    { intros k0 v Hget. destruct (decide (k0 ∈ dict_keys vitals)) as [|Hn]; [done|].
      apply dict_get_None in Hn. congruence. }
    repeat (apply elem_of_cons in Hkj as [Hkj|Hkj];
            [injection Hkj as -> ->;
             unfold int_entry, round_entry in *;
             match goal with
             | |- context [dict_get vitals ?key] =>
                 destruct (dict_get vitals key) as [v|] eqn:Hget; [|done];
                 destruct (Hk key (Hmem _ _ Hget)) as (v' & r & Hv' & Hr & Hv & Ht);
                 rewrite Hget in Hv'; injection Hv' as <-;
                 rewrite Ht in *; exists r; split; [exact Hr|];
                 cbn in Hr; injection Hr as <-;
                 apply in_range_spec in Hv as [Hlo Hhi]; cbn [fst snd] in Hlo, Hhi
             end|]).
    + cbn. apply in_range_spec. cbn [fst snd].
      destruct (py_int_bounds v 80 200 ltac:(lia) Hlo Hhi).
      unfold Qle. cbn. lia.
    + cbn. apply in_range_spec. cbn [fst snd].
      destruct (py_int_bounds v 85 100 ltac:(lia) Hlo Hhi).
      unfold Qle. cbn. lia.
    + cbn. apply in_range_spec. cbn [fst snd].
      destruct (py_int_bounds v 20 80 ltac:(lia) Hlo Hhi).
      unfold Qle. cbn. lia.
    + cbn. apply in_range_spec. cbn [fst snd]. unfold py_round1.
      destruct (round_half_even_bounds (v * 10) 350 390
                  ltac:(change (inject_Z 350) with 350%Q; lra)
                  ltac:(change (inject_Z 390) with 390%Q; lra)).
      unfold Qle. cbn. lia.
    + by apply elem_of_nil in Hkj.
Qed.

Lemma production_extracted_kinds (st : Production.loop_state) (i : Production.tick_input) :
  dict_keys (production_extracted st i) ⊆ KINDS ∧
  (Production.connected st = false ∨ Production.read i = NoFrame →
   production_extracted st i = []).
Proof.
  unfold production_extracted. split.
  - destruct (Production.connected st); [|set_solver].
    destruct (Production.read i) as [|f]; [set_solver|].
    by destruct (production_extract_spec f) as (_ & ? & _).
  - intros [-> | ->]; [done|]. by destruct (Production.connected st).
Qed.

(** One iteration, with everything a run needs of it. *)
Lemma production_tick_facts (st : Production.loop_state) (i : Production.tick_input) :
  wf_history (Production.history (Production.smoother st)) →
  history_in_range Production.VALID_RANGES (Production.history (Production.smoother st)) →
  ∃ st' out body,
    Production.tick st i = Ok (st', out) ∧
    wf_history (Production.history (Production.smoother st')) ∧
    history_in_range Production.VALID_RANGES (Production.history (Production.smoother st')) ∧
    production_run_facts st st' [i] [out] [body].
Proof.
  intros Hwf Hin.
  destruct (production_tick_spec st i Hwf) as (sm' & vitals & md & c & Hpost).
  pose proof Hpost as (Htick & Hwf' & Hcase).
  destruct (production_tick_in_range _ _ _ _ Hwf Hin Htick) as (_ & Hin' & Hout).
  cbn in Hin', Hout.
  destruct (production_extracted_in_range st i) as [Hnd _].
  destruct (production_extracted_kinds st i) as [Hsub Hnil].
  assert (NoDup (dict_keys vitals) ∧ dict_keys vitals ⊆ KINDS ∧ 2 ≤ length vitals) as (Hv1 & Hv2 & Hv3).
  { destruct Hcase as [(_ & Hlen & _ & Hk & _)|(_ & _ & _ & Hk & _)].
    - rewrite Hk. split_and!; [done | done |].
      unfold dict_keys in Hk. by rewrite <- (length_map fst vitals), Hk, length_map.
    - rewrite Hk. split_and!; [compute_done | done |].
      unfold dict_keys in Hk. rewrite <- (length_map fst vitals), Hk. cbn. lia. }
  eexists _, _, _. split; [exact Htick|]. cbn.
  split_and!; try done.
  - unfold production_run_facts. cbn.
    split_and!; try done.
    + lia.
    + unfold count_ocr. cbn. destruct md; cbn; lia.
    + constructor; [|constructor]. by apply production_body_in_range.
    + by constructor.
    + constructor; [|constructor]. intros Hdis.
      destruct Hcase as [(_ & Hlen & _)|(-> & _)]; [|done].
      rewrite (Hnil Hdis) in Hlen. cbn in Hlen. lia.
Qed.

Lemma production_run_facts_all (inputs : list Production.tick_input) :
  ∀ st : Production.loop_state,
    wf_history (Production.history (Production.smoother st)) →
    history_in_range Production.VALID_RANGES (Production.history (Production.smoother st)) →
    ∃ st' outs bodies,
      Production.run_loop st inputs = Ok (st', outs) ∧
      production_run_facts st st' inputs outs bodies.
Proof.
  induction inputs as [|i inputs IH]; intros st Hwf Hin.
  - exists st, [], []. split; [done|]. unfold production_run_facts, count_ocr. cbn.
    split_and!; try done; try lia; try constructor. by rewrite app_nil_r.
  - destruct (production_tick_facts st i Hwf Hin)
      as (st1 & out & body & Htick & Hwf1 & Hin1 & F1).
    destruct (IH st1 Hwf1 Hin1) as (st' & outs & bodies & Hrun & F).
    exists st', (out :: outs), (body :: bodies). split.
    + cbn [Production.run_loop]. rewrite Htick. cbn [bind fst snd]. by rewrite Hrun.
    + destruct F1 as (A1 & A2 & A3 & A4 & A5 & A6 & A7 & A8 & A9 & A10 & A11).
      destruct F as (B1 & B2 & B3 & B4 & B5 & B6 & B7 & B8 & B9 & B10 & B11).
      unfold production_run_facts, count_ocr in *. cbn in *.
      split_and!.
      * congruence.
      * congruence.
      * rewrite B3, A3, <- app_assoc. done.
      * lia.
      * lia.
      * lia.
      * destruct (is_ocr (Production.out_mode out)); cbn in *; lia.
      * apply Forall_cons in A8 as [? _]. by constructor.
      * injection A9 as A9. by rewrite A9, B9.
      * apply Forall_cons in A10 as [? _]. by constructor.
      * apply Forall2_cons_1 in A11 as [? _]. constructor; [done|].
        rewrite A1 in B11. exact B11.
Qed.

(** X8.  Nothing out of range leaves the production loop: every body it posts,
    over any inputs, has a vitals object of at least 2 entries among the
    four kinds, each a number within the valid range of its kind (after the
    truncation or rounding of [send_vitals]), and carries the mode of the
    reading. *)
Theorem production_bodies_in_range (is_connected : bool) (n : network)
    (inputs : list Production.tick_input) :
  ∃ st' outs bodies,
    Production.run_loop (Production.start is_connected n) inputs = Ok (st', outs) ∧
    posted (Production.net st') = posted n ++ bodies ∧
    length bodies = length inputs ∧
    Forall (body_in_range Production.VALID_RANGES) bodies ∧
    map body_mode bodies = map (fun o => Some (mode_str (Production.out_mode o))) outs ∧
    Forall (fun o => dict_in_range Production.VALID_RANGES (Production.out_vitals o)) outs.
Proof.
  destruct (production_start_in_range is_connected n) as [Hwf Hin].
  destruct (production_run_facts_all inputs _ Hwf Hin)
    as (st' & outs & bodies & Hrun & F1 & F2 & F3 & F4 & F5 & F6 & F7 & F8 & F9 & F10 & _).
  by exists st', outs, bodies.
Qed.

(** X9.  Without a stream there are only simulated readings: in a run of the
    production loop, every iteration for which the stream is not connected
    or gives no frame shows and posts a reading in mode SIM; in particular a
    run that starts without a connection never leaves mode SIM and never
    counts an OCR success. *)
Theorem production_sim_without_stream (n : network) (inputs : list Production.tick_input) :
  (∀ is_connected, ∃ st' outs,
     Production.run_loop (Production.start is_connected n) inputs = Ok (st', outs) ∧
     Forall2 (fun i o => is_connected = false ∨ Production.read i = NoFrame →
                         Production.out_mode o = SIM) inputs outs) ∧
  (∃ st' outs bodies,
     Production.run_loop (Production.start false n) inputs = Ok (st', outs) ∧
     posted (Production.net st') = posted n ++ bodies ∧
     Forall (fun o => Production.out_mode o = SIM) outs ∧
     Forall (fun b => body_mode b = Some "SIM"%string) bodies ∧
     Production.ocr_success st' = 0).
Proof.
  split.
  - intros is_connected.
    destruct (production_start_in_range is_connected n) as [Hwf Hin].
    destruct (production_run_facts_all inputs _ Hwf Hin)
      as (st' & outs & bodies & Hrun & F).
    exists st', outs. split; [done|]. apply F.
  - destruct (production_start_in_range false n) as [Hwf Hin].
    destruct (production_run_facts_all inputs _ Hwf Hin)
      as (st' & outs & bodies & Hrun & F1 & F2 & F3 & F4 & F5 & F6 & F7 & F8 & F9 & F10 & F11).
    cbn in *.
    assert (Forall (fun o => Production.out_mode o = SIM) outs) as Hsim.
    { clear -F11. induction F11 as [|i o inputs outs H _ IH]; constructor; [|done].
      apply H. by left. }
    exists st', outs, bodies. split_and!; try done.
    + clear -F9 Hsim. revert bodies F9.
      induction Hsim as [|o outs Ho _ IH]; intros [|b bodies] F9; try done.
      cbn in F9. injection F9 as Hb F9. constructor; [|by apply IH].
      by rewrite Hb, Ho.
    + rewrite F7. unfold count_ocr. clear -Hsim.
      induction Hsim as [|o outs Ho _ IH]; [done|]. cbn. by rewrite Ho.
Qed.

(** X10.  In the production loop the simulated values go through the smoother:
    an iteration that falls back to simulation appends each simulated value
    to the buffer of its kind, next to the values read by OCR before. *)
Theorem production_sim_enters_buffers (st : Production.loop_state)
    (i : Production.tick_input) :
  wf_history (Production.history (Production.smoother st)) →
  length (production_extracted st i) < 2 →
  ∃ st' out,
    Production.tick st i = Ok (st', out) ∧
    Production.out_mode out = SIM ∧
    ∀ k v, (k, v) ∈ Production.generate_simulation_vitals (Production.sim i) →
      ∃ d, Production.history (Production.smoother st) !! k = Some d ∧
           Production.history (Production.smoother st') !! k = Some (deque_append d v).
Proof.
  intros Hwf Hlt.
  destruct (production_tick_spec st i Hwf) as (sm' & vitals & md & c & Htick & _ & Hcase).
  destruct Hcase as [(_ & Hge & _)|(-> & _ & Hrun & _)]; [lia|].
  eexists _, _. split; [exact Htick|]. cbn. split; [done|].
  intros k v Hkv. unfold Production.smooth in Hrun.
  destruct (smooth_items _ [] _) as [[h1 s1]|e] eqn:E; [|done].
  cbn in Hrun. injection Hrun as <- <-. cbn.
  assert (NoDup (dict_keys (Production.generate_simulation_vitals (Production.sim i))))
    as Hnd by compute_done.
  destruct (smooth_items_spec _ _ [] Hnd (smooth_items_Ok_dom _ _ _ _ _ E))
    as (h2 & s2 & Hrun2 & _ & Hin).
  rewrite E in Hrun2. injection Hrun2 as <- <-.
  destruct (Hin k v Hkv) as (d & m & Hd & Hh' & _). by exists d.
Qed.

Lemma production_sim_enters_buffers_witness :
  ∃ st' out,
    Production.tick (Production.start false {| reply_of := fun _ => HttpRaises "timeout";
                                               posted := [] |})
      {| Production.read := NoFrame;
         Production.latency := 0%Q; Production.drop_rate := 0%Q;
         Production.sim := {| Production.raw_hr := 15; Production.raw_spo2 := 4;
                              Production.raw_rr := 8; Production.raw_temp := 0 |};
         Production.raw_confidence := 0; Production.raw_inference := 0;
         Production.now := "2025-01-01T00:00:00Z" |} = Ok (st', out) ∧
    Production.history (Production.smoother st') !! "hr"
      = Some {| maxlen := 5; items := [140%Q] |}.
Proof.
  destruct (production_sim_enters_buffers
              (Production.start false {| reply_of := fun _ => HttpRaises "timeout";
                                         posted := [] |})
              {| Production.read := NoFrame;
                 Production.latency := 0%Q; Production.drop_rate := 0%Q;
                 Production.sim := {| Production.raw_hr := 15; Production.raw_spo2 := 4;
                                      Production.raw_rr := 8; Production.raw_temp := 0 |};
                 Production.raw_confidence := 0; Production.raw_inference := 0;
                 Production.now := "2025-01-01T00:00:00Z" |})
    as (st' & out & Htick & _ & Hbuf).
  - split.
    + apply Forall_forall. compute_done.
    + change (map_Forall (fun _ d => maxlen d = 5 ∧ length (items d) ≤ 5)
                (Production.history Production.VitalSmoother_default)).
      compute_done.
  - vm_compute. lia.
  - exists st', out. split; [exact Htick|].
    destruct (Hbuf "hr" 140%Q) as (d & Hd & Hd'); [left|].
    vm_compute in Hd. injection Hd as <-. exact Hd'.
Defined.

(** X11.  In the loop of the OCR connector the simulated values stay out of
    the buffers: an iteration that falls back to simulation shows the
    simulated reading as generated and leaves every buffer as it was. *)
Theorem ocr_sim_bypasses_buffers (st : OcrConnector.loop_state)
    (i : OcrConnector.tick_input) :
  wf_history (OcrConnector.history st) →
  length (ocr_extracted st i) < 2 →
  ∃ st' out,
    OcrConnector.tick st i = Ok (st', out) ∧
    OcrConnector.out_mode out = SIM ∧
    OcrConnector.out_vitals out
      = OcrConnector.generate_simulation_vitals (OcrConnector.sim i) ∧
    OcrConnector.history st' = OcrConnector.history st.
Proof.
  intros Hwf Hlt.
  destruct (ocr_tick_spec st i Hwf) as (h' & vitals & md & c & Htick & _ & Hcase).
  destruct Hcase as [(_ & Hge & _)|(-> & _ & -> & -> & _)]; [lia|].
  eexists _, _. split; [exact Htick|]. done.
Qed.

Lemma ocr_sim_bypasses_buffers_witness :
  ∃ st' out,
    OcrConnector.tick (OcrConnector.start false {| reply_of := fun _ => HttpRaises "timeout";
                                                   posted := [] |})
      {| OcrConnector.read := None;
         OcrConnector.sim := {| OcrConnector.raw_hr := 15; OcrConnector.raw_spo2 := 4;
                                OcrConnector.raw_rr := 8; OcrConnector.raw_temp := 0 |};
         OcrConnector.raw_confidence := 0; OcrConnector.raw_inference := 0;
         OcrConnector.now := "2025-01-01T00:00:00Z" |} = Ok (st', out) ∧
    OcrConnector.history st' = OcrConnector.vital_history.
Proof.
  destruct (ocr_sim_bypasses_buffers
              (OcrConnector.start false {| reply_of := fun _ => HttpRaises "timeout";
                                           posted := [] |})
              {| OcrConnector.read := None;
                 OcrConnector.sim := {| OcrConnector.raw_hr := 15; OcrConnector.raw_spo2 := 4;
                                        OcrConnector.raw_rr := 8; OcrConnector.raw_temp := 0 |};
                 OcrConnector.raw_confidence := 0; OcrConnector.raw_inference := 0;
                 OcrConnector.now := "2025-01-01T00:00:00Z" |})
    as (st' & out & Htick & _ & _ & Hh).
  - split.
    + apply Forall_forall. compute_done.
    + change (map_Forall (fun _ d => maxlen d = 5 ∧ length (items d) ≤ 5)
                OcrConnector.vital_history).
      compute_done.
  - vm_compute. lia.
  - by exists st', out.
Defined.

(** ** Runs of the loop of the OCR connector *)

(** The iterations of the loop of the OCR connector, without the display:
    from a history with a buffer for every kind none raises, each posts one
    body, and each is counted either as an OCR success or as a simulation. *)
Lemma ocr_run_loop_counts (inputs : list OcrConnector.tick_input) :
  ∀ st, wf_history (OcrConnector.history st) →
    ∃ st' outs,
      ocr_run_loop st inputs = Ok (st', outs) ∧
      wf_history (OcrConnector.history st') ∧
      length outs = length inputs ∧
      OcrConnector.stream_connected st' = OcrConnector.stream_connected st ∧
      OcrConnector.total_count st' = OcrConnector.total_count st + length inputs ∧
      OcrConnector.ocr_success_count st' + OcrConnector.sim_count st'
        = OcrConnector.ocr_success_count st + OcrConnector.sim_count st + length inputs ∧
      reply_of (OcrConnector.net st') = reply_of (OcrConnector.net st) ∧
      length (posted (OcrConnector.net st'))
        = length (posted (OcrConnector.net st)) + length inputs ∧
      ∀ j o, outs !! j = Some o →
        OcrConnector.out_result o
          = result_of (reply_of (OcrConnector.net st)
                         (length (posted (OcrConnector.net st)) + j)).
Proof.
  induction inputs as [|i inputs IH]; intros st Hwf.
  - exists st, []. cbn. split_and!; try done; lia.
  - destruct (ocr_tick_spec st i Hwf) as (h' & vitals & md & c & Htick & Hwf' & _).
    match type of Htick with _ = Ok (?s1, ?o1) =>
      destruct (IH s1 Hwf') as (st' & outs & Hrest & H0 & H1 & Hc & H2 & H3 & Hr & H4 & H5);
      exists st', (o1 :: outs)
    end.
    cbn [ocr_run_loop]. rewrite Htick. cbn [bind fst snd]. rewrite Hrest.
    cbn in *. rewrite length_app in H4, H5. cbn in H4, H5.
    split_and!; [done | done | lia | done | lia | destruct md; lia | done | lia |].
    intros [|j] o Ho; cbn in Ho.
    + injection Ho as <-. cbn. by rewrite Nat.add_0_r.
    + rewrite (H5 j o Ho). f_equal. f_equal. lia.
Qed.

(** X13.  [extract_vitals_ocr] scores exactly the kinds it returns, each with
    0.85, so that the mean the loop takes as confidence is 0.85 whenever
    something was read. *)
Theorem ocr_scores_match_vitals (frame : ocr_reply * ocr_reply) :
  let '(vitals, scores, _) := OcrConnector.extract_vitals_ocr frame in
  dict_keys scores = dict_keys vitals ∧
  Forall (fun kv => snd kv = 0.85%Q) scores ∧
  (vitals ≠ [] → (OcrConnector.mean scores == 0.85)%Q).
Proof.
  pose proof (ocr_extract_spec frame) as H.
  destruct (OcrConnector.extract_vitals_ocr frame) as [[vitals scores] snippet].
  cbn in H. destruct H as (_ & _ & Hk & Hall & _).
  split_and!; [done | done |].
  intros Hne. apply mean_const; [|done].
  intros ->. destruct vitals; done.
Qed.

(** ** The VLM extractor *)

Lemma vlm_get_set_eq (vitals : dict (option Q)) k o :
  Vlm.get (dict_set vitals k o) k = o.
Proof. unfold Vlm.get. rewrite dict_get_set_eq. by destruct o. Qed.

Lemma vlm_get_set_ne (vitals : dict (option Q)) k k' o :
  k ≠ k' → Vlm.get (dict_set vitals k o) k' = Vlm.get vitals k'.
Proof. intros Hne. unfold Vlm.get. by rewrite dict_get_set_ne. Qed.

Lemma read_fields_result (data : dict Vlm.jfield) (keys : list string) :
  ∀ vitals : dict (option Q),
    NoDup keys → keys ⊆ dict_keys vitals →
    (∀ k, k ∈ keys → Vlm.get vitals k = None) →
    (∀ k, k ∈ keys → dict_get data k ≠ Some Vlm.FOverflow) →
    ∃ out,
      Vlm.read_fields data keys vitals = Ok out ∧
      dict_keys out = dict_keys vitals ∧
      (∀ k, k ∈ keys → Vlm.get out k = kept_field k (dict_get data k)) ∧
      (∀ k, k ∉ keys → Vlm.get out k = Vlm.get vitals k).
Proof.
  induction keys as [|key keys IH]; intros vitals Hnd Hsub Hnone Hov.
  - exists vitals. split_and!; [done | done | | done].
    intros k Hk. by apply elem_of_nil in Hk.
  - apply NoDup_cons in Hnd as [Hkey Hnd].
    assert (∀ vitals', dict_keys vitals' = dict_keys vitals →
              (∀ k, k ≠ key → Vlm.get vitals' k = Vlm.get vitals k) →
              Vlm.get vitals' key = kept_field key (dict_get data key) →
              ∃ out, Vlm.read_fields data keys vitals' = Ok out ∧
                dict_keys out = dict_keys vitals ∧
                (∀ k, k ∈ key :: keys → Vlm.get out k = kept_field k (dict_get data k)) ∧
                (∀ k, k ∉ key :: keys → Vlm.get out k = Vlm.get vitals k)) as Hstep.
    { intros vitals' Hk' Hother Hthis.
      destruct (IH vitals' Hnd) as (out & Hrun & Hko & Hin & Hout).
      - rewrite Hk'. intros k Hk. apply Hsub. by right.
      - intros k Hk. rewrite Hother; [apply Hnone; by right|]. by intros ->.
      - intros k Hk. apply Hov. by right.
      - exists out. split_and!; [done | congruence | |].
        + intros k Hk. apply elem_of_cons in Hk as [->|Hk]; [|by apply Hin].
          by rewrite (Hout key Hkey).
        + intros k Hk. apply not_elem_of_cons in Hk as [Hne Hk].
          rewrite (Hout k Hk). by apply Hother. }
    assert (key ∈ dict_keys vitals) as Hmem by (apply Hsub; left).
    assert (∀ o, dict_keys (dict_set vitals key o) = dict_keys vitals) as Hkeep.
    { intros o. rewrite dict_keys_set. by rewrite bool_decide_eq_true_2. }
    cbn [Vlm.read_fields]. unfold kept_field in Hstep.
    destruct (dict_get data key) as [[|value| |]|] eqn:Hd.
    + apply Hstep; [done | done | apply Hnone; left].
    + destruct (dict_get Vlm.VALID_RANGES key) as [r|] eqn:Hr.
      * destruct value as [q| | |]; cbn [Vlm.float_in_range].
        -- destruct (in_range r q) eqn:Hq.
           ++ apply Hstep; [apply Hkeep | | apply vlm_get_set_eq].
              intros k Hne. by apply vlm_get_set_ne.
           ++ apply Hstep; [done | done | apply Hnone; left].
        -- apply Hstep; [done | done | apply Hnone; left].
        -- apply Hstep; [done | done | apply Hnone; left].
        -- apply Hstep; [done | done | apply Hnone; left].
      * apply Hstep; [done | done |]. rewrite (Hnone key ltac:(left)). by destruct value.
    + apply Hstep; [done | done | apply Hnone; left].
    + exfalso. apply (Hov key); [left | done].
    + apply Hstep; [done | done | apply Hnone; left].
Qed.

Lemma parse_decoded_ok (response_text : string) (data : dict Vlm.jfield) :
  Re.search Vlm.braces (chars response_text) ≠ None →
  (∀ k, k ∈ VLM_KEYS → dict_get data k ≠ Some Vlm.FOverflow) →
  ∃ vitals,
    Vlm.parse_vitals_response response_text (Vlm.JsonObject data) = Ok vitals ∧
    dict_keys vitals = VLM_KEYS ∧
    ∀ k, k ∈ VLM_KEYS → Vlm.get vitals k = kept_field k (dict_get data k).
Proof.
  intros Hb Hov. unfold Vlm.parse_vitals_response.
  destruct (Re.search Vlm.braces (chars response_text)); [|done].
  destruct (read_fields_result data VLM_KEYS Vlm.no_vitals) as (out & Hrun & Hk & Hin & _).
  - compute_done.
  - done.
  - intros k Hk. unfold VLM_KEYS in Hk.
    repeat (apply elem_of_cons in Hk as [->|Hk]; [done|]). by apply elem_of_nil in Hk.
  - done.
  - exists out. split_and!; [exact Hrun | by rewrite Hk | done].
Qed.

(** X14.  When the answer of the model decodes to a JSON object,
    [parse_vitals_response] returns the six keys in their order, and under
    each key what [float] returns for the value of the object, be it a JSON
    number or a string that [float] parses, if that is finite and within the
    range of the key, and [None] in every other case: key missing, null,
    [float] raising [ValueError] or [TypeError], NaN, infinite, out of range.
    It raises only [OverflowError], when [float] does. *)
Theorem vlm_parse_decoded (response_text : string) (data : dict Vlm.jfield) :
  Re.search Vlm.braces (chars response_text) ≠ None →
  ((∀ k, k ∈ VLM_KEYS → dict_get data k ≠ Some Vlm.FOverflow) →
   ∃ vitals,
     Vlm.parse_vitals_response response_text (Vlm.JsonObject data) = Ok vitals ∧
     dict_keys vitals = VLM_KEYS ∧
     ∀ k, k ∈ VLM_KEYS → Vlm.get vitals k = kept_field k (dict_get data k)) ∧
  (∀ e, Vlm.parse_vitals_response response_text (Vlm.JsonObject data) = Raise e →
        e = OverflowError ∧ ∃ k, k ∈ VLM_KEYS ∧ dict_get data k = Some Vlm.FOverflow).
Proof.
  intros Hb. split; [by apply parse_decoded_ok|].
  unfold Vlm.parse_vitals_response.
  destruct (Re.search Vlm.braces (chars response_text)); [|done].
  - intros e Hrun.
    change (dict_keys Vlm.no_vitals) with VLM_KEYS in Hrun.
    revert Hrun. generalize Vlm.no_vitals as vitals.
    induction VLM_KEYS as [|key keys IH]; intros vitals Hrun; [done|].
    cbn [Vlm.read_fields] in Hrun.
    assert (∀ vitals', Vlm.read_fields data keys vitals' = Raise e →
              e = OverflowError ∧ ∃ k, k ∈ key :: keys ∧ dict_get data k = Some Vlm.FOverflow)
      as Hrest.
    { intros vitals' H'. destruct (IH _ H') as (-> & k & Hk & Hd).
      split; [done|]. exists k. split; [by right | done]. }
    destruct (dict_get data key) as [[|value| |]|] eqn:Hd; try (by eapply Hrest).
    + destruct (dict_get Vlm.VALID_RANGES key); [|by eapply Hrest].
      destruct (Vlm.float_in_range _ value); by eapply Hrest.
    + injection Hrun as <-. split; [done|]. exists key. split; [left | done].
Qed.

Lemma vlm_parse_decoded_witness :
  ∃ vitals,
    Vlm.parse_vitals_response "{}"
      (Vlm.JsonObject [("hr", Vlm.FFloat (Vlm.Finite 150)); ("spo2", Vlm.FFloat Vlm.NaN);
                       ("temp", Vlm.FFloat (Vlm.Finite 50)); ("rr", Vlm.FNull)]) = Ok vitals ∧
    dict_keys vitals = VLM_KEYS ∧
    ∀ k, k ∈ VLM_KEYS →
      Vlm.get vitals k
        = kept_field k
            (dict_get [("hr", Vlm.FFloat (Vlm.Finite 150)); ("spo2", Vlm.FFloat Vlm.NaN);
                       ("temp", Vlm.FFloat (Vlm.Finite 50)); ("rr", Vlm.FNull)] k).
Proof.
  destruct (vlm_parse_decoded "{}"
              [("hr", Vlm.FFloat (Vlm.Finite 150)); ("spo2", Vlm.FFloat Vlm.NaN);
               ("temp", Vlm.FFloat (Vlm.Finite 50)); ("rr", Vlm.FNull)]) as [Hok _].
  - vm_compute. discriminate.
  - apply Hok. intros k Hk. unfold VLM_KEYS in Hk.
    repeat (apply elem_of_cons in Hk as [->|Hk]; [by vm_compute|]).
    by apply elem_of_nil in Hk.
Defined.

Lemma any_vital_of_get (vitals : dict (option Q)) k v :
  Vlm.get vitals k = Some v → Vlm.any_vital vitals = true.
Proof.
  unfold Vlm.get, Vlm.any_vital.
  induction vitals as [|[k0 o] vitals IH]; simpl; [done|].
  destruct (String.eqb k k0).
  - destruct o; [done | done].
  - intros H. rewrite (IH H). by destruct o.
Qed.

Lemma prune_keys_subseteq (d : list (string * json)) : dict_keys (prune d) ⊆ dict_keys d.
Proof.
  unfold prune, dict_keys. induction d as [|kv d IH]; simpl; [done|].
  destruct (negb (is_none (snd kv))); simpl.
  - intros k Hk. apply elem_of_cons in Hk as [->|Hk]; [left | right; by apply IH].
  - intros k Hk. right. by apply IH.
Qed.

Lemma vlm_tick_facts (st : Vlm.loop_state) (i : Vlm.tick_input) :
  let st' := fst (Vlm.tick st i) in
  ∃ (q s : nat) (bodies : list json),
    Vlm.total_queries st' = Vlm.total_queries st + q ∧
    Vlm.successful_extractions st' = Vlm.successful_extractions st + s ∧
    posted (Vlm.net st') = posted (Vlm.net st) ++ bodies ∧
    length bodies ≤ s ∧ s ≤ q ∧ q ≤ 1 ∧
    Vlm.stream_connected st' = Vlm.stream_connected st ∧
    reply_of (Vlm.net st') = reply_of (Vlm.net st) ∧
    Forall (fun body => ∃ vs, body_vitals body = Some vs ∧ vs ≠ [] ∧ no_null vs ∧
                              dict_keys vs ⊆ KINDS) bodies.
Proof.
  intros st'. subst st'. unfold Vlm.tick.
  destruct (if Vlm.stream_connected st then Vlm.read i else None) as [frame|].
  - destruct (Vlm.extract_vitals_vlm frame (Vlm.elapsed_ms i))
      as [[[vitals confidence] inference_time] vlm_response].
    destruct (Vlm.any_vital vitals) eqn:Hany.
    + unfold Vlm.send_vitals.
      destruct (Vlm.payload_vitals vitals) as [|kv rest] eqn:Hp.
      * exists 1, 1, []. cbn. rewrite app_nil_r. split_and!; try done; lia.
      * exists 1, 1, [Vlm.payload vitals confidence inference_time vlm_response (Vlm.now i)].
        unfold requests_post.
        destruct (reply_of (Vlm.net st) (length (posted (Vlm.net st)))); cbn.
        all: split_and!; try done; try lia.
        all: apply Forall_singleton; exists (kv :: rest); rewrite <- Hp.
        all: split_and!; [done | by rewrite Hp | apply prune_no_null | apply prune_keys_subseteq].
    + exists 1, 0, []. cbn. rewrite app_nil_r. split_and!; try done; lia.
  - exists 0, 0, []. cbn. rewrite app_nil_r. split_and!; try done; lia.
Qed.

(** X15.  Over any run of the loop of the VLM extractor, the readings posted are
    at most the successful extractions, these at most the queries, and these
    at most the iterations; whether the stream is connected never changes;
    and every reading posted carries a vitals object that is not empty, has
    no null and has its keys among hr, spo2, rr and temp. *)
Theorem vlm_run_counts (st : Vlm.loop_state) (inputs : list Vlm.tick_input) :
  let st' := vlm_run_loop st inputs in
  ∃ (q s : nat) (bodies : list json),
    Vlm.total_queries st' = Vlm.total_queries st + q ∧
    Vlm.successful_extractions st' = Vlm.successful_extractions st + s ∧
    posted (Vlm.net st') = posted (Vlm.net st) ++ bodies ∧
    length bodies ≤ s ∧ s ≤ q ∧ q ≤ length inputs ∧
    Vlm.stream_connected st' = Vlm.stream_connected st ∧
    Forall (fun body => ∃ vs, body_vitals body = Some vs ∧ vs ≠ [] ∧ no_null vs ∧
                              dict_keys vs ⊆ KINDS) bodies.
Proof.
  revert st. induction inputs as [|i inputs IH]; intros st; cbn [vlm_run_loop].
  - exists 0, 0, []. rewrite app_nil_r. cbn. split_and!; try done; lia.
  - destruct (vlm_tick_facts st i) as (q1 & s1 & b1 & Hq1 & Hs1 & Hp1 & ? & ? & ? & Hc1 & _ & Hb1).
    destruct (IH (fst (Vlm.tick st i))) as (q2 & s2 & b2 & Hq2 & Hs2 & Hp2 & ? & ? & ? & Hc2 & Hb2).
    exists (q1 + q2), (s1 + s2), (b1 ++ b2).
    rewrite Hq2, Hs2, Hp2, Hc2, Hq1, Hs1, Hp1, Hc1, length_app. cbn [length].
    split_and!; try lia; try done.
    + by rewrite app_assoc.
    + by apply Forall_app.
Qed.

(** X16.  The VLM extractor has no simulated fallback: while the stream is not
    connected the loop queries nothing and posts nothing, whatever the
    iterations are given. *)
Theorem vlm_idle_without_stream (q s : nat) (net : network) (inputs : list Vlm.tick_input) :
  vlm_run_loop {| Vlm.stream_connected := false; Vlm.total_queries := q;
                  Vlm.successful_extractions := s; Vlm.net := net |} inputs
    = {| Vlm.stream_connected := false; Vlm.total_queries := q;
         Vlm.successful_extractions := s; Vlm.net := net |}.
Proof. induction inputs as [|i inputs IH]; [done|]. cbn [vlm_run_loop]. exact IH. Qed.

(** X17.  An answer of the model that decodes to an object with a blood pressure
    within range and none of hr, spo2, rr, temp within range is counted as a
    successful extraction, yet nothing is posted: the result of the
    iteration is the error [No vitals extracted]. *)
Theorem vlm_blood_pressure_only (st : Vlm.loop_state) (i : Vlm.tick_input)
    (response_text : string) (data : dict Vlm.jfield) :
  Vlm.stream_connected st = true →
  Vlm.read i = Some (Vlm.VlmAnswer response_text (Vlm.JsonObject data)) →
  Re.search Vlm.braces (chars response_text) ≠ None →
  (∀ k, k ∈ VLM_KEYS → dict_get data k ≠ Some Vlm.FOverflow) →
  (∀ k, k ∈ KINDS → kept_field k (dict_get data k) = None) →
  (kept_field "bp_sys" (dict_get data "bp_sys") ≠ None ∨
   kept_field "bp_dia" (dict_get data "bp_dia") ≠ None) →
  ∃ vitals confidence,
    Vlm.tick st i
      = ({| Vlm.stream_connected := true;
            Vlm.total_queries := S (Vlm.total_queries st);
            Vlm.successful_extractions := S (Vlm.successful_extractions st);
            Vlm.net := Vlm.net st |},
         Some (vitals, confidence, JDict [("error", JText "No vitals extracted")])) ∧
    Vlm.get vitals "bp_sys" = kept_field "bp_sys" (dict_get data "bp_sys") ∧
    Vlm.get vitals "bp_dia" = kept_field "bp_dia" (dict_get data "bp_dia").
Proof.
  intros Hc Hread Hb Hov Hnone Hbp.
  destruct (parse_decoded_ok response_text data Hb Hov) as (vitals & Hrun & Hkeys & Hget).
  assert (Vlm.any_vital vitals = true) as Hany.
  { destruct Hbp as [Hs|Hd].
    - destruct (kept_field "bp_sys" (dict_get data "bp_sys")) as [v|] eqn:Hv; [|done].
      apply (any_vital_of_get vitals "bp_sys" v). rewrite Hget; [done | compute_done].
    - destruct (kept_field "bp_dia" (dict_get data "bp_dia")) as [v|] eqn:Hv; [|done].
      apply (any_vital_of_get vitals "bp_dia" v). rewrite Hget; [done | compute_done]. }
  assert (Vlm.payload_vitals vitals = []) as Hp.
  { unfold Vlm.payload_vitals, Vlm.int_entry, Vlm.round_entry.
    rewrite !Hget by compute_done. rewrite !Hnone by compute_done. done. }
  eexists vitals, _. split_and!.
  - unfold Vlm.tick. rewrite Hc, Hread. unfold Vlm.extract_vitals_vlm. rewrite Hrun.
    rewrite Hany. unfold Vlm.send_vitals. rewrite Hp. reflexivity.
  - apply Hget. compute_done.
  - apply Hget. compute_done.
Qed.

Lemma vlm_blood_pressure_only_witness :
  let st := {| Vlm.stream_connected := true; Vlm.total_queries := 0;
               Vlm.successful_extractions := 0;
               Vlm.net := {| reply_of := fun _ => HttpJson [("success", JBoolean true)];
                             posted := [] |} |} in
  let data := [("bp_sys", Vlm.FFloat (Vlm.Finite 70)); ("hr", Vlm.FFloat (Vlm.Finite 10))] in
  let i := {| Vlm.read := Some (Vlm.VlmAnswer "{}" (Vlm.JsonObject data));
              Vlm.elapsed_ms := 900; Vlm.now := "t" |} in
  ∃ vitals confidence,
    Vlm.tick st i
      = ({| Vlm.stream_connected := true;
            Vlm.total_queries := S (Vlm.total_queries st);
            Vlm.successful_extractions := S (Vlm.successful_extractions st);
            Vlm.net := Vlm.net st |},
         Some (vitals, confidence, JDict [("error", JText "No vitals extracted")])) ∧
    Vlm.get vitals "bp_sys" = kept_field "bp_sys" (dict_get data "bp_sys") ∧
    Vlm.get vitals "bp_dia" = kept_field "bp_dia" (dict_get data "bp_dia").
Proof.
  intros st data i.
  apply (vlm_blood_pressure_only st i "{}" data).
  - reflexivity.
  - reflexivity.
  - vm_compute. discriminate.
  - intros k Hk. unfold VLM_KEYS in Hk.
    repeat (apply elem_of_cons in Hk as [->|Hk]; [by vm_compute|]).
    by apply elem_of_nil in Hk.
  - intros k Hk. unfold KINDS in Hk.
    repeat (apply elem_of_cons in Hk as [->|Hk]; [by vm_compute|]).
    by apply elem_of_nil in Hk.
  - left. vm_compute. discriminate.
Defined.

(** ** The stream reader *)

Lemma call_facts (r : OptimizedStreamReader.reader) (op : reader_call) :
  reader_inv r →
  reader_inv (call r op) ∧
  OptimizedStreamReader.frame_count r ≤ OptimizedStreamReader.frame_count (call r op) ∧
  OptimizedStreamReader.drop_count r ≤ OptimizedStreamReader.drop_count (call r op) ∧
  OptimizedStreamReader.frame_count (call r op) + OptimizedStreamReader.drop_count (call r op)
    ≤ S (OptimizedStreamReader.frame_count r + OptimizedStreamReader.drop_count r).
Proof.
  intros [Hm Hl].
  assert (∀ c, let r' := fst (OptimizedStreamReader.get_frame r c) in
            reader_inv r' ∧
            OptimizedStreamReader.frame_count r ≤ OptimizedStreamReader.frame_count r' ∧
            OptimizedStreamReader.drop_count r ≤ OptimizedStreamReader.drop_count r' ∧
            OptimizedStreamReader.frame_count r' + OptimizedStreamReader.drop_count r'
              ≤ S (OptimizedStreamReader.frame_count r + OptimizedStreamReader.drop_count r))
    as Hget.
  { intros c. unfold OptimizedStreamReader.get_frame, reader_inv.
    destruct (OptimizedStreamReader.connected r); [|cbn; split_and!; [done | done | lia..]].
    destruct (if OptimizedStreamReader.grabbed c then OptimizedStreamReader.retrieved c
              else (false, None)) as [[|] [frame|]]; cbn.
    2-4: split_and!; [done | done | lia..].
    split_and!; [done | | lia..].
    rewrite length_drop, length_app, Hm, Hl. cbn [length]. lia. }
  destruct op as [opened|c|c t_now reopened|]; cbn [call].
  - unfold OptimizedStreamReader.connect, reader_inv.
    destruct opened; cbn; split_and!; try done; lia.
  - apply Hget.
  - unfold OptimizedStreamReader.acquire.
    destruct (OptimizedStreamReader.connected r); [|cbn; split_and!; [done | lia..]].
    specialize (Hget c).
    destruct (OptimizedStreamReader.get_frame r c) as [r' [[f|] latency]]; cbn [fst] in *;
      [done|].
    destruct (Qlt_le_dec _ _); cbn [fst]; [|done].
    unfold OptimizedStreamReader.connect, reader_inv in *.
    destruct reopened; cbn; [|done]. done.
  - unfold OptimizedStreamReader.release, reader_inv. cbn. split_and!; [done | done | lia..].
Qed.

Lemma calls_facts (ops : list reader_call) :
  ∀ r, reader_inv r →
    reader_inv (calls r ops) ∧
    OptimizedStreamReader.frame_count (calls r ops) + OptimizedStreamReader.drop_count (calls r ops)
      ≤ OptimizedStreamReader.frame_count r + OptimizedStreamReader.drop_count r + length ops.
Proof.
  unfold calls. induction ops as [|op ops IH]; intros r Hr; cbn [fold_left length].
  - split; [done | lia].
  - destruct (call_facts r op Hr) as (Hr' & _ & _ & Hsum).
    destruct (IH _ Hr') as [Hinv Hle]. split; [done | lia].
Qed.

Lemma reader_inv_init : reader_inv OptimizedStreamReader.init.
Proof. by split. Qed.

(** X18.  Whatever calls [main] makes on a new reader, the latencies it holds are
    those of the last 100 frames kept at most: their number is the smaller of
    the frame count and 100; and each call counts one frame or one drop at
    most. *)
Theorem reader_window_and_counts (ops : list reader_call) :
  let r := calls OptimizedStreamReader.init ops in
  maxlen (OptimizedStreamReader.latencies r) = 100 ∧
  length (items (OptimizedStreamReader.latencies r))
    = Nat.min (OptimizedStreamReader.frame_count r) 100 ∧
  OptimizedStreamReader.frame_count r + OptimizedStreamReader.drop_count r ≤ length ops.
Proof.
  destruct (calls_facts ops _ reader_inv_init) as [[Hm Hl] Hle].
  cbn in Hle. by split_and!.
Qed.

Lemma py_max_ge_start (l : list Q) : ∀ x, (x <= OptimizedStreamReader.py_max x l)%Q.
Proof.
  unfold OptimizedStreamReader.py_max.
  induction l as [|y l IH]; intros x; cbn [fold_left]; [apply Qle_refl|].
  destruct (Qlt_le_dec x y) as [Hlt|Hle]; [|apply IH].
  eapply Qle_trans; [apply Qlt_le_weak, Hlt | apply IH].
Qed.

Lemma py_max_ge (l : list Q) :
  ∀ x y, y ∈ x :: l → (y <= OptimizedStreamReader.py_max x l)%Q.
Proof.
  induction l as [|z l IH]; intros x y Hy.
  - apply elem_of_cons in Hy as [->|Hy]; [apply Qle_refl | by apply elem_of_nil in Hy].
  - unfold OptimizedStreamReader.py_max. cbn [fold_left].
    fold (OptimizedStreamReader.py_max (if Qlt_le_dec x z then z else x) l).
    apply elem_of_cons in Hy as [->|Hy].
    + destruct (Qlt_le_dec x z) as [Hlt|Hle]; [|apply py_max_ge_start].
      eapply Qle_trans; [apply Qlt_le_weak, Hlt | apply py_max_ge_start].
    + apply elem_of_cons in Hy as [->|Hy].
      * destruct (Qlt_le_dec x z) as [Hlt|Hle]; [apply py_max_ge_start|].
        eapply Qle_trans; [apply Hle | apply py_max_ge_start].
      * apply IH. by right.
Qed.

Lemma py_max_in (l : list Q) : ∀ x, OptimizedStreamReader.py_max x l ∈ x :: l.
Proof.
  unfold OptimizedStreamReader.py_max.
  induction l as [|z l IH]; intros x; cbn [fold_left]; [left|].
  specialize (IH (if Qlt_le_dec x z then z else x)).
  apply elem_of_cons in IH as [->|IH]; [|by do 2 right].
  destruct (Qlt_le_dec x z); [right; left | left].
Qed.

Lemma p95_index (n : nat) :
  0 < n →
  let i := Z.to_nat (py_int (inject_Z (Z.of_nat n) * 0.95)%Q) in
  i < n ∧ 95 * n < 100 * (i + 1).
Proof.
  intros Hn i. subst i.
  assert (py_int (inject_Z (Z.of_nat n) * 0.95)%Q = (Z.of_nat n * 95 / 100)%Z) as ->.
  { unfold py_int. cbn [Qmult inject_Z Qnum Qden]. apply Z.quot_div_nonneg; lia. }
  assert (0 <= Z.of_nat n * 95 / 100)%Z by (apply Z.div_pos; lia).
  pose proof (Z.mul_div_le (Z.of_nat n * 95) 100 ltac:(lia)).
  pose proof (Z.mul_succ_div_gt (Z.of_nat n * 95) 100 ltac:(lia)).
  split; lia.
Qed.

Lemma drop_rate_bounds (f d : nat) :
  (0 <= inject_Z (Z.of_nat d) / inject_Z (Z.of_nat (Nat.max 1 (f + d))) * 100 <= 100)%Q.
Proof.
  assert (0 < inject_Z (Z.of_nat (Nat.max 1 (f + d))))%Q as Hpos.
  { change 0%Q with (inject_Z 0). rewrite <- Zlt_Qlt. lia. }
  assert (0 <= inject_Z (Z.of_nat d))%Q as Hd.
  { change 0%Q with (inject_Z 0). rewrite <- Zle_Qle. lia. }
  assert (inject_Z (Z.of_nat d) <= inject_Z (Z.of_nat (Nat.max 1 (f + d))))%Q as Hle.
  { rewrite <- Zle_Qle. lia. }
  split.
  - apply Qmult_le_0_compat; [|done].
    apply Qle_shift_div_l; [done|]. by rewrite Qmult_0_l.
  - change 100%Q with (1 * 100)%Q at 2. apply Qmult_le_compat_r; [|done].
    apply Qle_shift_div_r; [done|]. by rewrite Qmult_1_l.
Qed.

(** X19.  [get_stats] never raises, whatever the reader holds.  It returns the
    empty dictionary exactly when no latency is held.  Otherwise the drop
    rate lies between 0 and 100, the maximal latency is one of the latencies
    held and bounds them all, the 95th percentile is one of them and is at
    most the maximum, and from 20 latencies on more than 95 in 100 of them
    are at most the percentile. *)
Theorem reader_stats_bounds (self : OptimizedStreamReader.reader) :
  let lats := items (OptimizedStreamReader.latencies self) in
  ∃ o,
    OptimizedStreamReader.get_stats self = Ok o ∧
    (o = None ↔ lats = []) ∧
    ∀ s, o = Some s →
      OptimizedStreamReader.frames s = OptimizedStreamReader.frame_count self ∧
      OptimizedStreamReader.drops s = OptimizedStreamReader.drop_count self ∧
      (0 <= OptimizedStreamReader.drop_rate s <= 100)%Q ∧
      OptimizedStreamReader.latency_max s ∈ lats ∧
      (∀ y, y ∈ lats → (y <= OptimizedStreamReader.latency_max s)%Q) ∧
      OptimizedStreamReader.latency_p95 s ∈ lats ∧
      (OptimizedStreamReader.latency_p95 s <= OptimizedStreamReader.latency_max s)%Q ∧
      (20 ≤ length lats →
       95 * length lats < 100 * count_le (OptimizedStreamReader.latency_p95 s) lats).
Proof.
  intros lats. subst lats. unfold OptimizedStreamReader.get_stats.
  destruct (items (OptimizedStreamReader.latencies self)) as [|x rest] eqn:Hl.
  { exists None. split_and!; [done | done | done]. }
  set (lats := x :: rest).
  destruct (20 <=? length lats) eqn:Hn.
  - apply Nat.leb_le in Hn.
    destruct (p95_index (length lats) ltac:(lia)) as [Hi Hc].
    destruct (sorted lats !! Z.to_nat (py_int (inject_Z (Z.of_nat (length lats)) * 0.95)%Q))
      as [v|] eqn:Hv.
    2:{ apply lookup_ge_None in Hv. rewrite sorted_length in Hv. lia. }
    assert (v ∈ lats) as Hin.
    { rewrite <- (sorted_perm lats). by eapply list_elem_of_lookup_2. }
    eexists. cbn [bind]. split; [reflexivity|]. split; [done|].
    intros s [= <-].
    cbn [OptimizedStreamReader.frames OptimizedStreamReader.drops
         OptimizedStreamReader.drop_rate OptimizedStreamReader.latency_max
         OptimizedStreamReader.latency_p95].
    split_and!; [done | done | apply drop_rate_bounds.. | apply py_max_in
                 | apply py_max_ge | done | by apply py_max_ge |].
    intros _.
    destruct (sorted_index_counts (sorted lats) _ v (sorted_sorted lats) Hv) as [Hcount _].
    rewrite (count_le_perm v _ _ (sorted_perm lats)) in Hcount.
    fold lats. lia.
  - apply Nat.leb_gt in Hn.
    eexists. cbn [bind]. split; [reflexivity|]. split; [done|].
    intros s [= <-].
    cbn [OptimizedStreamReader.frames OptimizedStreamReader.drops
         OptimizedStreamReader.drop_rate OptimizedStreamReader.latency_max
         OptimizedStreamReader.latency_p95].
    split_and!; [done | done | apply drop_rate_bounds.. | apply py_max_in
                 | apply py_max_ge | apply py_max_in | apply Qle_refl |].
    fold lats. lia.
Qed.

Lemma get_stats_some (self : OptimizedStreamReader.reader) :
  items (OptimizedStreamReader.latencies self) ≠ [] →
  ∃ s,
    OptimizedStreamReader.get_stats self = Ok (Some s) ∧
    OptimizedStreamReader.frames s = OptimizedStreamReader.frame_count self ∧
    OptimizedStreamReader.drop_rate s
      = (inject_Z (Z.of_nat (OptimizedStreamReader.drop_count self))
         / inject_Z (Z.of_nat (Nat.max 1 (OptimizedStreamReader.frame_count self
                                          + OptimizedStreamReader.drop_count self)))
         * 100)%Q.
Proof.
  intros Hne. unfold OptimizedStreamReader.get_stats.
  destruct (items (OptimizedStreamReader.latencies self)) as [|x rest]; [done|].
  set (lats := x :: rest).
  destruct (20 <=? length lats) eqn:Hn.
  - apply Nat.leb_le in Hn.
    destruct (p95_index (length lats) ltac:(lia)) as [Hi _].
    destruct (sorted lats !! Z.to_nat (py_int (inject_Z (Z.of_nat (length lats)) * 0.95)%Q))
      as [v|] eqn:Hv.
    2:{ apply lookup_ge_None in Hv. rewrite sorted_length in Hv. lia. }
    eexists. cbn [bind]. split; [reflexivity|]. by split.
  - eexists. cbn [bind]. split; [reflexivity|]. by split.
Qed.

Lemma reachable_no_latency (ops : list reader_call) :
  let r := calls OptimizedStreamReader.init ops in
  items (OptimizedStreamReader.latencies r) = [] ↔ OptimizedStreamReader.frame_count r = 0.
Proof.
  destruct (calls_facts ops _ reader_inv_init) as [[Hm Hl] _]. cbn zeta.
  destruct (items _) as [|x l]; cbn [length] in Hl; split; intros H; try done; lia.
Qed.

(** X20.  The drop rate [main] reads from the statistics for the metadata,
    for a reader after any calls: 0 as long as no frame was kept, however
    many reads were dropped, and from the first frame kept on the share of
    the drops among all reads, in percent. *)
Theorem drop_rate_hidden_before_first_frame (ops : list reader_call) :
  let r := calls OptimizedStreamReader.init ops in
  let f := OptimizedStreamReader.frame_count r in
  let d := OptimizedStreamReader.drop_count r in
  OptimizedStreamReader.reported_drop_rate r
    = Ok (if f =? 0 then 0%Q
          else (inject_Z (Z.of_nat d) / inject_Z (Z.of_nat (f + d)) * 100)%Q).
Proof.
  intros r f d. subst f d. unfold OptimizedStreamReader.reported_drop_rate.
  pose proof (reachable_no_latency ops) as Hiff. fold r in Hiff. cbn zeta in Hiff.
  destruct (OptimizedStreamReader.frame_count r =? 0) eqn:Hf.
  - apply Nat.eqb_eq in Hf. apply Hiff in Hf.
    unfold OptimizedStreamReader.get_stats. by rewrite Hf.
  - apply Nat.eqb_neq in Hf.
    destruct (get_stats_some r) as (s & -> & _ & Hrate); [by rewrite Hiff|].
    cbn [bind]. rewrite Hrate.
    by replace (Nat.max 1 (OptimizedStreamReader.frame_count r
                           + OptimizedStreamReader.drop_count r))
      with (OptimizedStreamReader.frame_count r + OptimizedStreamReader.drop_count r) by lia.
Qed.

(** X21.  When [main] is interrupted, the report on the stream raises [KeyError]
    on the key [frames] exactly when the stream is connected and no frame was
    ever kept, and it raises nothing else. *)
Theorem interrupt_report_key_error (ops : list reader_call) :
  let r := calls OptimizedStreamReader.init ops in
  (OptimizedStreamReader.interrupt_report r = Raise (KeyError "frames")
   ↔ OptimizedStreamReader.connected r = true ∧ OptimizedStreamReader.frame_count r = 0) ∧
  (∀ e, OptimizedStreamReader.interrupt_report r = Raise e → e = KeyError "frames").
Proof.
  intros r. unfold OptimizedStreamReader.interrupt_report.
  pose proof (reachable_no_latency ops) as Hiff. fold r in Hiff. cbn zeta in Hiff.
  destruct (OptimizedStreamReader.connected r).
  2:{ split; [split; [done | by intros [? _]] | done]. }
  destruct (OptimizedStreamReader.frame_count r) as [|n] eqn:Hf.
  - assert (items (OptimizedStreamReader.latencies r) = []) as Hnil by by apply Hiff.
    unfold OptimizedStreamReader.get_stats. rewrite Hnil. cbn [bind].
    split; [done|]. by intros e [= <-].
  - destruct (get_stats_some r) as (s & -> & _ & _).
    { rewrite Hiff. lia. }
    cbn [bind]. split; [split; [done | by intros [_ ?]] | done].
Qed.

Lemma connect_with_retries_spec (opens : nat → bool) (fuel : nat) :
  ∀ (stream : OptimizedStreamReader.reader) (a : nat),
    OptimizedStreamReader.connected stream = false →
    a ≤ 5 → 5 - a ≤ fuel →
    ∃ r n,
      OptimizedStreamReader.connect_with_retries fuel stream a opens = (r, n) ∧
      a ≤ n ≤ 5 ∧
      (∀ j, a ≤ j < n → opens j = false) ∧
      (n < 5 → opens n = true) ∧
      OptimizedStreamReader.connected r = (n <? 5) ∧
      OptimizedStreamReader.frame_count r = OptimizedStreamReader.frame_count stream ∧
      OptimizedStreamReader.drop_count r = OptimizedStreamReader.drop_count stream ∧
      OptimizedStreamReader.latencies r = OptimizedStreamReader.latencies stream.
Proof.
  induction fuel as [|fuel IH]; intros stream a Hc Ha Hfuel.
  - assert (a = 5) as -> by lia. exists stream, 5. cbn.
    split_and!; try done; try lia; try (intros j Hj; lia).
  - cbn [OptimizedStreamReader.connect_with_retries].
    unfold OptimizedStreamReader.MAX_RECONNECT_ATTEMPTS.
    destruct (a <? 5) eqn:Hlt.
    + apply Nat.ltb_lt in Hlt. unfold OptimizedStreamReader.connect.
      destruct (opens a) eqn:Hopen.
      * eexists _, a. split; [reflexivity|]. cbn.
        split_and!; try done; try lia; try (intros j Hj; lia).
        symmetry. apply Nat.leb_le. lia.
      * destruct (IH stream (S a) Hc ltac:(lia) ltac:(lia))
          as (r & n & Hrun & Hn & Hfalse & Htrue & Hconn & Hf & Hd & Hl).
        exists r, n. split; [exact Hrun|].
        split_and!; try done; try lia.
        intros j Hj. destruct (decide (j = a)) as [->|Hne]; [done|]. apply Hfalse. lia.
    + apply Nat.ltb_ge in Hlt. assert (a = 5) as -> by lia.
      exists stream, 5. split_and!; try done; try lia; try (intros j Hj; lia).
Qed.

(** X22.  The start of [main] calls [connect()] until it succeeds, five times at
    most: it stops at the first attempt that finds the stream open, the
    reader is connected exactly when one of the first five attempts does, and
    otherwise the loop ends after five attempts with the reader not
    connected; the counters of the reader stay at zero. *)
Theorem startup_retries (opens : nat → bool) (extra : nat) :
  ∃ r n,
    OptimizedStreamReader.connect_with_retries (5 + extra) OptimizedStreamReader.init 0 opens
      = (r, n) ∧
    n ≤ 5 ∧
    (∀ j, j < n → opens j = false) ∧
    (n < 5 → opens n = true) ∧
    (OptimizedStreamReader.connected r = true ↔ ∃ j, j < 5 ∧ opens j = true) ∧
    OptimizedStreamReader.frame_count r = 0 ∧
    OptimizedStreamReader.drop_count r = 0.
Proof.
  destruct (connect_with_retries_spec opens (5 + extra) OptimizedStreamReader.init 0)
    as (r & n & Hrun & Hn & Hfalse & Htrue & Hconn & Hf & Hd & _); [done | lia | lia |].
  exists r, n. split; [exact Hrun|].
  split_and!; [lia | | done | | done | done].
  - intros j Hj. apply Hfalse. lia.
  - rewrite Hconn. split.
    + intros Hlt. apply Nat.ltb_lt in Hlt. exists n. split; [done | by apply Htrue].
    + intros (j & Hj & Hopen). apply Nat.ltb_lt.
      destruct (decide (n < 5)) as [|Hge]; [done|].
      assert (opens j = false) by (apply Hfalse; lia). congruence.
Qed.

(** X23.  Only [release()] clears the connected flag: after any calls of
    [connect()], [get_frame()] and the reconnecting read of [main] on a
    connected reader, the reader is still connected, also when [connect()]
    finds the stream closed. *)
Theorem connected_until_release (r : OptimizedStreamReader.reader) (ops : list reader_call) :
  OptimizedStreamReader.connected r = true →
  existsb is_release ops = false →
  OptimizedStreamReader.connected (calls r ops) = true.
Proof.
  unfold calls. revert r. induction ops as [|op ops IH]; intros r Hc Hops; [done|].
  cbn [existsb] in Hops. apply orb_false_iff in Hops as [Hop Hops].
  cbn [fold_left]. apply IH; [|done].
  destruct op as [opened|c|c t_now reopened|]; cbn [call]; [| | |done].
  - unfold OptimizedStreamReader.connect. by destruct opened.
  - unfold OptimizedStreamReader.get_frame. rewrite Hc.
    by destruct (if OptimizedStreamReader.grabbed c then OptimizedStreamReader.retrieved c
                 else (false, None)) as [[|] [frame|]].
  - unfold OptimizedStreamReader.acquire, OptimizedStreamReader.get_frame. rewrite Hc.
    destruct (if OptimizedStreamReader.grabbed c then OptimizedStreamReader.retrieved c
              else (false, None)) as [[|] [frame|]]; cbn [fst]; try done.
    all: destruct (Qlt_le_dec _ _); cbn [fst]; [|done].
    all: unfold OptimizedStreamReader.connect; by destruct reopened.
Qed.

Lemma connected_until_release_witness :
  let c := {| OptimizedStreamReader.t_start := 0; OptimizedStreamReader.grabbed := false;
              OptimizedStreamReader.retrieved := (false, None);
              OptimizedStreamReader.t_end := 1; OptimizedStreamReader.t_kept := 1 |} in
  OptimizedStreamReader.connected
    (calls (fst (OptimizedStreamReader.connect OptimizedStreamReader.init true))
       [CallGetFrame c; CallAcquire c 9 false; CallConnect false]) = true.
Proof.
  intros c.
  apply (connected_until_release
           (fst (OptimizedStreamReader.connect OptimizedStreamReader.init true))
           [CallGetFrame c; CallAcquire c 9 false; CallConnect false]).
  - reflexivity.
  - reflexivity.
Defined.

(** ** Texts without digits *)

Lemma cls_sub_spec (p q : Re.cls) :
  cls_sub p q = true → ∀ c, p c = true → q c = true.
Proof.
  unfold cls_sub. intros H c Hp.
  rewrite forallb_forall in H.
  specialize (H (nat_of_ascii c)). rewrite ascii_nat_embedding, Hp in H.
  apply H. apply in_seq. pose proof (nat_ascii_bounded c). lia.
Qed.

Section Digitless.
Context {R : Type} (q : Re.cls).

Lemma rep_none (p : Re.cls) (s : list ascii) :
  ∀ lo hi prev cap (k : @Re.cont R),
    Forall (fun c => q c = false) s →
    (1 <=? lo) && cls_sub p q = true ∨
    (∀ prev0 s0 cap0, Forall (fun c => q c = false) s0 → k prev0 s0 cap0 = None) →
    Re.rep p lo hi prev s cap k = None.
Proof.
  induction s as [|c s IH]; intros lo hi prev cap k Hs Hor.
  - cbn [Re.rep]. destruct Hor as [Hn|Hk].
    + apply andb_true_iff in Hn as [Hlo _]. apply Nat.leb_le in Hlo.
      by destruct lo; [lia|].
    + destruct (lo =? 0); [by apply Hk | done].
  - cbn [Re.rep].
    assert ((if lo =? 0 then k prev (c :: s) cap else None) = None) as Hstop.
    { destruct Hor as [Hn|Hk].
      - apply andb_true_iff in Hn as [Hlo _]. apply Nat.leb_le in Hlo.
        by destruct lo; [lia|].
      - destruct (lo =? 0); [by apply Hk | done]. }
    rewrite Hstop.
    destruct (p c && Re.more hi) eqn:Hpc; [|done].
    apply andb_true_iff in Hpc as [Hpc _].
    apply Forall_cons in Hs as [Hc Hs].
    destruct Hor as [Hn|Hk].
    + apply andb_true_iff in Hn as [_ Hsub].
      rewrite (cls_sub_spec p q Hsub c Hpc) in Hc. done.
    + rewrite (IH (pred lo) (Re.dec hi) (Some c) cap k Hs); [done | by right].
Qed.

Lemma run_none (r : Re.regex) :
  ∀ prev s cap (k : @Re.cont R),
    Forall (fun c => q c = false) s →
    needs q r = true ∨
    (∀ prev0 s0 cap0, Forall (fun c => q c = false) s0 → k prev0 s0 cap0 = None) →
    Re.run r prev s cap k = None.
Proof.
  induction r as [|p|p lo hi|r1 IH1 r2 IH2|r1 IH1 r2 IH2|r1 IH1|p|p];
    intros prev s cap k Hs Hor; cbn [Re.run needs] in *.
  - destruct Hor as [|Hk]; [done | by apply Hk].
  - destruct s as [|c s]; [done|]. apply Forall_cons in Hs as [Hc Hs].
    destruct (p c) eqn:Hpc; [|done].
    destruct Hor as [Hsub|Hk]; [|by apply Hk].
    rewrite (cls_sub_spec p q Hsub c Hpc) in Hc. done.
  - by apply rep_none.
  - apply IH1; [done|].
    destruct Hor as [Hn|Hk].
    + apply orb_true_iff in Hn as [H1|H2]; [by left|].
      right. intros prev' s' cap' Hs'. apply IH2; [done | by left].
    + right. intros prev' s' cap' Hs'. apply IH2; [done | by right].
  - rewrite IH1, IH2; [done | done | | done |].
    + destruct Hor as [Hn|Hk]; [|by right].
      apply andb_true_iff in Hn as [_ H2]. by left.
    + destruct Hor as [Hn|Hk]; [|by right].
      apply andb_true_iff in Hn as [H1 _]. by left.
  - apply IH1; [done|].
    destruct Hor as [Hn|Hk]; [by left|].
    right. intros prev' s' cap' Hs'. by apply Hk.
  - destruct Hor as [|Hk]; [done|].
    destruct prev as [c|]; [|by apply Hk]. destruct (p c); [done | by apply Hk].
  - destruct Hor as [|Hk]; [done|].
    destruct s as [|c s']; [by apply Hk|]. destruct (p c); [done | by apply Hk].
Qed.

End Digitless.

Lemma search_none (q : Re.cls) (r : Re.regex) (s : list ascii) :
  needs q r = true → Forall (fun c => q c = false) s → Re.search r s = None.
Proof.
  intros Hn. unfold Re.search. generalize (@None ascii) as prev.
  induction s as [|c s IH]; intros prev Hs; cbn [Re.search_from].
  - unfold Re.match_here. rewrite (run_none q r); [done | done | by left].
  - unfold Re.match_here. rewrite (run_none q r); [|done | by left].
    apply IH. by apply Forall_cons in Hs as [_ Hs].
Qed.

Lemma scan_patterns_none (range : option (Q * Q)) (patterns : list Re.regex)
    (txt : list ascii) :
  forallb (needs Re.digit) patterns = true → no_digit txt →
  scan_patterns range patterns txt = Ok None.
Proof.
  intros Hn Htxt. induction patterns as [|p rest IH]; [done|].
  cbn [forallb] in Hn. apply andb_true_iff in Hn as [Hp Hrest].
  cbn [scan_patterns]. rewrite (search_none Re.digit p txt Hp Htxt). by apply IH.
Qed.

Lemma upper_char_digit (c : ascii) :
  Re.digit c = false → Forall (fun c' => Re.digit c' = false) (upper_char c).
Proof.
  destruct c as [[|] [|] [|] [|] [|] [|] [|] [|]]; vm_compute; intros H;
    try discriminate H; repeat constructor.
Qed.

Lemma folded_no_digit (s : list ascii) :
  no_digit s → no_digit (newlines_to_spaces (upper s)).
Proof.
  unfold no_digit, newlines_to_spaces, upper. intros Hs.
  rewrite Forall_fmap. apply Forall_flat_map.
  eapply Forall_impl; [exact Hs|].
  intros c Hc. eapply Forall_impl; [by apply upper_char_digit|].
  intros c' Hc'. cbn. by destruct (code c' =? 10).
Qed.

Lemma no_digit_extracted (t : string) :
  no_digit (chars t) →
  Production.extract_vitals (OcrText t)
    = ([], 0.0%Q, text (take 50 (newlines_to_spaces (upper (chars t))))).
Proof.
  intros Ht. apply folded_no_digit in Ht.
  unfold Production.extract_vitals, Production.PATTERNS.
  cbn [scan_kinds].
  rewrite !(scan_patterns_none _ _ _) by (done || by vm_compute).
  done.
Qed.

(** X24.  A text in which Tesseract finds no digit yields no vital: the extractor
    of the production connector returns the empty reading with confidence 0,
    the extractor of the OCR connector returns the empty reading when neither
    of its two passes finds a digit, and the pattern fallback of the VLM
    extractor leaves all six values unset. *)
Theorem no_digit_no_vitals (t text_inv : string) :
  no_digit (chars t) → no_digit (chars text_inv) →
  Production.extract_vitals (OcrText t)
    = ([], 0.0%Q, text (take 50 (newlines_to_spaces (upper (chars t))))) ∧
  OcrConnector.extract_vitals_ocr (OcrText t, OcrText text_inv)
    = ([], [], text (take 100 (OcrConnector.strip (chars t ++ chars " " ++ chars text_inv)))) ∧
  Vlm.parse_vitals_response t Vlm.JSONDecodeError = Ok Vlm.no_vitals.
Proof.
  intros Ht Hinv. split_and!.
  - by apply no_digit_extracted.
  - assert (no_digit (chars t ++ chars " " ++ chars text_inv)) as Hall.
    { unfold no_digit. rewrite !Forall_app. split_and!; [done | by repeat constructor | done]. }
    apply folded_no_digit in Hall.
    unfold OcrConnector.extract_vitals_ocr, OcrConnector.extract_vitals_from_text,
      OcrConnector.PATTERNS.
    cbn [OcrConnector.scan_scores].
    rewrite !(scan_patterns_none _ _ _) by (done || by vm_compute).
    done.
  - unfold Vlm.parse_vitals_response.
    destruct (Re.search Vlm.braces (chars t)); [|done].
    unfold Vlm.patterns. cbn [Vlm.read_patterns].
    rewrite !(search_none Re.digit _ (chars t)) by (done || by vm_compute).
    done.
Qed.

Lemma no_digit_no_vitals_witness :
  Production.extract_vitals (OcrText "NO SIGNAL")
    = ([], 0.0%Q, text (take 50 (newlines_to_spaces (upper (chars "NO SIGNAL"))))) ∧
  OcrConnector.extract_vitals_ocr (OcrText "NO SIGNAL", OcrText "hr --")
    = ([], [], text (take 100 (OcrConnector.strip
                                 (chars "NO SIGNAL" ++ chars " " ++ chars "hr --")))) ∧
  Vlm.parse_vitals_response "NO SIGNAL" Vlm.JSONDecodeError = Ok Vlm.no_vitals.
Proof.
  apply (no_digit_no_vitals "NO SIGNAL" "hr --").
  - unfold no_digit. compute_done.
  - unfold no_digit. compute_done.
Defined.

(** X25.  An iteration of the production loop whose frame has a text without
    digits is simulated: from a history with a buffer for every kind it
    returns, and the reading it shows is in mode SIM. *)
Theorem digitless_frame_is_simulated (st : Production.loop_state)
    (i : Production.tick_input) (t : string) :
  wf_history (Production.history (Production.smoother st)) →
  Production.read i = Frame (OcrText t) →
  no_digit (chars t) →
  ∃ st' o,
    Production.tick st i = Ok (st', o) ∧
    Production.out_mode o = SIM ∧
    dict_keys (Production.out_vitals o) = KINDS ∧
    Production.ocr_success st' = Production.ocr_success st.
Proof.
  intros Hwf Hread Ht.
  destruct (production_tick_spec st i Hwf) as (sm' & vitals & md & confidence & Hpost).
  destruct Hpost as (Htick & _ & [(_ & Hlen & _)|(-> & _ & _ & Hk & _)]).
  - exfalso. unfold production_extracted in Hlen. rewrite Hread in Hlen.
    destruct (Production.connected st); [|cbn in Hlen; lia].
    rewrite (no_digit_extracted t Ht) in Hlen. cbn in Hlen. lia.
  - eexists _, _. split; [exact Htick|]. cbn. by split_and!.
Qed.

Lemma digitless_frame_is_simulated_witness :
  ∃ st' o,
    Production.tick (Production.start true {| reply_of := fun _ => HttpRaises "timeout";
                                              posted := [] |})
      {| Production.read := Frame (OcrText "NO SIGNAL");
         Production.latency := 12%Q; Production.drop_rate := 0%Q;
         Production.sim := {| Production.raw_hr := 15; Production.raw_spo2 := 4;
                              Production.raw_rr := 8; Production.raw_temp := 0 |};
         Production.raw_confidence := 0; Production.raw_inference := 0;
         Production.now := "2025-01-01T00:00:00Z" |} = Ok (st', o) ∧
    Production.out_mode o = SIM ∧
    dict_keys (Production.out_vitals o) = KINDS ∧
    Production.ocr_success st' = 0.
Proof.
  apply (digitless_frame_is_simulated
           (Production.start true {| reply_of := fun _ => HttpRaises "timeout";
                                     posted := [] |})
           {| Production.read := Frame (OcrText "NO SIGNAL");
              Production.latency := 12%Q; Production.drop_rate := 0%Q;
              Production.sim := {| Production.raw_hr := 15; Production.raw_spo2 := 4;
                                   Production.raw_rr := 8; Production.raw_temp := 0 |};
              Production.raw_confidence := 0; Production.raw_inference := 0;
              Production.now := "2025-01-01T00:00:00Z" |}
           "NO SIGNAL").
  - split.
    + apply Forall_forall. compute_done.
    + change (map_Forall (fun _ d => maxlen d = 5 ∧ length (items d) ≤ 5)
                (Production.history Production.VitalSmoother_default)).
      compute_done.
  - reflexivity.
  - unfold no_digit. compute_done.
Defined.

(** * The loops as the code runs them, with the display *)

Section MainLoopFacts.
Context {S I O : Type}.
Context (tick : S -> I -> result (S * O)) (net_of : S -> network).
Context (shown : O -> option json).

(** A run with the display consists of the iterations over a prefix of the
    inputs; it uses up the inputs, or it stops at an iteration that raises,
    or at the display of the last iteration run. *)
Lemma main_loop_spec (inputs : list I) :
  ∀ st,
    let outs := fst (main_loop tick net_of shown st inputs) in
    let fin := snd (main_loop tick net_of shown st inputs) in
    ∃ st',
      steps tick st (take (length outs) inputs) st' outs ∧
      end_net net_of fin = net_of st' ∧
      length outs ≤ length inputs ∧
      match fin with
      | Finished s =>
          s = st' ∧ length outs = length inputs ∧
          ∀ o res, o ∈ outs → shown o = Some res → display res = Ok tt
      | Stopped e _ =>
          (∃ i, inputs !! length outs = Some i ∧ tick st' i = Raise e ∧
                ∀ o res, o ∈ outs → shown o = Some res → display res = Ok tt) ∨
          (∃ outs0 o res, outs = outs0 ++ [o] ∧ shown o = Some res ∧
                          display res = Raise e ∧
                          ∀ o' res', o' ∈ outs0 → shown o' = Some res' →
                                     display res' = Ok tt)
      end.
Proof.
  induction inputs as [|i rest IH]; intros st; cbn [main_loop].
  - exists st. cbn. split_and!; [constructor | done | done | done | done |].
    intros o res Ho. by apply elem_of_nil in Ho.
  - destruct (tick st i) as [[st1 o]|e] eqn:Htick.
    + destruct (match shown o with Some res => display res | None => Ok tt end)
        as [[]|e] eqn:Hshow.
      * destruct (IH st1) as (st' & Hsteps & Hnet & Hlen & Hfin). cbn [fst snd length take].
        exists st'. split_and!; [by econstructor | done | lia |].
        destruct (snd (main_loop tick net_of shown st1 rest)) as [s|e n].
        -- destruct Hfin as (-> & Hl & Hok). split_and!; [done | lia |].
           intros o' res' Ho' Hs'. apply elem_of_cons in Ho' as [->|Ho'].
           ++ by rewrite Hs' in Hshow.
           ++ by eapply Hok.
        -- destruct Hfin as [(i' & Hi' & Hr & Hok)|(outs0 & o1 & res & Ho & Hs & Hd & Hok)].
           ++ left. exists i'. split_and!; [done | done |].
              intros o' res' Ho' Hs'. apply elem_of_cons in Ho' as [->|Ho'].
              ** by rewrite Hs' in Hshow.
              ** by eapply Hok.
           ++ right. exists (o :: outs0), o1, res. rewrite Ho.
              split_and!; [done | done | done |].
              intros o' res' Ho' Hs'. apply elem_of_cons in Ho' as [->|Ho'].
              ** by rewrite Hs' in Hshow.
              ** by eapply Hok.
      * cbn [fst snd length take]. exists st1.
        split_and!; [econstructor; [done | constructor] | done | lia |].
        right. destruct (shown o) as [res|] eqn:Hs; [|done].
        exists [], o, res. split_and!; [done | done | done |].
        intros o' res' Ho'. by apply elem_of_nil in Ho'.
    + cbn [fst snd length take]. exists st.
      split_and!; [constructor | done | lia |].
      left. exists i. split_and!; [done | done |].
      intros o res Ho. by apply elem_of_nil in Ho.
Qed.

End MainLoopFacts.

Lemma display_raises (res : json) (e : exn) :
  display res = Raise e → e = AttributeError (type_name res) ∧ ∀ d, res ≠ JDict d.
Proof. destruct res; cbn; intros [= <-]; done. Qed.

(** ** The production loop *)

Lemma production_steps_facts (inputs : list Production.tick_input)
    (st st' : Production.loop_state) (outs : list Production.tick_output) :
  steps Production.tick st inputs st' outs →
  wf_history (Production.history (Production.smoother st)) →
  Production.run_loop st inputs = Ok (st', outs) ∧
  wf_history (Production.history (Production.smoother st')) ∧
  ∀ j o, outs !! j = Some o →
    Production.out_result o
      = result_of (reply_of (Production.net st) (length (posted (Production.net st)) + j)).
Proof.
  induction 1 as [st|st i st1 o rest st2 outs Htick Hsteps IH]; intros Hwf.
  - split_and!; [done | done |]. intros j o Ho. done.
  - destruct (production_tick_spec st i Hwf) as (sm' & vitals & md & c & Htick' & Hwf' & _).
    rewrite Htick in Htick'. injection Htick' as -> ->.
    destruct (IH Hwf') as (Hrun & Hwf2 & Hres). cbn in Hres.
    split_and!.
    + cbn [Production.run_loop]. rewrite Htick. cbn [bind fst snd]. by rewrite Hrun.
    + done.
    + intros [|j] o Ho; cbn in Ho.
      * injection Ho as <-. cbn. by rewrite Nat.add_0_r.
      * rewrite (Hres j o Ho). rewrite length_app. cbn. f_equal. f_equal. lia.
Qed.

(** X7.  A run of the production loop from its start raises nothing of its
    own: it goes on until the inputs end, or until the endpoint answers with
    a JSON value that is not an object, where [result.get] raises
    [AttributeError] and ends the run, after the reading was posted and
    counted.  So it uses up the inputs whenever every answer is an object or
    a failed request.  Up to its end every iteration shows one reading and
    posts one body; [total_sent] counts them and [ocr_success] the readings
    in mode OCR, so it never exceeds [total_sent]; and the stream stays as
    connected as it started. *)
Theorem production_run_counts (is_connected : bool) (n : network)
    (inputs : list Production.tick_input) :
  let outs := fst (production_main_loop (Production.start is_connected n) inputs) in
  let fin := snd (production_main_loop (Production.start is_connected n) inputs) in
  ∃ st',
    Production.run_loop (Production.start is_connected n) (take (length outs) inputs)
      = Ok (st', outs) ∧
    end_net Production.net fin = Production.net st' ∧
    length outs ≤ length inputs ∧
    Production.connected st' = is_connected ∧
    Production.total_sent st' = length outs ∧
    length (posted (Production.net st')) = length (posted n) + length outs ∧
    Production.ocr_success st' = count_ocr outs ∧
    Production.ocr_success st' ≤ Production.total_sent st' ∧
    (∀ j o, outs !! j = Some o →
       Production.out_result o = result_of (reply_of n (length (posted n) + j))) ∧
    match fin with
    | Finished s =>
        s = st' ∧ length outs = length inputs ∧
        ∀ o, o ∈ outs → display (Production.out_result o) = Ok tt
    | Stopped e _ =>
        ∃ outs0 o,
          outs = outs0 ++ [o] ∧
          e = AttributeError (type_name (Production.out_result o)) ∧
          (∀ d, Production.out_result o ≠ JDict d) ∧
          ∀ o', o' ∈ outs0 → display (Production.out_result o') = Ok tt
    end ∧
    ((∀ j, display (result_of (reply_of n j)) = Ok tt) → fin = Finished st').
Proof.
  intros outs fin.
  destruct (main_loop_spec Production.tick Production.net
              (fun o => Some (Production.out_result o)) inputs
              (Production.start is_connected n)) as (st' & Hsteps & Hnet & Hlen & Hfin).
  fold (production_main_loop (Production.start is_connected n) inputs) in Hsteps, Hnet, Hlen, Hfin.
  fold outs in Hsteps, Hlen, Hfin. fold fin in Hnet, Hfin.
  destruct (production_start_in_range is_connected n) as [Hwf Hin].
  destruct (production_steps_facts _ _ _ _ Hsteps Hwf) as (Hrun & Hwf' & Hres).
  destruct (production_run_facts_all (take (length outs) inputs) _ Hwf Hin)
    as (st2 & outs2 & bodies & Hrun2 & F1 & F2 & F3 & F4 & F5 & F6 & F7 & _).
  rewrite Hrun in Hrun2. injection Hrun2 as <- <-.
  rewrite length_take in F4, F5, F6. rewrite (Nat.min_l _ _ Hlen) in F5, F6.
  cbn in F1, F3, F6, F7, Hres.
  assert (match fin with
          | Finished s =>
              s = st' ∧ length outs = length inputs ∧
              ∀ o, o ∈ outs → display (Production.out_result o) = Ok tt
          | Stopped e _ =>
              ∃ outs0 o,
                outs = outs0 ++ [o] ∧
                e = AttributeError (type_name (Production.out_result o)) ∧
                (∀ d, Production.out_result o ≠ JDict d) ∧
                ∀ o', o' ∈ outs0 → display (Production.out_result o') = Ok tt
          end) as Hend.
  { destruct fin as [s|e net'].
    - destruct Hfin as (-> & Hl & Hok). split_and!; [done | done |].
      intros o Ho. by eapply Hok.
    - destruct Hfin as [(i & _ & Hraise & _)|(outs0 & o & res & Ho & [= <-] & Hd & Hok)].
      + destruct (production_tick_spec st' i Hwf') as (? & ? & ? & ? & Htick & _).
        rewrite Htick in Hraise. done.
      + destruct (display_raises _ _ Hd) as [-> Hnd].
        exists outs0, o. split_and!; [done | done | done |].
        intros o' Ho'. by eapply Hok. }
  exists st'. split_and!; try done.
  - rewrite F3, length_app. lia.
  - rewrite F7, F6. unfold count_ocr.
    pose proof (List.filter_length_le (fun o => is_ocr (Production.out_mode o)) outs). lia.
  - intros Hall. destruct fin as [s|e net'].
    + by destruct Hend as (-> & _).
    + destruct Hend as (outs0 & o & Ho & _ & Hnd & _).
      assert (outs !! length outs0 = Some o) as Hlook.
      { rewrite Ho. by apply list_lookup_middle. }
      specialize (Hall (length (posted n) + length outs0)).
      rewrite <- (Hres _ _ Hlook) in Hall.
      destruct (Production.out_result o); try done. by destruct (Hnd d).
Qed.

Lemma production_run_counts_witness :
  let n := {| reply_of := fun _ => HttpOther (JList []); posted := [] |} in
  let i := {| Production.read := NoFrame;
              Production.latency := 0%Q; Production.drop_rate := 0%Q;
              Production.sim := {| Production.raw_hr := 15; Production.raw_spo2 := 4;
                                   Production.raw_rr := 8; Production.raw_temp := 0 |};
              Production.raw_confidence := 0; Production.raw_inference := 0;
              Production.now := "2025-01-01T00:00:00Z" |} in
  ∃ net',
    snd (production_main_loop (Production.start false n) [i; i])
      = Stopped (AttributeError "list") net' ∧
    length (posted net') = 1.
Proof.
  intros n i.
  destruct (production_run_counts false n [i; i])
    as (st' & _ & Hnet & _ & _ & _ & Hposted & _).
  destruct (snd (production_main_loop (Production.start false n) [i; i]))
    as [s|e net'] eqn:E; vm_compute in E; [discriminate E|].
  injection E as <- _. exists net'. split; [reflexivity|].
  cbn in Hnet. rewrite Hnet, Hposted. vm_compute. reflexivity.
Defined.

(** ** The loop of the OCR connector *)

Lemma ocr_steps_facts (inputs : list OcrConnector.tick_input)
    (st st' : OcrConnector.loop_state) (outs : list OcrConnector.tick_output) :
  steps OcrConnector.tick st inputs st' outs →
  wf_history (OcrConnector.history st) →
  ocr_run_loop st inputs = Ok (st', outs) ∧ wf_history (OcrConnector.history st').
Proof.
  induction 1 as [st|st i st1 o rest st2 outs Htick Hsteps IH]; intros Hwf.
  - done.
  - destruct (ocr_tick_spec st i Hwf) as (h' & vitals & md & c & Htick' & Hwf' & _).
    rewrite Htick in Htick'. injection Htick' as -> ->.
    destruct (IH Hwf') as (Hrun & Hwf2).
    split; [|done].
    cbn [ocr_run_loop]. rewrite Htick. cbn [bind fst snd]. by rewrite Hrun.
Qed.

(** X12.  A run of the loop of the OCR connector from its start raises nothing
    of its own: it goes on until the inputs end, or until the endpoint
    answers with a JSON value that is not an object, where [result.get]
    raises [AttributeError] and ends the run, after the reading was counted
    and posted.  So it uses up the inputs whenever every answer is an object
    or a failed request.  Up to its end the counters add up: [total_count] is
    the number of iterations run and of bodies posted, and every iteration
    was counted either as an OCR success or as a simulation. *)
Theorem ocr_run_counts (is_connected : bool) (n : network)
    (inputs : list OcrConnector.tick_input) :
  let outs := fst (ocr_main_loop (OcrConnector.start is_connected n) inputs) in
  let fin := snd (ocr_main_loop (OcrConnector.start is_connected n) inputs) in
  ∃ st',
    ocr_run_loop (OcrConnector.start is_connected n) (take (length outs) inputs)
      = Ok (st', outs) ∧
    end_net OcrConnector.net fin = OcrConnector.net st' ∧
    length outs ≤ length inputs ∧
    OcrConnector.stream_connected st' = is_connected ∧
    OcrConnector.total_count st' = length outs ∧
    OcrConnector.ocr_success_count st' + OcrConnector.sim_count st'
      = OcrConnector.total_count st' ∧
    length (posted (OcrConnector.net st')) = length (posted n) + length outs ∧
    (∀ j o, outs !! j = Some o →
       OcrConnector.out_result o = result_of (reply_of n (length (posted n) + j))) ∧
    match fin with
    | Finished s =>
        s = st' ∧ length outs = length inputs ∧
        ∀ o, o ∈ outs → display (OcrConnector.out_result o) = Ok tt
    | Stopped e _ =>
        ∃ outs0 o,
          outs = outs0 ++ [o] ∧
          e = AttributeError (type_name (OcrConnector.out_result o)) ∧
          (∀ d, OcrConnector.out_result o ≠ JDict d) ∧
          ∀ o', o' ∈ outs0 → display (OcrConnector.out_result o') = Ok tt
    end ∧
    ((∀ j, display (result_of (reply_of n j)) = Ok tt) → fin = Finished st').
Proof.
  intros outs fin.
  destruct (main_loop_spec OcrConnector.tick OcrConnector.net
              (fun o => Some (OcrConnector.out_result o)) inputs
              (OcrConnector.start is_connected n)) as (st' & Hsteps & Hnet & Hlen & Hfin).
  fold (ocr_main_loop (OcrConnector.start is_connected n) inputs) in Hsteps, Hnet, Hlen, Hfin.
  fold outs in Hsteps, Hlen, Hfin. fold fin in Hnet, Hfin.
  destruct (ocr_steps_facts _ _ _ _ Hsteps wf_vital_history) as (Hrun & Hwf').
  destruct (ocr_run_loop_counts (take (length outs) inputs)
              (OcrConnector.start is_connected n) wf_vital_history)
    as (st2 & outs2 & Hrun2 & _ & F1 & Fc & F2 & F3 & _ & F4 & Hres).
  rewrite Hrun in Hrun2. injection Hrun2 as <- <-.
  rewrite length_take, (Nat.min_l _ _ Hlen) in F2, F3, F4.
  cbn in Fc, F2, F3, F4, Hres.
  assert (match fin with
          | Finished s =>
              s = st' ∧ length outs = length inputs ∧
              ∀ o, o ∈ outs → display (OcrConnector.out_result o) = Ok tt
          | Stopped e _ =>
              ∃ outs0 o,
                outs = outs0 ++ [o] ∧
                e = AttributeError (type_name (OcrConnector.out_result o)) ∧
                (∀ d, OcrConnector.out_result o ≠ JDict d) ∧
                ∀ o', o' ∈ outs0 → display (OcrConnector.out_result o') = Ok tt
          end) as Hend.
  { destruct fin as [s|e net'].
    - destruct Hfin as (-> & Hl & Hok). split_and!; [done | done |].
      intros o Ho. by eapply Hok.
    - destruct Hfin as [(i & _ & Hraise & _)|(outs0 & o & res & Ho & [= <-] & Hd & Hok)].
      + destruct (ocr_tick_spec st' i Hwf') as (? & ? & ? & ? & Htick & _).
        rewrite Htick in Hraise. done.
      + destruct (display_raises _ _ Hd) as [-> Hnd].
        exists outs0, o. split_and!; [done | done | done |].
        intros o' Ho'. by eapply Hok. }
  exists st'. split_and!; try done; try lia.
  intros Hall. destruct fin as [s|e net'].
  - by destruct Hend as (-> & _).
  - destruct Hend as (outs0 & o & Ho & _ & Hnd & _).
    assert (outs !! length outs0 = Some o) as Hlook.
    { rewrite Ho. by apply list_lookup_middle. }
    specialize (Hall (length (posted n) + length outs0)).
    rewrite <- (Hres _ _ Hlook) in Hall.
    destruct (OcrConnector.out_result o); try done. by destruct (Hnd d).
Qed.

(** ** The mock connector *)

(** The iterations of the loop of the mock connector, without the display. *)
Lemma mock_steps_posts (inputs : list Mock.tick_input) :
  ∀ (net : network) (n : nat) (st' : network * nat) (outs : list json),
    steps (fun st i => Ok (Mock.tick st i)) (net, n) inputs st' outs →
    snd st' = n + length inputs ∧
    posted (fst st')
      = posted net ++
        map (fun i => Mock.payload (Mock.generate_mock_vitals (Mock.draws i))
                        (Mock.confidence i) (Mock.raw_inference i) (Mock.now i)) inputs ∧
    reply_of (fst st') = reply_of net ∧
    ∀ j res, outs !! j = Some res →
      res = result_of (reply_of net (length (posted net) + j)).
Proof.
  induction inputs as [|i inputs IH]; intros net n st' outs Hsteps.
  - inversion Hsteps; subst. cbn. rewrite app_nil_r. split_and!; [lia | done | done | done].
  - inversion Hsteps as [|? ? st1 o ? ? outs1 Htick Hrest]; subst.
    injection Htick as Htick.
    assert (st1 = ({| reply_of := reply_of net;
                      posted := posted net ++
                        [Mock.payload (Mock.generate_mock_vitals (Mock.draws i))
                           (Mock.confidence i) (Mock.raw_inference i) (Mock.now i)] |},
                   S n) ∧
            o = result_of (reply_of net (length (posted net)))) as [-> ->].
    { revert Htick. unfold Mock.tick, Mock.send_vitals, requests_post. cbn [fst snd].
      destruct (reply_of net (length (posted net))); by intros [= <- <-]. }
    destruct (IH _ _ _ _ Hrest) as (H1 & H2 & H3 & H4). cbn in H2, H3, H4.
    split_and!.
    + cbn. lia.
    + rewrite H2. cbn. by rewrite <- app_assoc.
    + done.
    + intros [|j] res Hj; cbn in Hj.
      * injection Hj as <-. by rewrite Nat.add_0_r.
      * rewrite (H4 j res Hj), length_app. cbn. f_equal. f_equal. lia.
Qed.

(** X26.  The loop of the mock connector posts exactly one reading per
    iteration: up to the end of a run the bodies posted are, in order, the
    payloads of the mock readings generated, each with the four vitals, and
    the count of readings sent grows by one per iteration.  A failed request
    neither stops the loop nor is retried.  The run goes on until the inputs
    end, or until the endpoint answers with a JSON value that is not an
    object, where [result.get] raises [AttributeError] and ends the run,
    after that reading was posted. *)
Theorem mock_run_posts (net : network) (n : nat) (inputs : list Mock.tick_input) :
  let outs := fst (mock_main_loop (net, n) inputs) in
  let fin := snd (mock_main_loop (net, n) inputs) in
  let bodies :=
    map (fun i => Mock.payload (Mock.generate_mock_vitals (Mock.draws i)) (Mock.confidence i)
                    (Mock.raw_inference i) (Mock.now i)) (take (length outs) inputs) in
  length outs ≤ length inputs ∧
  posted (end_net fst fin) = posted net ++ bodies ∧
  reply_of (end_net fst fin) = reply_of net ∧
  Forall (fun body => ∃ vs, body_vitals body = Some vs ∧ dict_keys vs = KINDS ∧ no_null vs)
    bodies ∧
  (∀ j res, outs !! j = Some res →
     res = result_of (reply_of net (length (posted net) + j))) ∧
  match fin with
  | Finished s =>
      length outs = length inputs ∧ snd s = n + length inputs ∧
      ∀ res, res ∈ outs → display res = Ok tt
  | Stopped e _ =>
      ∃ outs0 res,
        outs = outs0 ++ [res] ∧ e = AttributeError (type_name res) ∧
        (∀ d, res ≠ JDict d) ∧
        ∀ res', res' ∈ outs0 → display res' = Ok tt
  end ∧
  ((∀ j, display (result_of (reply_of net j)) = Ok tt) → ∃ s, fin = Finished s).
Proof.
  intros outs fin bodies.
  destruct (main_loop_spec (fun st i => Ok (Mock.tick st i)) fst Some inputs (net, n))
    as (st' & Hsteps & Hnet & Hlen & Hfin).
  fold (mock_main_loop (net, n) inputs) in Hsteps, Hnet, Hlen, Hfin.
  fold outs in Hsteps, Hlen, Hfin. fold fin in Hnet, Hfin.
  destruct (mock_steps_posts _ _ _ _ _ Hsteps) as (H1 & H2 & H3 & H4).
  rewrite length_take, (Nat.min_l _ _ Hlen) in H1.
  assert (match fin with
          | Finished s =>
              length outs = length inputs ∧ snd s = n + length inputs ∧
              ∀ res, res ∈ outs → display res = Ok tt
          | Stopped e _ =>
              ∃ outs0 res,
                outs = outs0 ++ [res] ∧ e = AttributeError (type_name res) ∧
                (∀ d, res ≠ JDict d) ∧
                ∀ res', res' ∈ outs0 → display res' = Ok tt
          end) as Hend.
  { destruct fin as [s|e net'].
    - destruct Hfin as (-> & Hl & Hok). split_and!; [done | lia |].
      intros res Hres. by eapply Hok.
    - destruct Hfin as [(i & _ & Hraise & _)|(outs0 & o & res & Ho & [= <-] & Hd & Hok)];
        [done|].
      destruct (display_raises _ _ Hd) as [-> Hnd].
      exists outs0, o. split_and!; [done | done | done |].
      intros res' Hres'. by eapply Hok. }
  split_and!; [done | by rewrite Hnet | by rewrite Hnet | | done | done |].
  - apply Forall_fmap, Forall_forall. intros i _.
    eexists. split; [reflexivity|]. split; [done|]. by repeat constructor.
  - intros Hall. destruct fin as [s|e net']; [by eexists|].
    destruct Hend as (outs0 & res & Ho & _ & Hnd & _).
    assert (outs !! length outs0 = Some res) as Hlook.
    { rewrite Ho. by apply list_lookup_middle. }
    specialize (Hall (length (posted net) + length outs0)).
    rewrite <- (H4 _ _ Hlook) in Hall.
    destruct res; try done. by destruct (Hnd d).
Qed.
